(** * Sutton Kersh auction scraper: a shallow embedding of [run.py]

    The development follows the source file top to bottom.  Python text is a
    list of Unicode code points, Python [int] is [Z], Python [float] is an
    IEEE 754 binary64 value ([spec_float] at precision 53), a raised
    exception is the left summand of [result]. *)

From Stdlib Require Import ZArith NArith List String Ascii Bool Lia SpecFloat DecimalString.
From Stdlib.Strings Require Import Byte.
From stdpp Require Import base option list gmap strings fin_maps.

Local Open Scope Z_scope.

(** ** Exceptions and results *)

Module Py.

(** The exceptions the program can let escape. *)
Inductive exn :=
  | IndexError | KeyError | AssertionError | ValueError
  | OverflowError | ZeroDivisionError | TypeError | OSError | HTTPError.

Definition result (A : Type) : Type := exn + A.

Definition Return {A} (a : A) : result A := inr a.
Definition Raise {A} (e : exn) : result A := inl e.

Definition bind {A B} (m : result A) (k : A -> result B) : result B :=
  match m with
  | inl e => inl e
  | inr a => k a
  end.

Definition is_value {A} (m : result A) : bool :=
  match m with inr _ => true | inl _ => false end.

Definition raises {A} (m : result A) : Prop := exists e, m = Raise e.
Definition returns {A} (m : result A) : Prop := exists a, m = Return a.

(** ** Text *)

(** A [str] is its sequence of code points. *)
Abbreviation str := (list N).

(** Continuation byte of a UTF-8 sequence: its six payload bits. *)
Definition cont_bits (a : ascii) : N := N.land (N_of_ascii a) 63.

(** [u s] reads the UTF-8 bytes of a literal of this file as code points, so
    that the literals of [run.py] can be written as they are there. *)
Fixpoint utf8 (fuel : nat) (s : list ascii) : list N :=
  match fuel with
  | O => []
  | S fuel =>
      match s with
      | [] => []
      | a :: s1 =>
          let n := N_of_ascii a in
          if (n <? 128)%N then n :: utf8 fuel s1
          else if (n <? 224)%N then
            match s1 with
            | b :: s2 => (N.land n 31 * 64 + cont_bits b)%N :: utf8 fuel s2
            | _ => [65533%N]
            end
          else if (n <? 240)%N then
            match s1 with
            | b :: c :: s3 =>
                (N.land n 15 * 4096 + cont_bits b * 64 + cont_bits c)%N :: utf8 fuel s3
            | _ => [65533%N]
            end
          else
            match s1 with
            | b :: c :: d :: s4 =>
                (N.land n 7 * 262144 + cont_bits b * 4096 + cont_bits c * 64 + cont_bits d)%N
                  :: utf8 fuel s4
            | _ => [65533%N]
            end
      end
  end.

Definition u (s : string) : list N :=
  let l := list_ascii_of_string s in utf8 (List.length l) l.

Fixpoint str_eqb (a b : list N) : bool :=
  match a, b with
  | [], [] => true
  | x :: a', y :: b' => (x =? y)%N && str_eqb a' b'
  | _, _ => false
  end.

(** [prefix ++ rest = s] as a test that hands back [rest]. *)
Fixpoint strip_prefix (p s : list N) : option (list N) :=
  match p, s with
  | [], _ => Some s
  | _ :: _, [] => None
  | a :: p', b :: s' => if (a =? b)%N then strip_prefix p' s' else None
  end.

(** [needle in s] *)
Fixpoint contains (s needle : list N) : bool :=
  match strip_prefix needle s with
  | Some _ => true
  | None => match s with
            | [] => false
            | _ :: s' => contains s' needle
            end
  end.

(** [str.isspace] on one code point (the interpreter's whitespace table). *)
Definition is_space (c : N) : bool :=
  ((9 <=? c) && (c <=? 13) || (28 <=? c) && (c <=? 32)
   || (c =? 133) || (c =? 160) || (c =? 5760)
   || (8192 <=? c) && (c <=? 8202)
   || (c =? 8232) || (c =? 8233) || (c =? 8239) || (c =? 8287)
   || (c =? 12288))%N.

Fixpoint lstrip (s : list N) : list N :=
  match s with
  | c :: s' => if is_space c then lstrip s' else s
  | [] => []
  end.

Definition rstrip (s : list N) : list N := rev (lstrip (rev s)).

(** [s.strip()] *)
Definition strip (s : list N) : list N := rstrip (lstrip s).

(** [s.replace(c, '')] for a one-character [c] *)
Definition remove_char (c : N) (s : list N) : list N :=
  List.filter (fun d => negb (d =? c)%N) s.

(** [s.lower()], as far as the program can observe it: the only use is a
    search for an ASCII phrase, and no character outside ASCII lower-cases
    to a letter of that phrase, so those are left as they are. *)
Definition lower_char (c : N) : N :=
  if ((65 <=? c) && (c <=? 90))%N then (c + 32)%N else c.

Definition lower (s : list N) : list N := map lower_char s.

Definition is_digit (c : N) : bool := ((48 <=? c) && (c <=? 57))%N.

(** Value of a string of ASCII digits, most significant first. *)
Definition digits_value (ds : list N) : Z :=
  fold_left (fun acc d => 10 * acc + (Z.of_N d - 48)) ds 0.

(** Longest prefix whose characters satisfy [p], and the rest. *)
Fixpoint span (p : N -> bool) (s : list N) : list N * list N :=
  match s with
  | c :: s' => if p c then let '(a, b) := span p s' in (c :: a, b) else ([], s)
  | [] => ([], [])
  end.

(** ** Floating point *)

(** binary64 *)
Definition prec : Z := 53.
Definition emax : Z := 1024.

Abbreviation float := spec_float.

(** The float nearest to the integer [n] (ties to even); an infinity when
    [n] is out of range. *)
Definition float_of_Z (n : Z) : float := binary_normalize prec emax n 0 false.

(** The float nearest to [n / d], with the sign given apart. *)
Definition float_of_ratio (neg : bool) (n d : positive) : float :=
  let '(q, e, l) := SFdiv_core_binary prec emax (Zpos n) 0 (Zpos d) 0 in
  binary_round_aux prec emax neg q e l.

(** The float nearest to [m * 10 ^ e]: what reading a decimal numeral gives. *)
Definition float_of_decimal (neg : bool) (m : Z) (e : Z) : float :=
  match m with
  | Zpos p =>
      if 0 <=? e then binary_normalize prec emax (cond_Zopp neg (m * 10 ^ e)) 0 false
      else float_of_ratio neg p (Z.to_pos (10 ^ (- e)))
  | _ => S754_zero neg
  end.

Definition is_zero (f : float) : bool :=
  match f with S754_zero _ => true | _ => false end.

(** [int(f)]: truncation toward zero. *)
Definition int_of_float (f : float) : result Z :=
  match f with
  | S754_nan => Raise ValueError
  | S754_infinity _ => Raise OverflowError
  | S754_zero _ => Return 0
  | S754_finite s m e => Return (cond_Zopp s (Z.shiftl (Zpos m) e))
  end.

(** [float(n)] of an [int], as the arithmetic operators convert it. *)
Definition float_of_int (n : Z) : result float :=
  match float_of_Z n with
  | S754_infinity _ => Raise OverflowError
  | f => Return f
  end.

(** [x / y] on floats *)
Definition float_truediv (x y : float) : result float :=
  if is_zero y then Raise ZeroDivisionError else Return (SFdiv prec emax x y).

(** [a / b] on ints: the float nearest to the exact quotient. *)
Definition int_truediv (a b : Z) : result float :=
  match b, a with
  | Z0, _ => Raise ZeroDivisionError
  | _, Z0 => Return (S754_zero (b <? 0))
  | _, _ =>
      match float_of_ratio (xorb (a <? 0) (b <? 0)) (Z.to_pos (Z.abs a)) (Z.to_pos (Z.abs b)) with
      | S754_infinity _ => Raise OverflowError
      | f => Return f
      end
  end.

(** ** [float(s)] for a string [s] *)

(** The decimal digits of all scripts, as the interpreter's character
    database has them (Unicode 14.0, that of CPython 3.11): they come in
    runs of ten, zero to nine, and each run starts at one of these code
    points. *)
Definition decimal_zeros : list N :=
  [48; 1632; 1776; 1984; 2406; 2534; 2662; 2790; 2918; 3046; 3174; 3302;
   3430; 3558; 3664; 3792; 3872; 4160; 4240; 6112; 6160; 6470; 6608; 6784;
   6800; 6992; 7088; 7232; 7248; 42528; 43216; 43264; 43472; 43504; 43600;
   44016; 65296; 66720; 68912; 69734; 69872; 69942; 70096; 70384; 70736;
   70864; 71248; 71360; 71472; 71904; 72016; 72784; 73040; 73120; 92768;
   92864; 93008; 120782; 120792; 120802; 120812; 120822; 123200; 123632;
   125264; 130032]%N.

(** The value of a decimal digit of any script. *)
Definition to_decimal (c : N) : option N :=
  match List.find (fun z => (z <=? c) && (c <=? z + 9))%N decimal_zeros with
  | Some z => Some (c - z)%N
  | None => None
  end.

(** Before a number is read, characters outside ASCII are mapped to
    ASCII: white space to a blank and a decimal digit of any script to the
    digit [0]..[9] of its value.  Any other character has no image. *)
Definition to_ascii_char (c : N) : option N :=
  if (c <? 127)%N then Some c
  else if is_space c then Some 32%N
  else option_map (N.add 48) (to_decimal c).

(** The mapped string; at the first character without an image a question
    mark is written and the rest of the string is dropped. *)
Fixpoint to_ascii (s : list N) : list N :=
  match s with
  | [] => []
  | c :: s' =>
      match to_ascii_char c with
      | Some a => a :: to_ascii s'
      | None => [63%N]
      end
  end.

(** White space as the number reader sees it: blank, tab, line feed,
    vertical tab, form feed, carriage return. *)
Definition is_ascii_space (c : N) : bool :=
  ((9 <=? c) && (c <=? 13) || (c =? 32))%N.

Fixpoint lstrip_ascii (s : list N) : list N :=
  match s with
  | c :: s' => if is_ascii_space c then lstrip_ascii s' else s
  | [] => []
  end.

Definition strip_ascii (s : list N) : list N :=
  rev (lstrip_ascii (rev (lstrip_ascii s))).

(** Underscores may only stand between two digits; [prev] is the character
    before [s].  Returns the string without them. *)
Fixpoint drop_underscores (prev : N) (s : list N) : option (list N) :=
  match s with
  | [] => if (prev =? 95)%N then None else Some []
  | c :: s' =>
      if (c =? 95)%N then
        if is_digit prev then drop_underscores c s' else None
      else if (prev =? 95)%N && negb (is_digit c) then None
      else option_map (cons c) (drop_underscores c s')
  end.

(** An optional sign: whether it is a minus, and the rest. *)
Definition read_sign (s : list N) : bool * list N :=
  match s with
  | c :: s' =>
      if (c =? 45)%N then (true, s')
      else if (c =? 43)%N then (false, s')
      else (false, s)
  | [] => (false, s)
  end.

(** An optional exponent part [e|E [sign] digits]; without digits the [e] is
    left unread. *)
Definition read_exponent (s : list N) : Z * list N :=
  match s with
  | c :: s' =>
      if ((c =? 101) || (c =? 69))%N then
        let '(neg, s1) := read_sign s' in
        let '(ds, s2) := span is_digit s1 in
        match ds with
        | [] => (0, s)
        | _ => (cond_Zopp neg (digits_value ds), s2)
        end
      else (0, s)
  | [] => (0, s)
  end.

(** The numeral grammar, on a string already stripped. *)
Definition read_float (s : list N) : option float :=
  let '(neg, s0) := read_sign s in
  let w := lower s0 in
  if str_eqb w (u "inf") || str_eqb w (u "infinity") then Some (S754_infinity neg)
  else if str_eqb w (u "nan") then Some S754_nan
  else
    let '(ip, s1) := span is_digit s0 in
    let '(fp, s2) := match s1 with
                     | c :: s1' =>
                         if (c =? 46)%N then span is_digit s1' else ([], s1)
                     | [] => ([], s1)
                     end in
    match ip ++ fp with
    | [] => None
    | ds =>
        let '(ex, s3) := read_exponent s2 in
        match s3 with
        | [] => Some (float_of_decimal neg (digits_value ds) (ex - Z.of_nat (List.length fp)))
        | _ => None
        end
    end.

(** [float(s)] *)
Definition float_of_str (s : list N) : result float :=
  match drop_underscores 0%N (to_ascii s) with
  | None => Raise ValueError
  | Some s' =>
      match read_float (strip_ascii s') with
      | None => Raise ValueError
      | Some f => Return f
      end
  end.

(** ** Values held in a row *)

Inductive value :=
  | VNone
  | VBool (b : bool)
  | VInt (n : Z)
  | VFloat (f : float)
  | VStr (s : list N).

(** Truth value of an object, as [if x:] takes it. *)
Definition truthy (v : value) : bool :=
  match v with
  | VNone => false
  | VBool b => b
  | VInt n => negb (n =? 0)
  | VFloat f => negb (is_zero f)
  | VStr s => match s with [] => false | _ => true end
  end.

(** [x / y] *)
Definition truediv (x y : value) : result value :=
  let int_like v := match v with
                    | VInt n => Some n
                    | VBool b => Some (if b then 1 else 0)
                    | _ => None
                    end in
  let as_float v := match v with
                    | VFloat f => Return f
                    | _ => match int_like v with
                           | Some n => float_of_int n
                           | None => Raise TypeError
                           end
                    end in
  match int_like x, int_like y with
  | Some a, Some b => bind (int_truediv a b) (fun f => Return (VFloat f))
  | _, _ =>
      match x, y with
      | (VNone | VStr _), _ | _, (VNone | VStr _) => Raise TypeError
      | _, _ =>
          bind (as_float x) (fun fx =>
          bind (as_float y) (fun fy =>
          bind (float_truediv fx fy) (fun f => Return (VFloat f))))
      end
  end.

(** [l[i]] *)
Definition index {A} (l : list A) (i : nat) : result A :=
  match nth_error l i with
  | Some a => Return a
  | None => Raise IndexError
  end.

(** [d[k]] *)
Definition getitem {A} (d : gmap string A) (k : string) : result A :=
  match d !! k with
  | Some a => Return a
  | None => Raise KeyError
  end.

End Py.
Import Py.

(** ** Regular expressions

    The fragment of [re] that the program's three patterns are written in,
    matched the way [re] does it: left to right, greedy, backtracking. *)

Module Re.

(** What can match one character. *)
Inductive atom :=
  | Dot                              (* [.]: anything but a line feed *)
  | Cls (ranges : list (N * N)).     (* [[a-bc-d...]] *)

Inductive regex :=
  | Lit (s : list N)                 (* literal text *)
  | Plus (a : atom)                  (* [a+] *)
  | Group (name : string) (r : regex)   (* [(?P<name>r)] *)
  | Seq (r1 r2 : regex)
  | Eos                              (* [$] *)
  | Eps.

Definition cat (rs : list regex) : regex := fold_right Seq Eps rs.

Definition atom_ok (a : atom) (c : N) : bool :=
  match a with
  | Dot => negb (c =? 10)%N
  | Cls ranges => existsb (fun '(lo, hi) => (lo <=? c) && (c <=? hi))%N ranges
  end.

(** Captured groups, the latest first. *)
Abbreviation groups := (list (string * list N)).

Section Run.
Context {R : Type}.

(** [a+] from [s]: take one more character while that leads to a match,
    else go on from here. *)
Fixpoint plus (a : atom) (s : list N) (k : list N -> option R) : option R :=
  match s with
  | c :: s' =>
      if atom_ok a c then
        match plus a s' k with
        | Some r => Some r
        | None => k s'
        end
      else None
  | [] => None
  end.

(** [run r s g k]: match [r] at the start of [s] and hand what is left,
    with the groups so far, to [k]; the first way that [k] accepts wins. *)
Fixpoint run (r : regex) (s : list N) (g : groups)
    (k : list N -> groups -> option R) : option R :=
  match r with
  | Lit l => match strip_prefix l s with
             | Some s' => k s' g
             | None => None
             end
  | Plus a => plus a s (fun s' => k s' g)
  | Group name r =>
      run r s g (fun s' g' =>
        k s' ((name, take (List.length s - List.length s') s) :: g'))
  | Seq r1 r2 => run r1 s g (fun s' g' => run r2 s' g' k)
  | Eos => match s with
           | [] | [10%N] => k s g
           | _ => None
           end
  | Eps => k s g
  end.
End Run.

(** [re.match(r, s)] *)
Definition re_match (r : regex) (s : list N) : option groups :=
  run r s [] (fun _ g => Some g).

(** [re.search(r, s)] *)
Fixpoint re_search (r : regex) (s : list N) : option groups :=
  match re_match r s with
  | Some g => Some g
  | None => match s with
            | [] => None
            | _ :: s' => re_search r s'
            end
  end.

(** [m.group(name)] of a group that took part in the match *)
Fixpoint group (g : groups) (name : string) : list N :=
  match g with
  | [] => []
  | (n, v) :: g' => if String.eqb n name then v else group g' name
  end.

End Re.

Import Re.

(** ** Documents

    The tree that [lxml] hands to the program, and the six XPath queries the
    program makes on it.  Reading the page text into the tree is [lxml]'s
    work and is not modelled: the program is followed from the tree on. *)

Module Dom.

(** An element as [lxml] presents it: its tag, attributes, the text before
    its first child, its child elements, and the text that follows it in
    its parent ([tail]).  Empty text stands for no text. *)
#[warnings="-register-all"]
Inductive element :=
  | Element (tag : string) (attrib : list (string * list N)) (text : list N)
            (children : list element) (tail : list N).

Definition tag (e : element) : string :=
  match e with Element t _ _ _ _ => t end.
Definition attrib (e : element) : list (string * list N) :=
  match e with Element _ a _ _ _ => a end.
Definition etext (e : element) : list N :=
  match e with Element _ _ t _ _ => t end.
Definition children (e : element) : list element :=
  match e with Element _ _ _ c _ => c end.
Definition tail (e : element) : list N :=
  match e with Element _ _ _ _ t => t end.

(** An element in its place: the root element of its document, the element
    and the siblings that follow it. *)
Record node := Node { doc : element; elem : element; following : list element }.

(** The root element of a document, in its place. *)
Definition root_node (root : element) : node := Node root root [].

(** The elements of a list of siblings, each in its place. *)
Fixpoint in_place (root : element) (l : list element) : list node :=
  match l with
  | [] => []
  | c :: rest => Node root c rest :: in_place root rest
  end.

(** [e] and everything below it, in document order. *)
Fixpoint descendant_or_self (root e : element) (sibs : list element) : list node :=
  match e with
  | Element _ _ _ cs _ =>
      Node root e sibs ::
      (fix below (l : list element) : list node :=
         match l with
         | [] => []
         | c :: rest => descendant_or_self root c rest ++ below rest
         end) cs
  end.

Definition descendants (n : node) : list node :=
  List.tl (descendant_or_self (doc n) (elem n) (following n)).

(** [e.text_content()] *)
Fixpoint text_content (e : element) : list N :=
  match e with
  | Element _ _ t cs _ =>
      t ++ (fix below (l : list element) : list N :=
              match l with
              | [] => []
              | c :: rest => text_content c ++ tail c ++ below rest
              end) cs
  end.

(** [e.attrib.get(name)] *)
Fixpoint lookup_attr (a : list (string * list N)) (name : string)
    : option (list N) :=
  match a with
  | [] => None
  | (n, v) :: a' => if String.eqb n name then Some v else lookup_attr a' name
  end.

(** [e.attrib[name]] *)
Definition attr (e : element) (name : string) : result (list N) :=
  match lookup_attr (attrib e) name with
  | Some v => Return v
  | None => Raise KeyError
  end.

(** The first text node among the children of [e], as a string: what
    [text()] is worth inside [contains]. *)
Definition first_text (e : element) : list N :=
  match etext e with
  | [] => match List.filter (fun t => negb (str_eqb t [])) (map tail (children e)) with
          | t :: _ => t
          | [] => []
          end
  | t => t
  end.

Inductive axis :=
  | Anywhere            (* [//t]: every element of the document *)
  | Child               (* [./t] *)
  | Descendant          (* [.//t] *)
  | FollowingSibling.   (* [./following-sibling::t] *)

Inductive predicate :=
  | ContainsAttr (name : string) (needle : list N)   (* [contains(@name, 'needle')] *)
  | ContainsText (needle : list N).                  (* [contains(text(), 'needle')] *)

(** One location step: axis, tag and an optional predicate. *)
Record path := Path { axis_of : axis; tag_of : string; where_ : option predicate }.

Definition holds (p : predicate) (e : element) : bool :=
  match p with
  | ContainsAttr name needle =>
      contains (default [] (lookup_attr (attrib e) name)) needle
  | ContainsText needle => contains (first_text e) needle
  end.

Definition selects (p : path) (n : node) : bool :=
  String.eqb (tag (elem n)) (tag_of p)
  && match where_ p with
     | Some q => holds q (elem n)
     | None => true
     end.

(** [n.xpath(p)] *)
Definition xpath (n : node) (p : path) : list node :=
  List.filter (selects p)
    match axis_of p with
    | Anywhere => descendant_or_self (doc n) (doc n) []
    | Child => in_place (doc n) (children (elem n))
    | Descendant => descendants n
    | FollowingSibling => in_place (doc n) (following n)
    end.

End Dom.

Import Dom.

(** ** CSV output

    [csv.DictWriter] in its default dialect: comma, double quote, quotes
    only where needed and doubled inside, lines ended by CR LF. *)

Module Csv.

Section Writer.
(** [repr] of a float is the interpreter's shortest-digits printing; the
    writer only passes its result on, so it is left open here. *)
Variable float_repr : float -> list N.

Definition str_of_int (n : Z) : list N := u (NilZero.string_of_int (Z.to_int n)).

(** What the writer puts in a cell for a value: nothing for [None], the
    text itself for a [str], [str(v)] for the rest. *)
Definition cell (v : value) : list N :=
  match v with
  | VNone => []
  | VStr s => s
  | VBool b => if b then u "True" else u "False"
  | VInt n => str_of_int n
  | VFloat f => float_repr f
  end.

(** A cell is quoted when it holds a comma, a quote or a line break. *)
Definition special (c : N) : bool :=
  ((c =? 44) || (c =? 34) || (c =? 13) || (c =? 10))%N.

Definition quoted (s : list N) : list N :=
  34%N :: flat_map (fun c => if (c =? 34)%N then [34; 34]%N else [c]) s ++ [34%N].

Definition field (s : list N) : list N :=
  if existsb special s then quoted s else s.

Fixpoint join (sep : list N) (l : list (list N)) : list N :=
  match l with
  | [] => []
  | [a] => a
  | a :: l' => a ++ sep ++ join sep l'
  end.

(** One record; a lone empty cell is written as two quotes. *)
Definition record (cells : list (list N)) : list N :=
  match cells, join [44%N] (map field cells) with
  | _ :: _, [] => [34; 34; 13; 10]%N
  | _, line => line ++ [13; 10]%N
  end.

(** [DictWriter._dict_to_list]: keys outside the field names are refused,
    missing ones read as the empty string. *)
Definition _dict_to_list (fieldnames : list string) (rowdict : gmap string value)
    : result (list value) :=
  if bool_decide (dom rowdict ⊆ list_to_set fieldnames)
  then Return (map (fun key => default (VStr []) (rowdict !! key)) fieldnames)
  else Raise ValueError.

(** [DictWriter.writeheader]: the text it writes *)
Definition writeheader (fieldnames : list string) : list N :=
  record (map u fieldnames).

(** [DictWriter.writerow]: the text it writes *)
Definition writerow (fieldnames : list string) (rowdict : gmap string value)
    : result (list N) :=
  bind (_dict_to_list fieldnames rowdict) (fun vs => Return (record (map cell vs))).
End Writer.

End Csv.

(** ** The program *)

Definition CURRENT_URL : list N :=
  u "http://www.suttonkersh.co.uk/properties/listview/?section=auction&auctionPeriod=current&perPage=all".

Definition TABLE_ROW_XPATH : path :=
  Path Anywhere "tr" (Some (ContainsAttr "id" (u "header_"))).

Definition PAGE_ENCODING : list N := u "utf-8".

Definition FIELDS : list string :=
  [ "lot_number";
    "street_address";
    "postcode";
    "status";
    "guide_price_low";
    "guide_price_high";
    "_yield_guide_price_high";
    "_price_10pct_yield";
    "_price_12.5pct_yield";
    "_price_15pct_yield";
    "_price_20pct_yield";
    "has_assured_shorthold_tenancy";
    "ast_annual_income";
    "description";
    "detail_url";
    "photo_url" ]%string.

(** A row is a [dict] from field name to value. *)
Abbreviation row := (gmap string value).

(** A generator that was run to its end: what it yielded, and the
    exception that ended it, if one did. *)
Definition generated (A : Type) : Type := list A * option exn.

(** [for x in xs: yield f(x)] *)
Fixpoint yield_each {A B} (f : A -> result B) (xs : list A) : generated B :=
  match xs with
  | [] => ([], None)
  | x :: xs' =>
      match f x with
      | inl e => ([], Some e)
      | inr b => let '(bs, e) := yield_each f xs' in (b :: bs, e)
      end
  end.

Module PropertyRowParser.

(** [".//p[contains(@class, 'descriptionText')]"] *)
Definition DESCRIPTION_P : path :=
  Path Descendant "p" (Some (ContainsAttr "class" (u "descriptionText"))).

(** [[0-9,]] and [[0-9,.]] *)
Definition digit_comma : atom := Cls [(48, 57); (44, 44)]%N.
Definition digit_comma_dot : atom := Cls [(48, 57); (44, 44); (46, 46)]%N.

(** [r'Guide Price: £(?P<low>[0-9,]+).+£(?P<high>[0-9,]+)\*$'] *)
Definition GUIDE_RANGE : regex :=
  cat [Lit (u "Guide Price: £"); Group "low" (Plus digit_comma); Plus Dot;
       Lit (u "£"); Group "high" (Plus digit_comma); Lit (u "*"); Eos].

(** [r'Guide Price: £(?P<price>[0-9,]+)\+\*$'] *)
Definition GUIDE_PLUS : regex :=
  cat [Lit (u "Guide Price: £"); Group "price" (Plus digit_comma);
       Lit (u "+"); Lit (u "*"); Eos].

(** ['£(?P<income>[0-9,.]+) per annum'] *)
Definition PER_ANNUM : regex :=
  cat [Lit (u "£"); Group "income" (Plus digit_comma_dot); Lit (u " per annum")].

(** The object's two attributes. *)
Record self := Self { header_tr : node; detail_tr : node }.

Definition __init__ (header_tr : node) : result self :=
  bind (index (xpath header_tr (Path FollowingSibling "tr" None)) 0)
    (fun detail_tr => Return (Self header_tr detail_tr)).

(** Either a list of elements or one element is passed. *)
Definition text (list_of_one_element : list node + node) : result (list N) :=
  bind (match list_of_one_element with
        | inl l => if Nat.eqb (List.length l) 1 then index l 0
                   else Raise AssertionError
        | inr e => Return e
        end)
    (fun element => Return (strip (text_content (elem element)))).

Definition price (price_string : list N) : result Z :=
  bind (float_of_str (strip (remove_char 44 price_string))) int_of_float.

Definition _make_absolute_url (path : list N) : list N :=
  u "http://www.suttonkersh.co.uk" ++ path.

Definition lot_number (s : self) : result (list N) :=
  bind (index (xpath (header_tr s) (Path Child "td" None)) 0)
    (fun td => text (inr td)).

Definition street_address (s : self) : result (list N) :=
  bind (index (xpath (header_tr s) (Path Child "td" None)) 1)
    (fun td => text (inr td)).

Definition postcode (s : self) : result (list N) :=
  bind (index (xpath (header_tr s) (Path Child "td" None)) 2)
    (fun td => text (inr td)).

Definition status (s : self) : result (list N) :=
  bind (index (xpath (header_tr s) (Path Child "td" None)) 3)
    (fun td => text (inr td)).

Definition description (s : self) : result (list N) :=
  bind (index (xpath (detail_tr s) DESCRIPTION_P) 0)
    (fun p => Return (text_content (elem p))).

Definition _parse_guide_price_range (s : self) : result (option Z * option Z) :=
  bind (status s) (fun status =>
  match re_match GUIDE_RANGE status with
  | Some m =>
      bind (price (group m "low")) (fun low =>
      bind (price (group m "high")) (fun high =>
      Return (Some low, Some high)))
  | None =>
      match re_match GUIDE_PLUS status with
      | Some m =>
          bind (price (group m "price")) (fun price =>
          Return (Some price, Some price))
      | None => Return (None, None)
      end
  end).

Definition guide_price_low (s : self) : result (option Z) :=
  bind (_parse_guide_price_range s) (fun r => Return (fst r)).

Definition guide_price_high (s : self) : result (option Z) :=
  bind (_parse_guide_price_range s) (fun r => Return (snd r)).

Definition has_assured_shorthold_tenancy (s : self) : result bool :=
  bind (description s) (fun d =>
  Return (contains (lower d) (u "assured shorthold"))).

Definition ast_annual_income (s : self) : result (option Z) :=
  bind (has_assured_shorthold_tenancy s) (fun flag =>
  if negb flag then Return None
  else
    bind (description s) (fun d =>
    match re_search PER_ANNUM d with
    | Some m => bind (price (group m "income")) (fun v => Return (Some v))
    | None => Return None
    end)).

Definition detail_url (s : self) : result (list N) :=
  bind (index (xpath (detail_tr s)
                (Path Descendant "a" (Some (ContainsText (u "Details"))))) 0)
    (fun a => bind (attr (elem a) "href") (fun href =>
    Return (_make_absolute_url href))).

Definition photo_url (s : self) : result (list N) :=
  bind (index (xpath (detail_tr s)
                (Path Descendant "img" (Some (ContainsAttr "class" (u "lotImage"))))) 0)
    (fun img => bind (attr (elem img) "src") (fun src =>
    Return (_make_absolute_url src))).

(** An [int] or [None] as a value. *)
Definition int_or_none (o : option Z) : value :=
  match o with
  | Some n => VInt n
  | None => VNone
  end.

Definition as_dict (s : self) : result row :=
  bind (lot_number s) (fun lot_number =>
  bind (street_address s) (fun street_address =>
  bind (postcode s) (fun postcode =>
  bind (status s) (fun status =>
  bind (description s) (fun description =>
  bind (detail_url s) (fun detail_url =>
  bind (photo_url s) (fun photo_url =>
  bind (guide_price_low s) (fun guide_price_low =>
  bind (guide_price_high s) (fun guide_price_high =>
  bind (has_assured_shorthold_tenancy s) (fun has_assured_shorthold_tenancy =>
  bind (ast_annual_income s) (fun ast_annual_income =>
  Return (list_to_map
    [ ("lot_number", VStr lot_number);
      ("street_address", VStr street_address);
      ("postcode", VStr postcode);
      ("status", VStr status);
      ("description", VStr description);
      ("detail_url", VStr detail_url);
      ("photo_url", VStr photo_url);
      ("guide_price_low", int_or_none guide_price_low);
      ("guide_price_high", int_or_none guide_price_high);
      ("has_assured_shorthold_tenancy", VBool has_assured_shorthold_tenancy);
      ("ast_annual_income", int_or_none ast_annual_income) ]%string : row)))))))))))).

End PropertyRowParser.

(** The float literals [0.10], [0.125], [0.15] and [0.20]. *)
Definition rate_10 : float := float_of_decimal false 10 (-2).
Definition rate_12_5 : float := float_of_decimal false 125 (-3).
Definition rate_15 : float := float_of_decimal false 15 (-2).
Definition rate_20 : float := float_of_decimal false 20 (-2).

(** [float(100)] *)
Definition hundred : float := S754_finite false 7036874417766400 (-46).

(** The row [r] with the four price fields set from the income [fn]. *)
Definition with_prices (fn : float) (r : row) : row :=
  <["_price_20pct_yield" := VFloat (SFdiv prec emax fn rate_20)]>
  (<["_price_15pct_yield" := VFloat (SFdiv prec emax fn rate_15)]>
  (<["_price_12.5pct_yield" := VFloat (SFdiv prec emax fn rate_12_5)]>
  (<["_price_10pct_yield" := VFloat (SFdiv prec emax fn rate_10)]> r))).

(** The row is changed in place; the changed row is returned here. *)
Definition add_calculations (r : row) : result row :=
  bind (getitem r "ast_annual_income") (fun annual_income =>
  bind (getitem r "guide_price_high") (fun guide_price_high =>
  if truthy annual_income then
    bind (truediv annual_income (VFloat rate_10)) (fun p10 =>
    let r := <["_price_10pct_yield" := p10]> r in
    bind (truediv annual_income (VFloat rate_12_5)) (fun p12 =>
    let r := <["_price_12.5pct_yield" := p12]> r in
    bind (truediv annual_income (VFloat rate_15)) (fun p15 =>
    let r := <["_price_15pct_yield" := p15]> r in
    bind (truediv annual_income (VFloat rate_20)) (fun p20 =>
    let r := <["_price_20pct_yield" := p20]> r in
    if truthy guide_price_high then
      bind (truediv guide_price_high annual_income) (fun q =>
      bind (truediv q (VInt 100)) (fun y =>
      Return (<["_yield_guide_price_high" := y]> r)))
    else Return r))))
  else Return r)).

(** ** Fetching and writing *)

(** [requests]: what the program reads of the answer to its request. *)
Module Requests.

Record response := Response {
  status_code : Z;
  encoding : option (list N);
  content : list byte;
  text : list N
}.

(** [Response.raise_for_status]: statuses 400 to 599 are raised. *)
Definition raise_for_status (r : response) : result unit :=
  if (400 <=? status_code r) && (status_code r <? 600)
  then Raise HTTPError else Return tt.

End Requests.

Abbreviation response := Requests.response.
Abbreviation Response := Requests.Response.
Abbreviation status_code := Requests.status_code.
Abbreviation encoding := Requests.encoding.
Abbreviation content := Requests.content.
Abbreviation raise_for_status := Requests.raise_for_status.

(** Files, by path.  Writing is taken to succeed. *)
Abbreviation files := (gmap string (list byte)).

(** [pjoin(dirname(__file__), 'sample_page.html')], from the program's
    directory *)
Definition SNAPSHOT : string := "sample_page.html".

Definition write_back_page_to_file (r : response) (fs : files)
    : result unit * files :=
  if bool_decide (encoding r = Some PAGE_ENCODING)
  then (Return tt, <[SNAPSHOT := content r]> fs)
  else (Raise AssertionError, fs).

(** The body of the loop of [get_rows_from_page]: the row of one header
    row. *)
Definition row_of_header (tr : node) : result row :=
  bind (PropertyRowParser.__init__ tr) (fun parser =>
  bind (PropertyRowParser.as_dict parser) add_calculations).

(** The loop of [get_rows_from_page], on the tree of the page. *)
Definition rows_of_tree (root : element) : generated row :=
  yield_each row_of_header (xpath (root_node root) TABLE_ROW_XPATH).

Section World.
(** What the program gets from outside its own text: the answer of the
    network to a GET ([requests.get]), the reading of a page into a tree
    ([lxml.html.fromstring]), the decoding of bytes under an encoding
    ([bytes.decode]) and the printing of a float ([repr]). *)
Variable requests_get : list N -> result response.
Variable fromstring : list N -> result element.
Variable decode : list byte -> list N -> result (list N).
Variable float_repr : float -> list N.

Definition html_from_file (html_filename : string) (fs : files)
    : result (list N) :=
  match fs !! html_filename with
  | Some bytes => decode bytes PAGE_ENCODING
  | None => Raise OSError
  end.

Definition html_from_url (url : list N) (fs : files)
    : result (list N) * files :=
  match requests_get url with
  | inl e => (Raise e, fs)
  | inr response =>
      match raise_for_status response with
      | inl e => (Raise e, fs)
      | inr _ =>
          match write_back_page_to_file response fs with
          | (inl e, fs') => (Raise e, fs')
          | (inr _, fs') => (Return (Requests.text response), fs')
          end
      end
  end.

(** A generator: nothing of it runs, the reading of the page included,
    before the first row is asked for. *)
Definition get_rows_from_page (html : list N) : generated row :=
  match fromstring html with
  | inl e => ([], Some e)
  | inr root => rows_of_tree root
  end.

(** [for row in rows: writer.writerow(row)]: the text written, and the
    exception that stopped the loop, if one did. *)
Fixpoint write_rows (rows : list row) : list N * option exn :=
  match rows with
  | [] => ([], None)
  | r :: rest =>
      match Csv.writerow float_repr FIELDS r with
      | inl e => ([], Some e)
      | inr line => let '(out, e) := write_rows rest in (line ++ out, e)
      end
  end.

(** The text written to standard output, and the exception that ended
    the call, if one did. *)
Definition output_csv (rows : generated row) : list N * option exn :=
  let '(out, e) := write_rows (fst rows) in
  (Csv.writeheader FIELDS ++ out,
   match e with
   | Some e => Some e
   | None => snd rows
   end).

(** The run: standard output, the exception that ended it if one did,
    and the files afterwards. *)
Definition main (html_filename : option string) (fs : files)
    : list N * option exn * files :=
  let '(html_string, fs') :=
    match html_filename with
    | Some (String _ _ as name) => (html_from_file name fs, fs)
    | _ => html_from_url CURRENT_URL fs
    end in
  match html_string with
  | inl e => ([], Some e, fs')
  | inr html_string => (output_csv (get_rows_from_page html_string), fs')
  end.
End World.

(** ** A sample page *)

Module Sample.

Definition td (s : string) : element := Element "td" [] (u s) [] [].

Definition header (id : string) (lot address postcode status : string) : element :=
  Element "tr" [("id", u id)] [] [td lot; td address; td postcode; td status] [].

Definition detail (photo description href : string) : element :=
  Element "tr" [] []
    [Element "td" [] []
       [Element "img" [("class", u "lotImage"); ("src", u photo)] [] [] [];
        Element "p" [("class", u "descriptionText")] (u description) [] [];
        Element "a" [("href", u href)] (u "Details") [] []] []] [].

Definition lot1 : list element :=
  [header "header_1" "1" "12 Example Street, Liverpool" "L1 1AA"
     "Guide Price: £100,000-£120,000*";
   detail "/img/1.jpg"
     " Let by way of an Assured Shorthold tenancy producing £15,400 per annum. "
     "/lot/1"].

Definition lot2 : list element :=
  [header "header_2" "2" "3 Sample Road, Liverpool" "L2 2BB" "Sold Prior";
   detail "/img/2.jpg" "A vacant three bedroomed terrace." "/lot/2"].

(** Two lots in one table. *)
Definition page : element :=
  Element "html" [] [] [Element "body" [] [] [Element "table" [] [] (lot1 ++ lot2) []] []] [].

(** A header row with nothing after it. *)
Definition page_without_detail : element :=
  Element "table" [] [] [header "header_1" "1" "a" "b" "Sold Prior"] [].

(** A page of one lot with the given status and description. *)
Definition page_of (status description : string) : element :=
  Element "table" [] []
    [header "header_1" "1" "1 Test Lane" "L3 3CC" status;
     detail "/img/3.jpg" description "/lot/3"] [].

(** A status cell with blanks around its text. *)
Definition page_of_padded_status : element :=
  page_of "  Sold Prior  " " Vacant. ".

(** An income that truncates to 0. *)
Definition page_zero_income : element :=
  page_of "Guide Price: £40,000+*"
    "Let on an Assured Shorthold tenancy. Ground rent £0.50 per annum.".

(** A guide price of 0. *)
Definition page_zero_guide : element :=
  page_of "Guide Price: £0+*"
    "Let on an Assured Shorthold tenancy at £6,000 per annum.".


(** A page answered with status 304, in the expected encoding. *)
Definition not_modified : response :=
  Response 304 (Some PAGE_ENCODING) ["n"%byte; "e"%byte; "w"%byte] (u "new").

(** The [i]-th header row of a page. *)
Definition header_of (root : element) (i : nat) : node :=
  nth i (xpath (root_node root) TABLE_ROW_XPATH) (root_node root).

(** The parser object of the [i]-th header row of a page. *)
Definition parser_of (root : element) (i : nat) : PropertyRowParser.self :=
  let tr := header_of root i in
  match PropertyRowParser.__init__ tr with
  | inr s => s
  | inl _ => PropertyRowParser.Self tr tr
  end.

(** The [i]-th row as [as_dict] builds it, and as the page yields it. *)
Definition dict_of (root : element) (i : nat) : row :=
  match PropertyRowParser.as_dict (parser_of root i) with
  | inr r => r
  | inl _ => ∅
  end.

Definition row_of (root : element) (i : nat) : row :=
  nth i (fst (rows_of_tree root)) ∅.

End Sample.


(** ** Shapes of the texts *)

(** An amount as the guide patterns take it: digits and commas, at least
    one character. *)
Definition amount (a : list N) : Prop :=
  a <> [] /\ forallb (atom_ok PropertyRowParser.digit_comma) a = true.


(** An amount as the income pattern takes it: digits, commas and periods,
    at least one character. *)
Definition income_text (a : list N) : Prop :=
  a <> [] /\ forallb (atom_ok PropertyRowParser.digit_comma_dot) a = true.

(** The line of one row: its sixteen cells in the order of [FIELDS], a
    missing key counting as the empty string, with commas between them and
    CR LF after. *)
Definition line_of (float_repr : float -> list N) (r : row) : list N :=
  Csv.join [44%N]
    (map (fun key => Csv.field (Csv.cell float_repr (default (VStr []) (r !! key))))
       FIELDS)
  ++ [13; 10]%N.

(** ** Places in a document *)

(** [inside e d]: [d] is [e] or an element somewhere below it. *)
Inductive inside : element -> element -> Prop :=
  | inside_here (e : element) : inside e e
  | inside_child (e c d : element) :
      In c (children e) -> inside c d -> inside e d.

(** The elements of a list of siblings and everything below them, in
    document order. *)
Fixpoint below_nodes (root : element) (l : list element) : list node :=
  match l with
  | [] => []
  | c :: rest => descendant_or_self root c rest ++ below_nodes root rest
  end.

(** Induction on an element with the statement at hand for its children. *)
Fixpoint element_induction (P : element -> Prop)
    (step : forall t a x cs tl, Forall P cs -> P (Element t a x cs tl))
    (e : element) : P e :=
  match e with
  | Element t a x cs tl =>
      step t a x cs tl
        ((fix all (l : list element) : Forall P l :=
            match l with
            | [] => @List.Forall_nil _ P
            | c :: r => @List.Forall_cons _ P c r (element_induction P step c) (all r)
            end) cs)
  end.

(** No carriage return and no line feed. *)
Definition no_line_break (s : list N) : Prop :=
  forallb (fun c => negb ((c =? 13) || (c =? 10))%N) s = true.

(** The [td] children of the header row, in order. *)
Definition cells (s : PropertyRowParser.self) : list element :=
  List.filter (fun e => String.eqb (tag e) "td")
    (children (elem (PropertyRowParser.header_tr s))).

(** [below e d]: [d] is somewhere below [e], [e] itself apart. *)
Definition below (e d : element) : Prop :=
  exists c, In c (children e) /\ inside c d.

(** ** Ints and floats *)

(** An int that a float holds: 53 bits, moved up by at most 971 places. *)
Definition held (n : Z) : Prop :=
  exists m t, 0 <= t <= 971 /\ 0 <= m < 2 ^ 53 /\ Z.abs n = 2 ^ t * m.

(** A float whose mantissa and exponent are within the format. *)
Definition within (f : float) : Prop :=
  match f with
  | S754_finite _ m e => Zpos (digits2_pos m) <= 53 /\ e <= 971
  | _ => True
  end.

(** ** Errors *)

(** The errors of one part of a row. *)
Definition row_error (e : exn) : Prop :=
  e = IndexError \/ e = KeyError \/ e = ValueError \/ e = OverflowError.

(** ** Numerals

    The texts that [float] reads, by the grammar of the language: an
    optional sign, then an infinity, a nan, or digits with an optional
    point and an optional exponent. *)

(** An optional sign, and whether it is a minus. *)
Inductive sign_text : list N -> bool -> Prop :=
  | no_sign : sign_text [] false
  | plus_sign : sign_text [43%N] false
  | minus_sign : sign_text [45%N] true.

(** Digits [0]..[9], any number of them. *)
Definition digit_text (ds : list N) : Prop := forallb is_digit ds = true.

(** [number_text t ds k]: [t] is digits, or digits with a point among
    them, before them or after them; [ds] are its digits and [k] of them
    stand after the point. *)
Inductive number_text : list N -> list N -> nat -> Prop :=
  | whole_number (ip : list N) :
      digit_text ip -> ip <> [] -> number_text ip ip 0
  | pointed_number (ip fp : list N) :
      digit_text ip -> digit_text fp -> ip ++ fp <> [] ->
      number_text (ip ++ 46%N :: fp) (ip ++ fp) (List.length fp).

(** [exponent_text t ex]: [t] is empty and [ex] is zero, or [t] is [e] or
    [E], an optional sign and digits that write [ex]. *)
Inductive exponent_text : list N -> Z -> Prop :=
  | no_exponent : exponent_text [] 0
  | an_exponent (c : N) (st : list N) (neg : bool) (ds : list N) :
      c = 101%N \/ c = 69%N -> sign_text st neg -> digit_text ds -> ds <> [] ->
      exponent_text (c :: st ++ ds) (cond_Zopp neg (digits_value ds)).

(** [numeral t f]: the text [t] is a numeral, and [f] is the float that
    it writes: the float nearest to the number for digits. *)
Inductive numeral : list N -> float -> Prop :=
  | numeral_infinity (st : list N) (neg : bool) (w : list N) :
      sign_text st neg -> lower w = u "inf" \/ lower w = u "infinity" ->
      numeral (st ++ w) (S754_infinity neg)
  | numeral_nan (st : list N) (neg : bool) (w : list N) :
      sign_text st neg -> lower w = u "nan" ->
      numeral (st ++ w) S754_nan
  | numeral_number (st : list N) (neg : bool) (nt ds : list N) (k : nat)
      (et : list N) (ex : Z) :
      sign_text st neg -> number_text nt ds k -> exponent_text et ex ->
      numeral (st ++ nt ++ et)
        (float_of_decimal neg (digits_value ds) (ex - Z.of_nat k)).



(** * Properties *)

(** ** Results *)

Lemma bind_Return {A B} (m : result A) (k : A -> result B) (b : B) :
  bind m k = Return b -> exists a, m = Return a /\ k a = Return b.
Proof. destruct m as [e|a]; simpl; [discriminate | eauto]. Qed.

Lemma bind_Raise {A B} (m : result A) (k : A -> result B) (e : exn) :
  m = Raise e -> bind m k = Raise e.
Proof. intros ->. reflexivity. Qed.

Lemma bind_eq {A B} (m : result A) (k : A -> result B) (a : A) :
  m = Return a -> bind m k = k a.
Proof. intros ->. reflexivity. Qed.

Lemma value_of_result {A} (m : result A) (d : A) :
  is_value m = true -> m = Return (match m with inr a => a | inl _ => d end).
Proof. destruct m; [discriminate | reflexivity]. Qed.

Lemma nth_In_lt {A} (l : list A) (i : nat) (d : A) :
  (i <? List.length l)%nat = true -> In (nth i l d) l.
Proof. intros H. apply nth_In. now apply Nat.ltb_lt. Qed.

Ltac bind_inv H :=
  let a := fresh "a" in
  let Ha := fresh "Ha" in
  apply bind_Return in H; destruct H as (a & Ha & H).

(** ** Generators *)

Lemma yield_each_In {A B} (f : A -> result B) (xs : list A) (b : B) :
  In b (fst (yield_each f xs)) -> exists x, In x xs /\ f x = Return b.
Proof.
  induction xs as [|x xs IH]; simpl; [tauto|].
  destruct (f x) as [e|b'] eqn:Hx; simpl; [tauto|].
  destruct (yield_each f xs) as [bs e]. simpl in *.
  intros [<-|Hin].
  - exists x. split; [now left | exact Hx].
  - destruct (IH Hin) as (x' & Hx' & Hf). exists x'. split; [now right | exact Hf].
Qed.

Lemma yield_each_stops {A B} (f : A -> result B) (pre post : list A) (x : A) (e : exn) :
  f x = Raise e ->
  Forall (fun a => returns (f a)) pre ->
  exists bs, yield_each f (pre ++ x :: post) = (bs, Some e)
             /\ Forall2 (fun a b => f a = Return b) pre bs.
Proof.
  intros Hx Hpre. induction Hpre as [|a pre [b Hb] _ IH]; simpl.
  - rewrite Hx. exists []. split; [reflexivity | constructor].
  - rewrite Hb. unfold Return. destruct IH as (bs & -> & HF).
    exists (b :: bs). split; [reflexivity | constructor; assumption].
Qed.

(** ** Arithmetic of the calculations *)

Lemma rate_10_not_zero : is_zero rate_10 = false.
Proof. vm_compute. reflexivity. Qed.
Lemma rate_12_5_not_zero : is_zero rate_12_5 = false.
Proof. vm_compute. reflexivity. Qed.
Lemma rate_15_not_zero : is_zero rate_15 = false.
Proof. vm_compute. reflexivity. Qed.
Lemma rate_20_not_zero : is_zero rate_20 = false.
Proof. vm_compute. reflexivity. Qed.

(** The literals are the floats nearest to the decimals written. *)
Lemma rate_values :
  rate_10 = S754_finite false 7205759403792794 (-56)
  /\ rate_12_5 = S754_finite false 4503599627370496 (-55)
  /\ rate_15 = S754_finite false 5404319552844595 (-55)
  /\ rate_20 = S754_finite false 7205759403792794 (-55).
Proof. vm_compute. repeat split. Qed.

Lemma float_of_int_100 : float_of_int 100 = Return hundred.
Proof. vm_compute. reflexivity. Qed.

(** [n / f] for an int [n] and a float [f] that is not zero *)
Lemma truediv_int_float (n : Z) (f fn : float) :
  float_of_int n = Return fn -> is_zero f = false ->
  truediv (VInt n) (VFloat f) = Return (VFloat (SFdiv prec emax fn f)).
Proof.
  intros Hn Hf. unfold truediv. simpl. rewrite Hn. simpl.
  unfold float_truediv. rewrite Hf. reflexivity.
Qed.

Lemma truediv_int_float_raises (n : Z) (f : float) (e : exn) :
  float_of_int n = Raise e -> truediv (VInt n) (VFloat f) = Raise e.
Proof. intros Hn. unfold truediv. simpl. rewrite Hn. reflexivity. Qed.

Lemma truediv_int_int (a b : Z) :
  truediv (VInt a) (VInt b) = bind (int_truediv a b) (fun f => Return (VFloat f)).
Proof. reflexivity. Qed.

Lemma truediv_float_100 (q : float) :
  truediv (VFloat q) (VInt 100) = Return (VFloat (SFdiv prec emax q hundred)).
Proof. reflexivity. Qed.

Lemma truthy_int (n : Z) : truthy (VInt n) = negb (n =? 0).
Proof. reflexivity. Qed.

(** What the step does on a row whose income is a non-zero int. *)
Lemma add_calculations_income (r : row) (n : Z) (fn : float) (gv : value) :
  r !! "ast_annual_income" = Some (VInt n) -> n <> 0 ->
  float_of_int n = Return fn ->
  r !! "guide_price_high" = Some gv ->
  add_calculations r =
    if truthy gv then
      bind (truediv gv (VInt n)) (fun q =>
      bind (truediv q (VInt 100)) (fun y =>
      Return (<["_yield_guide_price_high" := y]> (with_prices fn r))))
    else Return (with_prices fn r).
Proof.
  intros Hi Hn Hfn Hg. unfold add_calculations, getitem.
  rewrite Hi, Hg. simpl bind at 1.
  apply Z.eqb_neq in Hn. rewrite Hn. simpl negb. cbv iota.
  rewrite (truediv_int_float n rate_10 fn Hfn rate_10_not_zero).
  rewrite (truediv_int_float n rate_12_5 fn Hfn rate_12_5_not_zero).
  rewrite (truediv_int_float n rate_15 fn Hfn rate_15_not_zero).
  rewrite (truediv_int_float n rate_20 fn Hfn rate_20_not_zero).
  reflexivity.
Qed.

(** On a row whose income is falsy the step changes nothing. *)
Lemma add_calculations_falsy (r : row) (iv gv : value) :
  r !! "ast_annual_income" = Some iv -> truthy iv = false ->
  r !! "guide_price_high" = Some gv ->
  add_calculations r = Return r.
Proof.
  intros Hi Ht Hg. unfold add_calculations, getitem. rewrite Hi, Hg. simpl.
  rewrite Ht. reflexivity.
Qed.

Lemma add_calculations_overflow (r : row) (n : Z) (e : exn) (gv : value) :
  r !! "ast_annual_income" = Some (VInt n) -> n <> 0 ->
  float_of_int n = Raise e ->
  r !! "guide_price_high" = Some gv ->
  add_calculations r = Raise e.
Proof.
  intros Hi Hn Hfn Hg. unfold add_calculations, getitem.
  rewrite Hi, Hg. simpl bind at 1.
  apply Z.eqb_neq in Hn. rewrite Hn. simpl negb. cbv iota.
  rewrite (truediv_int_float_raises n rate_10 e Hfn). reflexivity.
Qed.

(** ** Rows as the parser builds them *)

Import PropertyRowParser.

Lemma as_dict_inv (s : self) (r : row) :
  as_dict s = Return r ->
  exists lot street post st desc durl purl low high flag income,
    lot_number s = Return lot /\ street_address s = Return street
    /\ postcode s = Return post /\ status s = Return st
    /\ description s = Return desc /\ detail_url s = Return durl
    /\ photo_url s = Return purl /\ guide_price_low s = Return low
    /\ guide_price_high s = Return high
    /\ has_assured_shorthold_tenancy s = Return flag
    /\ ast_annual_income s = Return income
    /\ r = list_to_map
        [ ("lot_number", VStr lot);
          ("street_address", VStr street);
          ("postcode", VStr post);
          ("status", VStr st);
          ("description", VStr desc);
          ("detail_url", VStr durl);
          ("photo_url", VStr purl);
          ("guide_price_low", int_or_none low);
          ("guide_price_high", int_or_none high);
          ("has_assured_shorthold_tenancy", VBool flag);
          ("ast_annual_income", int_or_none income) ]%string.
Proof.
  unfold as_dict. intros H.
  do 11 (let a := fresh "a" in let Ha := fresh "Ha" in
         apply bind_Return in H; destruct H as (a & Ha & H)).
  injection H as <-.
  repeat eexists; eassumption.
Qed.

(** The keys that [as_dict] sets, and those it leaves out. *)
Lemma as_dict_lookup (s : self) (r : row) :
  as_dict s = Return r ->
  exists flag income high,
    has_assured_shorthold_tenancy s = Return flag
    /\ ast_annual_income s = Return income
    /\ guide_price_high s = Return high
    /\ r !! "has_assured_shorthold_tenancy" = Some (VBool flag)
    /\ r !! "ast_annual_income" = Some (int_or_none income)
    /\ r !! "guide_price_high" = Some (int_or_none high)
    /\ r !! "_price_10pct_yield" = None
    /\ r !! "_price_12.5pct_yield" = None
    /\ r !! "_price_15pct_yield" = None
    /\ r !! "_price_20pct_yield" = None
    /\ r !! "_yield_guide_price_high" = None.
Proof.
  intros H. apply as_dict_inv in H.
  destruct H as (lot & street & post & st & desc & durl & purl & low & high
                 & flag & income & _ & _ & _ & _ & _ & _ & _ & _ & Hh & Hf & Hi & ->).
  exists flag, income, high. repeat split; try assumption; reflexivity.
Qed.

Lemma income_needs_tenancy (s : self) (income : option Z) :
  has_assured_shorthold_tenancy s = Return false ->
  ast_annual_income s = Return income -> income = None.
Proof.
  unfold ast_annual_income. intros ->. simpl. now intros [= <-].
Qed.

Lemma with_prices_lookup (fn : float) (r : row) :
  with_prices fn r !! "_price_10pct_yield" = Some (VFloat (SFdiv prec emax fn rate_10))
  /\ with_prices fn r !! "_price_12.5pct_yield" = Some (VFloat (SFdiv prec emax fn rate_12_5))
  /\ with_prices fn r !! "_price_15pct_yield" = Some (VFloat (SFdiv prec emax fn rate_15))
  /\ with_prices fn r !! "_price_20pct_yield" = Some (VFloat (SFdiv prec emax fn rate_20)).
Proof. unfold with_prices. repeat split; by simplify_map_eq. Qed.

Lemma with_prices_other (fn : float) (r : row) (k : string) :
  k <> "_price_10pct_yield"%string -> k <> "_price_12.5pct_yield"%string ->
  k <> "_price_15pct_yield"%string -> k <> "_price_20pct_yield"%string ->
  with_prices fn r !! k = r !! k.
Proof. intros. unfold with_prices. by simplify_map_eq. Qed.

(** ** Fetching *)

Lemma raise_for_status_error (r : response) :
  400 <= status_code r < 600 -> raise_for_status r = Raise HTTPError.
Proof.
  intros [H1 H2]. unfold Requests.raise_for_status.
  apply Z.leb_le in H1. apply Z.ltb_lt in H2. rewrite H1, H2. reflexivity.
Qed.

Lemma raise_for_status_pass (r : response) :
  ~ (400 <= status_code r < 600) -> raise_for_status r = Return tt.
Proof.
  intros H. unfold Requests.raise_for_status.
  destruct (400 <=? status_code r) eqn:H1; [|reflexivity].
  destruct (status_code r <? 600) eqn:H2; [|reflexivity].
  apply Z.leb_le in H1. apply Z.ltb_lt in H2. lia.
Qed.

(** ** The CSV output *)

(** The step only writes the five derived fields. *)
Lemma add_calculations_frame (r r' : row) (k : string) :
  add_calculations r = Return r' ->
  k <> "_price_10pct_yield"%string -> k <> "_price_12.5pct_yield"%string ->
  k <> "_price_15pct_yield"%string -> k <> "_price_20pct_yield"%string ->
  k <> "_yield_guide_price_high"%string ->
  r' !! k = r !! k.
Proof.
  unfold add_calculations. intros H K1 K2 K3 K4 K5.
  bind_inv H. bind_inv H.
  destruct (truthy a); [|by injection H as <-].
  do 4 bind_inv H.
  destruct (truthy a0).
  - do 2 bind_inv H. injection H as <-. by rewrite !lookup_insert_ne.
  - injection H as <-. by rewrite !lookup_insert_ne.
Qed.

Lemma as_dict_keys (s : self) (r : row) (k : string) :
  as_dict s = Return r -> is_Some (r !! k) ->
  k ∈ ["lot_number"; "street_address"; "postcode"; "status"; "description";
       "detail_url"; "photo_url"; "guide_price_low"; "guide_price_high";
       "has_assured_shorthold_tenancy"; "ast_annual_income"]%string.
Proof.
  intros H Hk. apply as_dict_inv in H.
  destruct H as (lot & street & post & st & desc & durl & purl & low & high
                 & flag & income & _ & _ & _ & _ & _ & _ & _ & _ & _ & _ & _ & ->).
  destruct Hk as [v Hv].
  apply elem_of_list_to_map_2 in Hv.
  apply (list_elem_of_fmap_2 fst) in Hv. exact Hv.
Qed.

Lemma derived_fields_in_FIELDS :
  ["_price_10pct_yield"; "_price_12.5pct_yield"; "_price_15pct_yield";
   "_price_20pct_yield"; "_yield_guide_price_high"]%string ⊆ FIELDS.
Proof.
  intros k Hk. apply list_elem_of_In in Hk. apply list_elem_of_In.
  simpl in Hk.
  repeat (destruct Hk as [<- | Hk];
          [simpl; repeat (first [left; reflexivity | right])|]).
  contradiction.
Qed.

Lemma parsed_fields_in_FIELDS :
  ["lot_number"; "street_address"; "postcode"; "status"; "description";
   "detail_url"; "photo_url"; "guide_price_low"; "guide_price_high";
   "has_assured_shorthold_tenancy"; "ast_annual_income"]%string ⊆ FIELDS.
Proof.
  intros k Hk. apply list_elem_of_In in Hk. apply list_elem_of_In.
  simpl in Hk.
  repeat (destruct Hk as [<- | Hk];
          [simpl; repeat (first [left; reflexivity | right])|]).
  contradiction.
Qed.

(** Every row that a page yields has its keys among [FIELDS]. *)
Lemma rows_keys (root : element) (r : row) :
  In r (fst (rows_of_tree root)) -> dom r ⊆@{gset string} list_to_set FIELDS.
Proof.
  intros Hin. unfold rows_of_tree in Hin.
  apply yield_each_In in Hin. destruct Hin as (tr & _ & Hrow).
  unfold row_of_header in Hrow. bind_inv Hrow. bind_inv Hrow.
  intros k Hk. apply elem_of_dom in Hk. apply elem_of_list_to_set.
  destruct (decide (k ∈ ["_price_10pct_yield"; "_price_12.5pct_yield";
                         "_price_15pct_yield"; "_price_20pct_yield";
                         "_yield_guide_price_high"]%string)) as [Hin|Hout].
  - exact (derived_fields_in_FIELDS k Hin).
  - rewrite (add_calculations_frame a0 r k Hrow) in Hk.
    + exact (parsed_fields_in_FIELDS k (as_dict_keys a a0 k Ha0 Hk)).
    + intros ->. apply Hout. repeat constructor.
    + intros ->. apply Hout. repeat constructor.
    + intros ->. apply Hout. repeat constructor.
    + intros ->. apply Hout. repeat constructor.
    + intros ->. apply Hout. repeat constructor.
Qed.

Lemma record_of_many (cells : list (list N)) :
  (2 <= List.length cells)%nat ->
  Csv.record cells = Csv.join [44%N] (map Csv.field cells) ++ [13; 10]%N.
Proof.
  destruct cells as [|a [|b rest]]; simpl; try lia. intros _.
  unfold Csv.record. simpl.
  destruct (Csv.field a); reflexivity.
Qed.

Lemma writerow_line (float_repr : float -> list N) (r : row) :
  dom r ⊆@{gset string} list_to_set FIELDS ->
  Csv.writerow float_repr FIELDS r = Return (line_of float_repr r).
Proof.
  intros Hdom. unfold Csv.writerow, Csv._dict_to_list.
  rewrite bool_decide_eq_true_2 by exact Hdom.
  cbv beta iota delta [bind Return].
  rewrite record_of_many by (rewrite !length_map; simpl; lia).
  unfold line_of. rewrite !map_map. reflexivity.
Qed.

Lemma write_rows_lines (float_repr : float -> list N) (rows : list row) :
  Forall (fun r : row => dom r ⊆@{gset string} list_to_set FIELDS) rows ->
  write_rows float_repr rows = (concat (map (line_of float_repr) rows), None).
Proof.
  induction 1 as [|r rows Hr _ IH]; simpl; [reflexivity|].
  rewrite (writerow_line float_repr r Hr), IH. reflexivity.
Qed.

(** ** Matching *)

Lemma strip_prefix_spec (p s r : list N) :
  strip_prefix p s = Some r <-> s = p ++ r.
Proof.
  revert s. induction p as [|a p IH]; intros s; simpl.
  - split; [now intros [= ->] | now intros ->].
  - destruct s as [|b s]; [split; discriminate|].
    destruct (N.eqb_spec a b) as [->|Hne].
    + rewrite IH. split; [now intros -> | now intros [= ->]].
    + split; [discriminate | intros [= -> _]; contradiction].
Qed.

Lemma plus_some {R} (a : atom) (s : list N) (k : list N -> option R) (r : R) :
  plus a s k = Some r ->
  exists pre s', s = pre ++ s' /\ pre <> [] /\ forallb (atom_ok a) pre = true
                 /\ k s' = Some r.
Proof.
  revert r. induction s as [|c s IH]; simpl; [discriminate|]. intros r.
  destruct (atom_ok a c) eqn:Hc; [|discriminate].
  destruct (plus a s k) as [r'|] eqn:Hp.
  - intros [= <-]. destruct (IH r' eq_refl) as (pre & s' & -> & _ & Hall & Hk).
    exists (c :: pre), s'. simpl. rewrite Hc, Hall. repeat split; [discriminate | exact Hk].
  - intros Hk. exists [c], s. simpl. rewrite Hc. repeat split; [discriminate | exact Hk].
Qed.

Lemma plus_none {R} (a : atom) (s : list N) (k : list N -> option R) :
  plus a s k = None <->
  forall pre s', s = pre ++ s' -> pre <> [] -> forallb (atom_ok a) pre = true ->
                 k s' = None.
Proof.
  induction s as [|c s IH]; simpl.
  - split; [|reflexivity]. intros _ pre s' Hs Hpre.
    destruct pre; [contradiction | discriminate].
  - destruct (atom_ok a c) eqn:Hc.
    + destruct (plus a s k) as [r|] eqn:Hp.
      * split; [discriminate|]. intros H. exfalso.
        destruct (plus_some a s k r Hp) as (pre & s' & -> & _ & Hall & Hk).
        rewrite (H (c :: pre) s') in Hk; [discriminate | reflexivity | discriminate |].
        simpl. now rewrite Hc, Hall.
      * split.
        -- intros Hk pre s' Hs Hpre Hall.
           destruct pre as [|c' pre]; [contradiction|]. injection Hs as <- ->.
           simpl in Hall. apply andb_true_iff in Hall as [_ Hall].
           destruct pre as [|c'' pre]; [exact Hk|].
           apply (proj1 IH eq_refl (c'' :: pre) s' eq_refl); [discriminate | exact Hall].
        -- intros H. apply (H [c] s eq_refl); [discriminate|]. simpl. now rewrite Hc.
    + split; [|reflexivity]. intros _ pre s' Hs Hpre Hall.
      destruct pre as [|c' pre]; [contradiction|]. injection Hs as <- ->.
      simpl in Hall. rewrite Hc in Hall. discriminate.
Qed.

Lemma plus_greedy {R} (a : atom) (pre s' : list N) (k : list N -> option R) (r : R) :
  pre <> [] -> forallb (atom_ok a) pre = true ->
  (forall p2 s2, s' = p2 ++ s2 -> p2 <> [] -> forallb (atom_ok a) p2 = true ->
                 k s2 = None) ->
  k s' = Some r ->
  plus a (pre ++ s') k = Some r.
Proof.
  intros Hpre Hall Hlonger Hk.
  induction pre as [|c pre IH]; [contradiction|].
  simpl in *. apply andb_true_iff in Hall as [Hc Hall]. rewrite Hc.
  destruct pre as [|c' pre].
  - simpl. rewrite (proj2 (plus_none a s' k) Hlonger). exact Hk.
  - rewrite IH; [reflexivity | discriminate | exact Hall].
Qed.

Lemma guide_plus_eq (st : list N) :
  re_match GUIDE_PLUS st =
  match strip_prefix (u "Guide Price: £") st with
  | Some s1 =>
      plus digit_comma s1 (fun s2 =>
        match strip_prefix (u "+") s2 with
        | Some s3 =>
            match strip_prefix (u "*") s3 with
            | Some s4 =>
                match s4 with
                | [] | [10%N] => Some [("price"%string, take (List.length s1 - List.length s2) s1)]
                | _ => None
                end
            | None => None
            end
        | None => None
        end)
  | None => None
  end.
Proof. reflexivity. Qed.

Lemma u_pound : u "£" = [163%N]. Proof. vm_compute. reflexivity. Qed.
Lemma u_plus : u "+" = [43%N]. Proof. vm_compute. reflexivity. Qed.
Lemma u_star : u "*" = [42%N]. Proof. vm_compute. reflexivity. Qed.

Lemma strip_prefix_app (p r : list N) : strip_prefix p (p ++ r) = Some r.
Proof. now apply strip_prefix_spec. Qed.

Lemma taken_back (p r : list N) :
  take (List.length (p ++ r) - List.length r) (p ++ r) = p.
Proof.
  rewrite length_app, Nat.add_sub. apply take_app_length.
Qed.

Lemma guide_range_eq (st : list N) :
  re_match GUIDE_RANGE st =
  match strip_prefix (u "Guide Price: £") st with
  | Some s1 =>
      plus digit_comma s1 (fun s2 =>
      plus Dot s2 (fun s3 =>
        match strip_prefix (u "£") s3 with
        | Some s4 =>
            plus digit_comma s4 (fun s5 =>
              match strip_prefix (u "*") s5 with
              | Some s6 =>
                  match s6 with
                  | [] | [10%N] =>
                      Some [("high"%string, take (List.length s4 - List.length s5) s4);
                            ("low"%string, take (List.length s1 - List.length s2) s1)]
                  | _ => None
                  end
              | None => None
              end)
        | None => None
        end))
  | None => None
  end.
Proof. reflexivity. Qed.

Lemma per_annum_eq (s : list N) :
  re_match PER_ANNUM s =
  match strip_prefix (u "£") s with
  | Some s1 =>
      plus digit_comma_dot s1 (fun s2 =>
        match strip_prefix (u " per annum") s2 with
        | Some s3 => Some [("income"%string, take (List.length s1 - List.length s2) s1)]
        | None => None
        end)
  | None => None
  end.
Proof. reflexivity. Qed.


Lemma eos_inv {A} (s : list N) (x m : A) :
  match s with
  | [] | [10%N] => Some x
  | _ => None
  end = Some m ->
  (s = [] \/ s = [10%N]) /\ m = x.
Proof.
  destruct s as [|c t]; [intros [= <-]; auto|].
  destruct c as [|p]; [discriminate|].
  do 4 (destruct p as [p|p|]; try discriminate).
  destruct t; [intros [= <-]; auto | discriminate].
Qed.

(** What a match of the range pattern says about the status. *)
Lemma guide_range_sound (st : list N) (m : groups) :
  re_match GUIDE_RANGE st = Some m ->
  exists low mid high tail,
    st = u "Guide Price: £" ++ low ++ mid ++ [163%N] ++ high ++ [42%N] ++ tail
    /\ amount low /\ mid <> [] /\ forallb (atom_ok Dot) mid = true /\ amount high
    /\ (tail = [] \/ tail = [10%N])
    /\ m = [("high"%string, high); ("low"%string, low)].
Proof.
  rewrite guide_range_eq.
  destruct (strip_prefix (u "Guide Price: £") st) as [s1|] eqn:H1; [|discriminate].
  apply strip_prefix_spec in H1. subst st. intros H.
  apply plus_some in H. destruct H as (low & s2 & -> & Hlow & Alow & H).
  apply plus_some in H. destruct H as (mid & s3 & -> & Hmid & Amid & H).
  destruct (strip_prefix (u "£") s3) as [s4|] eqn:H4; [|discriminate].
  apply strip_prefix_spec in H4. subst s3.
  apply plus_some in H. destruct H as (high & s5 & -> & Hhigh & Ahigh & H).
  destruct (strip_prefix (u "*") s5) as [s6|] eqn:H6; [|discriminate].
  apply strip_prefix_spec in H6. subst s5.
  rewrite u_pound, u_star in *.
  exists low, mid, high, s6.
  rewrite (taken_back high ([42%N] ++ s6)) in H.
  rewrite (taken_back low (mid ++ [163%N] ++ high ++ [42%N] ++ s6)) in H.
  apply eos_inv in H. destruct H as [Htail ->].
  repeat split; assumption.
Qed.







(** What a match of the annual income pattern says, at the place of the
    match. *)
Lemma per_annum_match (s : list N) (m : groups) :
  re_match PER_ANNUM s = Some m <->
  exists a post, s = [163%N] ++ a ++ u " per annum" ++ post
                 /\ income_text a /\ m = [("income"%string, a)].
Proof.
  rewrite per_annum_eq, u_pound. split.
  - destruct (strip_prefix [163%N] s) as [s1|] eqn:H1; [|discriminate].
    apply strip_prefix_spec in H1. subst s. intros H.
    apply plus_some in H. destruct H as (a & s2 & -> & Na & Aa & H).
    destruct (strip_prefix (u " per annum") s2) as [s3|] eqn:H3; [|discriminate].
    apply strip_prefix_spec in H3. subst s2.
    rewrite (taken_back a (u " per annum" ++ s3)) in H. injection H as <-.
    exists a, s3. repeat split; assumption.
  - intros (a & post & -> & [Na Aa] & ->).
    rewrite (strip_prefix_app [163%N]).
    apply plus_greedy; [exact Na | exact Aa | |].
    + intros p2 s2 Hs Hp2 Hall2. exfalso.
      destruct p2 as [|c2 p2]; [contradiction|].
      change (u " per annum") with (32%N :: List.tl (u " per annum")) in Hs.
      injection Hs as <- _. discriminate.
    + cbv beta. rewrite (taken_back a (u " per annum" ++ post)), strip_prefix_app.
      reflexivity.
Qed.

Lemma re_search_some (r : regex) (s : list N) (m : groups) :
  re_search r s = Some m ->
  exists pre s', s = pre ++ s' /\ re_match r s' = Some m
    /\ forall pre1 s1, s = pre1 ++ s1 -> (List.length pre1 < List.length pre)%nat ->
                       re_match r s1 = None.
Proof.
  induction s as [|c s IH]; simpl.
  - destruct (re_match r []) as [m'|] eqn:Hm; [|discriminate].
    intros [= <-]. exists [], []. repeat split; [exact Hm|]. simpl. lia.
  - destruct (re_match r (c :: s)) as [m'|] eqn:Hm.
    + intros [= <-]. exists [], (c :: s). repeat split; [exact Hm|]. simpl. lia.
    + intros H. destruct (IH H) as (pre & s' & -> & Hs' & Hleft).
      exists (c :: pre), s'. repeat split; [exact Hs'|].
      intros pre1 s1 Heq Hlen. destruct pre1 as [|c1 pre1].
      * simpl in Heq. subst s1. exact Hm.
      * injection Heq as <- Heq. apply (Hleft pre1 s1 Heq). simpl in Hlen. lia.
Qed.

Lemma re_search_none (r : regex) (s : list N) :
  re_search r s = None <-> forall pre s', s = pre ++ s' -> re_match r s' = None.
Proof.
  induction s as [|c s IH]; simpl.
  - destruct (re_match r []) as [m'|] eqn:Hm.
    + split; [discriminate|]. intros H. rewrite (H [] [] eq_refl) in Hm. discriminate.
    + split; [|reflexivity]. intros _ pre s' Heq.
      destruct pre; [|discriminate]. simpl in Heq. now subst s'.
  - destruct (re_match r (c :: s)) as [m'|] eqn:Hm.
    + split; [discriminate|]. intros H. rewrite (H [] (c :: s) eq_refl) in Hm. discriminate.
    + rewrite IH. split.
      * intros H pre s' Heq. destruct pre as [|c1 pre].
        -- simpl in Heq. now subst s'.
        -- injection Heq as <- Heq. now apply (H pre).
      * intros H pre s' Heq. apply (H (c :: pre)). simpl. now rewrite Heq.
Qed.

Lemma contains_spec (s needle : list N) :
  contains s needle = true <-> exists pre post, s = pre ++ needle ++ post.
Proof.
  induction s as [|c s IH]; simpl.
  - destruct (strip_prefix needle []) as [r|] eqn:Hp.
    + apply strip_prefix_spec in Hp. split; [|reflexivity]. intros _.
      exists [], r. exact Hp.
    + split; [discriminate|]. intros (pre & post & Heq).
      destruct pre; [|discriminate]. simpl in Heq.
      apply strip_prefix_spec in Heq. rewrite Heq in Hp. discriminate.
  - destruct (strip_prefix needle (c :: s)) as [r|] eqn:Hp.
    + apply strip_prefix_spec in Hp. split; [|reflexivity]. intros _.
      exists [], r. exact Hp.
    + rewrite IH. split.
      * intros (pre & post & ->). exists (c :: pre), post. reflexivity.
      * intros (pre & post & Heq). destruct pre as [|c1 pre].
        -- simpl in Heq. apply strip_prefix_spec in Heq. rewrite Heq in Hp. discriminate.
        -- injection Heq as _ ->. exists pre, post. reflexivity.
Qed.

(** ** Prices *)

Lemma is_digit_range (c : N) : is_digit c = true <-> (48 <= c <= 57)%N.
Proof.
  unfold is_digit. rewrite andb_true_iff, !N.leb_le. tauto.
Qed.








Lemma forallb_rev {A} (f : A -> bool) (l : list A) :
  forallb f (rev l) = forallb f l.
Proof.
  induction l as [|a l IH]; [reflexivity|]. simpl.
  rewrite forallb_app, IH. simpl. rewrite andb_true_r. apply andb_comm.
Qed.








Lemma u_inf : u "inf" = [105; 110; 102]%N. Proof. vm_compute. reflexivity. Qed.
Lemma u_infinity : u "infinity" = [105; 110; 102; 105; 110; 105; 116; 121]%N.
Proof. vm_compute. reflexivity. Qed.
Lemma u_nan : u "nan" = [110; 97; 110]%N. Proof. vm_compute. reflexivity. Qed.


Lemma digits2_pos_bounds (p : positive) :
  2 ^ (Zpos (digits2_pos p) - 1) <= Zpos p < 2 ^ Zpos (digits2_pos p).
Proof.
  induction p as [p IH|p IH|]; simpl digits2_pos.
  - rewrite Pos2Z.inj_succ.
    replace (Z.succ (Z.pos (digits2_pos p)) - 1) with (Z.succ (Z.pos (digits2_pos p) - 1)) by lia.
    rewrite !Z.pow_succ_r by lia. lia.
  - rewrite Pos2Z.inj_succ.
    replace (Z.succ (Z.pos (digits2_pos p)) - 1) with (Z.succ (Z.pos (digits2_pos p) - 1)) by lia.
    rewrite !Z.pow_succ_r by lia. lia.
  - simpl. lia.
Qed.


Lemma digits2_pos_iter_xO (p k : positive) :
  digits2_pos (Pos.iter xO p k) = (digits2_pos p + k)%positive.
Proof.
  induction k as [|k IH] using Pos.peano_ind.
  - simpl. lia.
  - rewrite Pos.iter_succ. simpl. rewrite IH. lia.
Qed.

Lemma iter_xO_pow2 (p k : positive) :
  Zpos (Pos.iter xO p k) = Zpos p * 2 ^ Zpos k.
Proof.
  induction k as [|k IH] using Pos.peano_ind.
  - simpl. lia.
  - rewrite Pos.iter_succ, Pos2Z.inj_xO, IH, Pos2Z.inj_succ, Z.pow_succ_r by lia. lia.
Qed.


















(** ** The guide price *)

(** What a match of the plus pattern says about the status. *)
Lemma guide_plus_sound (st : list N) (m : groups) :
  re_match GUIDE_PLUS st = Some m ->
  exists p tail,
    st = u "Guide Price: £" ++ p ++ [43; 42]%N ++ tail
    /\ amount p /\ (tail = [] \/ tail = [10%N])
    /\ m = [("price"%string, p)].
Proof.
  rewrite guide_plus_eq.
  destruct (strip_prefix (u "Guide Price: £") st) as [s1|] eqn:H1; [|discriminate].
  apply strip_prefix_spec in H1. subst st. intros H.
  apply plus_some in H. destruct H as (p & s2 & -> & Np & Ap & H).
  destruct (strip_prefix (u "+") s2) as [s3|] eqn:H3; [|discriminate].
  apply strip_prefix_spec in H3. subst s2.
  destruct (strip_prefix (u "*") s3) as [s4|] eqn:H4; [|discriminate].
  apply strip_prefix_spec in H4. subst s3.
  rewrite u_plus, u_star in *.
  rewrite (taken_back p ([43%N] ++ [42%N] ++ s4)) in H.
  apply eos_inv in H. destruct H as [Htail ->].
  exists p, s4. repeat split; assumption.
Qed.

Lemma lstrip_head (s : list N) (c : N) (y : list N) :
  lstrip s = c :: y -> is_space c = false.
Proof.
  induction s as [|d s IH]; [discriminate|]. cbn [lstrip].
  destruct (is_space d) eqn:Hd; [exact IH|]. now intros [= <- _].
Qed.

(** Stripped text does not end in white space. *)
Lemma strip_last (s y : list N) (c : N) :
  strip s = y ++ [c] -> is_space c = false.
Proof.
  unfold strip, rstrip. intros H.
  apply (f_equal (@rev N)) in H. rewrite rev_involutive, rev_app_distr in H.
  exact (lstrip_head _ _ _ H).
Qed.



Lemma parse_of_status (s : self) (st : list N) :
  status s = Return st ->
  _parse_guide_price_range s =
    match re_match GUIDE_RANGE st with
    | Some m =>
        bind (price (group m "low")) (fun low =>
        bind (price (group m "high")) (fun high =>
        Return (Some low, Some high)))
    | None =>
        match re_match GUIDE_PLUS st with
        | Some m =>
            bind (price (group m "price")) (fun p => Return (Some p, Some p))
        | None => Return (None, None)
        end
    end.
Proof. intros H. unfold _parse_guide_price_range. rewrite H. reflexivity. Qed.

(** ** The tenancy flag and the income *)

Lemma per_annum_search_found (d pre a post : list N) :
  d = pre ++ [163%N] ++ a ++ u " per annum" ++ post ->
  income_text a ->
  (forall pre1 a1 post1,
     d = pre1 ++ [163%N] ++ a1 ++ u " per annum" ++ post1 -> income_text a1 ->
     (List.length pre <= List.length pre1)%nat) ->
  re_search PER_ANNUM d = Some [("income"%string, a)].
Proof.
  intros Hd Ha Hfirst.
  assert (Hhere : re_match PER_ANNUM ([163%N] ++ a ++ u " per annum" ++ post)
                  = Some [("income"%string, a)]).
  { apply per_annum_match. exists a, post. repeat split; apply Ha. }
  destruct (re_search PER_ANNUM d) as [m|] eqn:Hs.
  - apply re_search_some in Hs. destruct Hs as (pre' & s' & Hd' & Hm & Hleft).
    pose proof Hm as Hm'. apply per_annum_match in Hm'.
    destruct Hm' as (a' & post' & Hs' & Ha' & _).
    assert (Hle : (List.length pre <= List.length pre')%nat).
    { apply (Hfirst pre' a' post'); [now rewrite Hd', Hs' | exact Ha']. }
    assert (Hge : ~ (List.length pre < List.length pre')%nat).
    { intros Hlt. rewrite (Hleft pre _ Hd Hlt) in Hhere. discriminate. }
    assert (Hlen : List.length pre = List.length pre') by lia.
    rewrite Hd in Hd'. apply app_inj_1 in Hd'; [|exact Hlen].
    destruct Hd' as [_ <-]. rewrite Hhere in Hm. now injection Hm as <-.
  - exfalso. rewrite re_search_none in Hs. rewrite (Hs pre _ Hd) in Hhere. discriminate.
Qed.

Lemma per_annum_search_none (d : list N) :
  re_search PER_ANNUM d = None <->
  ~ exists pre a post,
      d = pre ++ [163%N] ++ a ++ u " per annum" ++ post /\ income_text a.
Proof.
  rewrite re_search_none. split.
  - intros H (pre & a & post & Hd & Ha).
    assert (Hm : re_match PER_ANNUM ([163%N] ++ a ++ u " per annum" ++ post)
                 = Some [("income"%string, a)]).
    { apply per_annum_match. exists a, post. repeat split; apply Ha. }
    rewrite (H pre _ Hd) in Hm. discriminate.
  - intros H pre s' Hd. destruct (re_match PER_ANNUM s') as [m|] eqn:Hm; [|reflexivity].
    exfalso. apply H. apply per_annum_match in Hm.
    destruct Hm as (a & post & -> & Ha & _). exists pre, a, post. split; assumption.
Qed.

(** * The claims *)




(** C2, as amended: for every row whose [ast_annual_income] is an int other
    than zero (and within the range of a float), the calculation step
    returns, unless the yield ratio overflows, and in the row it returns
    each of the four price fields is the float quotient of the income by
    its rate literal (0.10, 0.125, 0.15, 0.20); when moreover
    [guide_price_high] is an int other than zero, [_yield_guide_price_high]
    is the quotient [guide_price_high / ast_annual_income] divided by 100. *)
Theorem yield_fields_of_nonzero_income
    (r : row) (n : Z) (fn : float) (gv : value) :
  r !! "ast_annual_income" = Some (VInt n) -> n <> 0 ->
  float_of_int n = Return fn ->
  r !! "guide_price_high" = Some gv ->
  ((gv = VNone \/ exists g, gv = VInt g /\ (g = 0 \/ returns (int_truediv g n))) ->
   returns (add_calculations r))
  /\ forall r' : row, add_calculations r = Return r' ->
       r' !! "_price_10pct_yield" = Some (VFloat (SFdiv prec emax fn rate_10))
       /\ r' !! "_price_12.5pct_yield" = Some (VFloat (SFdiv prec emax fn rate_12_5))
       /\ r' !! "_price_15pct_yield" = Some (VFloat (SFdiv prec emax fn rate_15))
       /\ r' !! "_price_20pct_yield" = Some (VFloat (SFdiv prec emax fn rate_20))
       /\ forall g, gv = VInt g -> g <> 0 ->
            exists q, int_truediv g n = Return q
              /\ r' !! "_yield_guide_price_high"
                 = Some (VFloat (SFdiv prec emax q hundred)).
Proof.
  intros Hi Hn Hfn Hg.
  rewrite (add_calculations_income r n fn gv Hi Hn Hfn Hg).
  destruct (with_prices_lookup fn r) as (P10 & P12 & P15 & P20).
  split.
  - intros [-> | (g & -> & [-> | [q Hq]])]; simpl; try (eexists; reflexivity).
    destruct (g =? 0); simpl; [eexists; reflexivity|].
    rewrite truediv_int_int, Hq. simpl. eexists; reflexivity.
  - intros r' Hr'. destruct (truthy gv) eqn:Ht.
    + bind_inv Hr'. bind_inv Hr'. injection Hr' as <-.
      rewrite !lookup_insert_ne by done.
      repeat (split; [assumption|]).
      intros g -> Hg0. rewrite truediv_int_int in Ha.
      bind_inv Ha. injection Ha as <-.
      rewrite truediv_float_100 in Ha0. injection Ha0 as <-.
      exists a1. split; [assumption|]. by rewrite lookup_insert_eq.
    + injection Hr' as <-. repeat (split; [assumption|]).
      intros g -> Hg0. simpl in Ht. apply Z.eqb_neq in Hg0.
      rewrite Hg0 in Ht. discriminate.
Qed.

Lemma yield_fields_of_nonzero_income_witness :
  exists r' : row,
    add_calculations (Sample.dict_of Sample.page 0) = Return r'
    /\ r' !! "_price_10pct_yield" = Some (VFloat (S754_finite false 5291399708672000 (-35)))
    /\ r' !! "_price_15pct_yield" = Some (VFloat (S754_finite false 7055199611562667 (-36)))
    /\ r' !! "_yield_guide_price_high" = Some (VFloat (S754_finite false 5614877457500878 (-56))).
Proof.
  destruct (yield_fields_of_nonzero_income (Sample.dict_of Sample.page 0) 15400
              (S754_finite false 8466239533875200 (-39)) (VInt 120000))
    as [Hret Hval];
    [vm_compute; reflexivity | lia | vm_compute; reflexivity | vm_compute; reflexivity |].
  destruct Hret as [r' Hr'].
  { right. exists 120000. split; [reflexivity|]. right.
    exists (S754_finite false 8773246027345122 (-50)). vm_compute. reflexivity. }
  exists r'. split; [exact Hr'|].
  destruct (Hval r' Hr') as (P10 & _ & P15 & _ & HY).
  destruct (HY 120000 eq_refl) as (q & Hq & Y); [lia|].
  rewrite P10, P15, Y.
  assert (q = S754_finite false 8773246027345122 (-50)) as ->.
  { vm_compute in Hq. now injection Hq. }
  repeat split; vm_compute; reflexivity.
Defined.

(** C2 as it was stated fails on a row whose income is present and 0: the
    price fields are absent, not [0 / rate]. *)
Lemma zero_income_has_no_yield_fields :
  List.length (fst (rows_of_tree Sample.page_zero_income)) = 1%nat
  /\ snd (rows_of_tree Sample.page_zero_income) = None
  /\ Sample.row_of Sample.page_zero_income 0 !! "ast_annual_income" = Some (VInt 0)
  /\ Sample.row_of Sample.page_zero_income 0 !! "guide_price_high" = Some (VInt 40000)
  /\ Sample.row_of Sample.page_zero_income 0 !! "_price_10pct_yield" = None
  /\ Sample.row_of Sample.page_zero_income 0 !! "_price_12.5pct_yield" = None
  /\ Sample.row_of Sample.page_zero_income 0 !! "_price_15pct_yield" = None
  /\ Sample.row_of Sample.page_zero_income 0 !! "_price_20pct_yield" = None
  /\ Sample.row_of Sample.page_zero_income 0 !! "_yield_guide_price_high" = None.
Proof. repeat split; vm_compute; reflexivity. Qed.

(** C3: every row that the page yields with
    [has_assured_shorthold_tenancy] false has [ast_annual_income] set to
    [None] and has none of the four price fields nor the ratio field. *)
Theorem no_tenancy_no_income (root : element) (r : row) :
  In r (fst (rows_of_tree root)) ->
  r !! "has_assured_shorthold_tenancy" = Some (VBool false) ->
  r !! "ast_annual_income" = Some VNone
  /\ r !! "_price_10pct_yield" = None
  /\ r !! "_price_12.5pct_yield" = None
  /\ r !! "_price_15pct_yield" = None
  /\ r !! "_price_20pct_yield" = None
  /\ r !! "_yield_guide_price_high" = None.
Proof.
  intros Hin Hflag. unfold rows_of_tree in Hin.
  apply yield_each_In in Hin. destruct Hin as (tr & _ & Hrow).
  unfold row_of_header in Hrow.
  bind_inv Hrow. bind_inv Hrow. rename a0 into r0.
  destruct (as_dict_lookup _ _ Ha0)
    as (flag & income & high & Hf & Hinc & _ & Kf & Ki & Kg & N10 & N12 & N15 & N20 & NY).
  destruct income as [n|].
  - (* an income means the flag was set, and the step keeps the flag *)
    exfalso. destruct flag.
    + assert (Hkeep : r !! "has_assured_shorthold_tenancy" = Some (VBool true)).
      { simpl in Ki. destruct (Z.eq_dec n 0) as [->|Hn0].
        - rewrite (add_calculations_falsy r0 (VInt 0) _ Ki eq_refl Kg) in Hrow.
          injection Hrow as <-. exact Kf.
        - destruct (float_of_int n) as [e|fn] eqn:Hfn.
          + rewrite (add_calculations_overflow r0 n e _ Ki Hn0 Hfn Kg) in Hrow.
            discriminate.
          + rewrite (add_calculations_income r0 n fn _ Ki Hn0 Hfn Kg) in Hrow.
            destruct (truthy (int_or_none high)).
            * bind_inv Hrow. bind_inv Hrow. injection Hrow as <-.
              rewrite lookup_insert_ne by done.
              rewrite with_prices_other by done. exact Kf.
            * injection Hrow as <-. rewrite with_prices_other by done. exact Kf. }
      rewrite Hkeep in Hflag. discriminate.
    + pose proof (income_needs_tenancy _ _ Hf Hinc). discriminate.
  - simpl in Ki.
    rewrite (add_calculations_falsy r0 VNone _ Ki eq_refl Kg) in Hrow.
    injection Hrow as <-. repeat split; assumption.
Qed.

Lemma no_tenancy_no_income_witness :
  Sample.row_of Sample.page 1 !! "ast_annual_income" = Some VNone
  /\ Sample.row_of Sample.page 1 !! "_price_10pct_yield" = None
  /\ Sample.row_of Sample.page 1 !! "_price_12.5pct_yield" = None
  /\ Sample.row_of Sample.page 1 !! "_price_15pct_yield" = None
  /\ Sample.row_of Sample.page 1 !! "_price_20pct_yield" = None
  /\ Sample.row_of Sample.page 1 !! "_yield_guide_price_high" = None.
Proof.
  apply (no_tenancy_no_income Sample.page (Sample.row_of Sample.page 1)).
  - apply nth_In_lt. vm_compute. reflexivity.
  - vm_compute. reflexivity.
Defined.

(** C4: for every row, the flag is whether the lower-cased description
    has "assured shorthold" in it.  Without the flag the income is [None].
    With the flag, the income is what the price parser makes of the amount
    of the first "£{amount} per annum" in the description, the amount being
    digits, commas and periods; and when the description has no such text
    the income is [None], without error. *)
Theorem tenancy_flag_and_income (s : self) (d : list N) :
  description s = Return d ->
  has_assured_shorthold_tenancy s
    = Return (contains (lower d) (u "assured shorthold"))
  /\ (contains (lower d) (u "assured shorthold") = true <->
      exists pre post, lower d = pre ++ u "assured shorthold" ++ post)
  /\ (contains (lower d) (u "assured shorthold") = false ->
      ast_annual_income s = Return None)
  /\ (contains (lower d) (u "assured shorthold") = true ->
      (forall pre a post,
         d = pre ++ [163%N] ++ a ++ u " per annum" ++ post ->
         income_text a ->
         (forall pre1 a1 post1,
            d = pre1 ++ [163%N] ++ a1 ++ u " per annum" ++ post1 ->
            income_text a1 -> (List.length pre <= List.length pre1)%nat) ->
         ast_annual_income s = bind (price a) (fun v => Return (Some v)))
      /\ ((~ exists pre a post,
             d = pre ++ [163%N] ++ a ++ u " per annum" ++ post /\ income_text a) ->
          ast_annual_income s = Return None)).
Proof.
  intros Hd.
  assert (Hflag : has_assured_shorthold_tenancy s
                  = Return (contains (lower d) (u "assured shorthold"))).
  { unfold has_assured_shorthold_tenancy. rewrite Hd. reflexivity. }
  split; [exact Hflag|]. split; [apply contains_spec|].
  unfold ast_annual_income. rewrite Hflag, Hd. cbn [bind Return].
  split; [intros ->; reflexivity|].
  intros ->. cbn [negb]. split.
  - intros pre a post Hshape Ha Hfirst.
    rewrite (per_annum_search_found d pre a post Hshape Ha Hfirst). reflexivity.
  - intros Hnone. rewrite (proj2 (per_annum_search_none d) Hnone). reflexivity.
Qed.

Lemma tenancy_flag_and_income_witness :
  has_assured_shorthold_tenancy (Sample.parser_of Sample.page 0) = Return true
  /\ ast_annual_income (Sample.parser_of Sample.page 0) = Return (Some 15400)
  /\ ast_annual_income (Sample.parser_of Sample.page 1) = Return None.
Proof.
  destruct (tenancy_flag_and_income (Sample.parser_of Sample.page 0)
              (u " Let by way of an Assured Shorthold tenancy producing £15,400 per annum. "))
    as (Hflag & _ & _ & Hinc); [vm_compute; reflexivity|].
  destruct (tenancy_flag_and_income (Sample.parser_of Sample.page 1)
              (u "A vacant three bedroomed terrace."))
    as (_ & _ & Hnone & _); [vm_compute; reflexivity|].
  split; [rewrite Hflag; vm_compute; reflexivity|].
  split; [|apply Hnone; vm_compute; reflexivity].
  destruct Hinc as [Hfound _]; [vm_compute; reflexivity|].
  rewrite (Hfound (u " Let by way of an Assured Shorthold tenancy producing ")
             (u "15,400") (u ". ")).
  - vm_compute. reflexivity.
  - vm_compute. reflexivity.
  - split; [discriminate | vm_compute; reflexivity].
  - intros pre1 a1 post1 Heq Ha1.
    destruct (Nat.le_gt_cases 54 (List.length pre1)) as [Hle|Hgt]; [exact Hle|].
    exfalso.
    assert (Hat : nth_error
                    (u " Let by way of an Assured Shorthold tenancy producing £15,400 per annum. ")
                    (List.length pre1) = Some 163%N).
    { rewrite Heq. rewrite nth_error_app2 by lia. now rewrite Nat.sub_diag. }
    clear Heq Ha1.
    do 54 (destruct pre1 as [|? pre1]; [vm_compute in Hat; discriminate|]).
    simpl in Hgt. lia.
Defined.

(** C6, as amended: at least one following sibling row is required.  With
    none, the parser object cannot be made, the row fails with
    [IndexError], and the run stops there: the rows of the header rows
    before it are yielded and written, and the output ends with that
    error.  With one or more, the first of them is the detail row and the
    others are no error. *)
Theorem detail_row_is_first_following_sibling (header_tr : node) :
  (xpath header_tr (Path FollowingSibling "tr" None) = [] ->
     __init__ header_tr = Raise IndexError
     /\ row_of_header header_tr = Raise IndexError
     /\ forall root pre post,
          xpath (root_node root) TABLE_ROW_XPATH = pre ++ header_tr :: post ->
          Forall (fun tr => returns (row_of_header tr)) pre ->
          exists rows, rows_of_tree root = (rows, Some IndexError)
            /\ Forall2 (fun tr r => row_of_header tr = Return r) pre rows
            /\ forall float_repr,
                 snd (output_csv float_repr (rows_of_tree root)) = Some IndexError)
  /\ (forall d rest,
        xpath header_tr (Path FollowingSibling "tr" None) = d :: rest ->
        __init__ header_tr = Return (Self header_tr d)).
Proof.
  split.
  - intros Hnone.
    assert (Hinit : __init__ header_tr = Raise IndexError).
    { unfold __init__. rewrite Hnone. reflexivity. }
    assert (Hrow : row_of_header header_tr = Raise IndexError).
    { unfold row_of_header. rewrite Hinit. reflexivity. }
    repeat split; try assumption.
    intros root pre post Hx Hpre.
    destruct (yield_each_stops row_of_header pre post header_tr IndexError Hrow Hpre)
      as (rows & Hrows & Hall).
    assert (Htree : rows_of_tree root = (rows, Some IndexError)).
    { unfold rows_of_tree. rewrite Hx. exact Hrows. }
    exists rows. repeat split; try assumption.
    intros float_repr. unfold output_csv.
    rewrite write_rows_lines; [rewrite Htree; reflexivity|].
    apply Forall_forall. intros r Hr. apply (rows_keys root).
    apply list_elem_of_In. exact Hr.
  - intros d rest Hsome. unfold __init__. rewrite Hsome. reflexivity.
Qed.

Lemma detail_row_is_first_following_sibling_witness :
  (exists rows, rows_of_tree Sample.page_without_detail = (rows, Some IndexError))
  /\ __init__ (Sample.header_of Sample.page 0)
     = Return (Self (Sample.header_of Sample.page 0)
                 (nth 0 (xpath (Sample.header_of Sample.page 0)
                           (Path FollowingSibling "tr" None))
                    (root_node Sample.page))).
Proof.
  split.
  - destruct (detail_row_is_first_following_sibling
                (Sample.header_of Sample.page_without_detail 0)) as [H _].
    destruct H as (_ & _ & H); [vm_compute; reflexivity|].
    destruct (H Sample.page_without_detail [] []) as (rows & Hrows & _ & _).
    + vm_compute. reflexivity.
    + constructor.
    + exists rows. exact Hrows.
  - destruct (detail_row_is_first_following_sibling
                (Sample.header_of Sample.page 0)) as [_ H].
    eapply H. vm_compute. reflexivity.
Defined.

(** C6 as it was stated fails on a header row with several following
    sibling rows: the first header row of the sample page has three, and
    its row is extracted, as is the whole page. *)
Lemma several_following_rows_are_no_error :
  List.length (xpath (Sample.header_of Sample.page 0)
                 (Path FollowingSibling "tr" None)) = 3%nat
  /\ is_value (row_of_header (Sample.header_of Sample.page 0)) = true
  /\ List.length (fst (rows_of_tree Sample.page)) = 2%nat
  /\ snd (rows_of_tree Sample.page) = None.
Proof. repeat split; vm_compute; reflexivity. Qed.

(** C7: the description is the text content of the first matching
    paragraph as it stands; on the first lot of the sample page it keeps
    the blank before and the blank after, which [strip] would remove. *)
Theorem description_is_not_stripped :
  description (Sample.parser_of Sample.page 0)
    = Return (u " Let by way of an Assured Shorthold tenancy producing £15,400 per annum. ")
  /\ strip (u " Let by way of an Assured Shorthold tenancy producing £15,400 per annum. ")
     = u "Let by way of an Assured Shorthold tenancy producing £15,400 per annum."
  /\ Sample.row_of Sample.page 0 !! "description"
     = Some (VStr (u " Let by way of an Assured Shorthold tenancy producing £15,400 per annum. "))
  /\ status (Sample.parser_of Sample.page_of_padded_status 0)
     = Return (u "Sold Prior").
Proof. repeat split; vm_compute; reflexivity. Qed.

(** C8: for every sequence of rows with keys among the field names (as all
    rows of a page are), whatever way the sequence ends, the text written
    is the header line, which names the sixteen columns in the fixed order,
    followed by one line per row in the order of the rows, and nothing
    else; a field that is missing from a row or is [None] in it gives an
    empty cell. *)
Theorem csv_layout (float_repr : float -> list N) (rows : list row) (e : option exn) :
  Forall (fun r : row => dom r ⊆@{gset string} list_to_set FIELDS) rows ->
  output_csv float_repr (rows, e)
    = (u "lot_number,street_address,postcode,status,guide_price_low,guide_price_high,_yield_guide_price_high,_price_10pct_yield,_price_12.5pct_yield,_price_15pct_yield,_price_20pct_yield,has_assured_shorthold_tenancy,ast_annual_income,description,detail_url,photo_url"
         ++ [13; 10]%N ++ concat (map (line_of float_repr) rows), e)
  /\ List.length FIELDS = 16%nat
  /\ Forall (fun r : row =>
       forall key, r !! key = None \/ r !! key = Some VNone ->
         Csv.field (Csv.cell float_repr (default (VStr []) (r !! key))) = []) rows.
Proof.
  intros Hkeys. split; [|split].
  - unfold output_csv. simpl fst. simpl snd.
    rewrite (write_rows_lines float_repr rows Hkeys).
    replace (Csv.writeheader FIELDS) with
      (u "lot_number,street_address,postcode,status,guide_price_low,guide_price_high,_yield_guide_price_high,_price_10pct_yield,_price_12.5pct_yield,_price_15pct_yield,_price_20pct_yield,has_assured_shorthold_tenancy,ast_annual_income,description,detail_url,photo_url"
         ++ [13; 10]%N) by (vm_compute; reflexivity).
    rewrite <- app_assoc. reflexivity.
  - reflexivity.
  - apply Forall_forall. intros r _ key [-> | ->]; reflexivity.
Qed.

Lemma csv_layout_witness :
  snd (output_csv (fun _ => u "0.0") (rows_of_tree Sample.page)) = None.
Proof.
  destruct (rows_of_tree Sample.page) as [rows e] eqn:Hrows.
  destruct (csv_layout (fun _ => u "0.0") rows e) as (Hout & _ & _).
  - apply Forall_forall. intros r Hr. apply (rows_keys Sample.page).
    rewrite Hrows. apply list_elem_of_In. exact Hr.
  - rewrite Hout. simpl.
    change e with (snd (rows, e)). rewrite <- Hrows. vm_compute. reflexivity.
Defined.

(** C9, as amended: when the network answers the GET with a response, a
    status from 400 to 599 ends the run at once with [HTTPError], and, the
    status being outside that range, an encoding other than ['utf-8'] ends
    it at once with [AssertionError]; in both cases nothing is written to
    standard output and the files are as before.  In the remaining case,
    and only then, the content of the response becomes the content of the
    snapshot file, whatever that file held. *)
Theorem fetch_outcomes
    (requests_get : list N -> result response)
    (fromstring : list N -> result element)
    (decode : list byte -> list N -> result (list N))
    (float_repr : float -> list N)
    (fs : files) (r : response) :
  requests_get CURRENT_URL = Return r ->
  (400 <= status_code r < 600 ->
     html_from_url requests_get CURRENT_URL fs = (Raise HTTPError, fs)
     /\ main requests_get fromstring decode float_repr None fs
        = ([], Some HTTPError, fs))
  /\ (~ (400 <= status_code r < 600) -> encoding r <> Some PAGE_ENCODING ->
        html_from_url requests_get CURRENT_URL fs = (Raise AssertionError, fs)
        /\ main requests_get fromstring decode float_repr None fs
           = ([], Some AssertionError, fs))
  /\ (~ (400 <= status_code r < 600) -> encoding r = Some PAGE_ENCODING ->
        html_from_url requests_get CURRENT_URL fs
          = (Return (Requests.text r), <[SNAPSHOT := content r]> fs)
        /\ snd (main requests_get fromstring decode float_repr None fs)
           = <[SNAPSHOT := content r]> fs)
  /\ (snd (html_from_url requests_get CURRENT_URL fs) <> fs ->
        ~ (400 <= status_code r < 600) /\ encoding r = Some PAGE_ENCODING).
Proof.
  intros Hget.
  assert (Herr : 400 <= status_code r < 600 ->
                 html_from_url requests_get CURRENT_URL fs = (Raise HTTPError, fs)).
  { intros Hs. unfold html_from_url. rewrite Hget. cbv beta iota delta [Return].
    rewrite (raise_for_status_error r Hs). reflexivity. }
  assert (Henc : ~ (400 <= status_code r < 600) -> encoding r <> Some PAGE_ENCODING ->
                 html_from_url requests_get CURRENT_URL fs = (Raise AssertionError, fs)).
  { intros Hs He. unfold html_from_url. rewrite Hget. cbv beta iota delta [Return].
    rewrite (raise_for_status_pass r Hs). unfold write_back_page_to_file.
    rewrite bool_decide_eq_false_2 by assumption. reflexivity. }
  assert (Hok : ~ (400 <= status_code r < 600) -> encoding r = Some PAGE_ENCODING ->
                html_from_url requests_get CURRENT_URL fs
                = (Return (Requests.text r), <[SNAPSHOT := content r]> fs)).
  { intros Hs He. unfold html_from_url. rewrite Hget. cbv beta iota delta [Return].
    rewrite (raise_for_status_pass r Hs). unfold write_back_page_to_file.
    rewrite bool_decide_eq_true_2 by assumption. reflexivity. }
  repeat split.
  - auto.
  - unfold main. rewrite (Herr H). reflexivity.
  - auto.
  - unfold main. rewrite (Henc H H0). reflexivity.
  - auto.
  - unfold main. rewrite (Hok H H0). reflexivity.
  - intros Hs. apply H. rewrite (Herr Hs). reflexivity.
  - destruct (decide (400 <= status_code r < 600)) as [Hs|Hs].
    + exfalso. apply H. rewrite (Herr Hs). reflexivity.
    + destruct (decide (encoding r = Some PAGE_ENCODING)) as [He|He]; [exact He|].
      exfalso. apply H. rewrite (Henc Hs He). reflexivity.
Qed.

Lemma fetch_outcomes_witness :
  main (fun _ => Return (Response 404 (Some PAGE_ENCODING) [] []))
       (fun _ => Raise ValueError) (fun _ _ => Raise ValueError) (fun _ => [])
       None {[ SNAPSHOT := ["o"%byte] ]}
  = ([], Some HTTPError, {[ SNAPSHOT := ["o"%byte] ]}).
Proof.
  apply (fetch_outcomes (fun _ => Return (Response 404 (Some PAGE_ENCODING) [] []))
           (fun _ => Raise ValueError) (fun _ _ => Raise ValueError) (fun _ => [])
           {[ SNAPSHOT := ["o"%byte] ]} (Response 404 (Some PAGE_ENCODING) [] [])
           eq_refl).
  simpl. lia.
Defined.

(** C9 as it was stated fails on a status that is neither a success nor in
    400..599: an answer 304 in the expected encoding raises nothing and its
    content replaces the snapshot. *)
Lemma status_304_is_written_back :
  html_from_url (fun _ => Return Sample.not_modified) CURRENT_URL
    {[ SNAPSHOT := ["o"%byte; "l"%byte; "d"%byte] ]}
  = (Return (u "new"), {[ SNAPSHOT := ["n"%byte; "e"%byte; "w"%byte] ]}).
Proof.
  vm_compute. reflexivity.
Qed.

(** C10: the step asks for the truth of the two values, not for their
    presence.  For every row as the parser builds it: when
    [ast_annual_income] is 0 the step returns the row as it is, with the
    four price fields and the ratio field absent; when the income is an int
    other than zero (within the range of a float) and [guide_price_high] is
    0, the step returns and the ratio field is absent from what it
    returns. *)
Theorem zero_counts_as_absent (s : self) (r : row) :
  as_dict s = Return r ->
  (r !! "ast_annual_income" = Some (VInt 0) ->
     add_calculations r = Return r
     /\ r !! "_price_10pct_yield" = None
     /\ r !! "_price_12.5pct_yield" = None
     /\ r !! "_price_15pct_yield" = None
     /\ r !! "_price_20pct_yield" = None
     /\ r !! "_yield_guide_price_high" = None)
  /\ (forall n fn, r !! "ast_annual_income" = Some (VInt n) -> n <> 0 ->
        float_of_int n = Return fn ->
        r !! "guide_price_high" = Some (VInt 0) ->
        exists r' : row, add_calculations r = Return r'
          /\ r' !! "_yield_guide_price_high" = None).
Proof.
  intros Hd. apply as_dict_lookup in Hd.
  destruct Hd as (flag & income & high & _ & _ & _ & _ & Hi & Hg & N10 & N12 & N15 & N20 & NY).
  split.
  - intros Hz. repeat split; try assumption.
    eapply add_calculations_falsy; [exact Hz | reflexivity | exact Hg].
  - intros n fn Hn Hn0 Hfn Hg0.
    rewrite (add_calculations_income r n fn (VInt 0) Hn Hn0 Hfn Hg0). simpl.
    eexists. split; [reflexivity|].
    rewrite with_prices_other by done. exact NY.
Qed.

Lemma zero_counts_as_absent_witness :
  add_calculations (Sample.dict_of Sample.page_zero_income 0)
    = Return (Sample.dict_of Sample.page_zero_income 0)
  /\ exists r' : row,
       add_calculations (Sample.dict_of Sample.page_zero_guide 0) = Return r'
       /\ r' !! "_yield_guide_price_high" = None.
Proof.
  split.
  - apply (zero_counts_as_absent (Sample.parser_of Sample.page_zero_income 0)).
    + apply value_of_result. vm_compute. reflexivity.
    + vm_compute. reflexivity.
  - apply (zero_counts_as_absent (Sample.parser_of Sample.page_zero_guide 0)
             (Sample.dict_of Sample.page_zero_guide 0))
      with (n := 6000) (fn := S754_finite false 6597069766656000 (-40)).
    + apply value_of_result. vm_compute. reflexivity.
    + vm_compute. reflexivity.
    + lia.
    + vm_compute. reflexivity.
    + vm_compute. reflexivity.
Defined.

(** * Further properties *)

(** ** Places in a document *)

Lemma descendant_or_self_eq (root e : element) (sibs : list element) :
  descendant_or_self root e sibs
  = Node root e sibs :: below_nodes root (children e).
Proof.
  destruct e as [t a x cs tl]. cbn [descendant_or_self children]. f_equal.
  induction cs as [|c cs IH]; [reflexivity|]. cbn [below_nodes]. now rewrite <- IH.
Qed.

Lemma below_nodes_In (root : element) (l : list element) (n : node) :
  In n (below_nodes root l) ->
  exists before c rest,
    l = before ++ c :: rest /\ In n (descendant_or_self root c rest).
Proof.
  induction l as [|c l IH]; [contradiction|]. cbn [below_nodes].
  intros H. apply in_app_or in H as [H|H].
  - exists [], c, l. split; [reflexivity | exact H].
  - destruct (IH H) as (before & c' & rest & -> & Hin).
    exists (c :: before), c', rest. split; [reflexivity | exact Hin].
Qed.

Lemma inside_trans (a b c : element) : inside a b -> inside b c -> inside a c.
Proof.
  induction 1 as [|e ch d Hch _ IH]; [auto|].
  intros H. eapply inside_child; [exact Hch | exact (IH H)].
Qed.

(** Where the nodes of an enumeration stand: each is the starting element,
    or stands in the children of an element of the enumeration, followed
    there by the siblings recorded with it. *)
Lemma descendant_or_self_place (root e : element) :
  forall sibs n,
    In n (descendant_or_self root e sibs) ->
    doc n = root
    /\ inside e (elem n)
    /\ (n = Node root e sibs
        \/ exists parent before,
             inside e parent
             /\ children parent = before ++ elem n :: following n).
Proof.
  induction e as [t a x cs tl IH] using element_induction.
  intros sibs n. rewrite descendant_or_self_eq. cbn [children].
  intros [<- | Hin].
  - repeat split; [apply inside_here | now left].
  - apply below_nodes_In in Hin. destruct Hin as (before & c & rest & -> & Hin).
    rewrite Forall_forall in IH.
    assert (Hc : In c (before ++ c :: rest)) by (apply in_elt).
    destruct (IH c (proj2 (list_elem_of_In _ _) Hc) rest n Hin) as (Hdoc & Hins & Hplace).
    split; [exact Hdoc|]. split.
    + eapply inside_child; [exact Hc | exact Hins].
    + right. destruct Hplace as [-> | (parent & before' & Hp & Hch)].
      * exists (Element t a x (before ++ c :: rest) tl), before.
        split; [apply inside_here | reflexivity].
      * exists parent, before'. split; [|exact Hch].
        eapply inside_child; [exact Hc | exact Hp].
Qed.

(** Every element of the document is enumerated. *)
Lemma descendant_or_self_complete (root e d : element) :
  inside e d ->
  forall sibs, exists n, In n (descendant_or_self root e sibs) /\ elem n = d.
Proof.
  induction 1 as [e | e c d Hc _ IH]; intros sibs.
  - exists (Node root e sibs). split; [|reflexivity].
    rewrite descendant_or_self_eq. now left.
  - apply in_split in Hc. destruct Hc as (before & rest & Hch).
    destruct (IH rest) as (n & Hin & Hn). exists n. split; [|exact Hn].
    rewrite descendant_or_self_eq, Hch. right.
    clear -Hin. induction before as [|b before IHb]; cbn [app below_nodes].
    + apply in_or_app. now left.
    + apply in_or_app. right. exact IHb.
Qed.

(** What [selects] looks at in a node: its element. *)
Lemma selects_elem (p : path) (n : node) :
  selects p n = selects p (Node (doc n) (elem n) []).
Proof. reflexivity. Qed.

Lemma in_place_filter (root : element) (p : path) (l : list element)
    (d : node) (rest : list node) :
  List.filter (selects p) (in_place root l) = d :: rest ->
  exists between after,
    l = between ++ elem d :: after
    /\ d = Node root (elem d) after
    /\ selects p d = true
    /\ Forall (fun e => selects p (Node root e []) = false) between
    /\ rest = List.filter (selects p) (in_place root after).
Proof.
  induction l as [|c l IH]; [discriminate|]. cbn [in_place List.filter].
  destruct (selects p (Node root c l)) eqn:Hf.
  - intros [= <- <-]. exists [], l. repeat split; [exact Hf | constructor].
  - intros H. destruct (IH H) as (between & after & Hl & Hd & Hfd & Hall & Hrest).
    exists (c :: between), after. cbn [app]. rewrite Hl at 1.
    repeat split; try assumption.
    constructor; [exact Hf | exact Hall].
Qed.

Lemma in_place_filter_nil (root : element) (p : path) (l : list element) :
  List.filter (selects p) (in_place root l) = [] ->
  Forall (fun e => selects p (Node root e []) = false) l.
Proof.
  induction l as [|c l IH]; [constructor|]. cbn [in_place List.filter].
  destruct (selects p (Node root c l)) eqn:Hf; [discriminate|].
  intros H. constructor; [exact Hf | exact (IH H)].
Qed.

Lemma selects_tag_only (t : string) (a : axis) (root e : element) :
  selects (Path a t None) (Node root e []) = false -> tag e <> t.
Proof.
  unfold selects. cbn. rewrite andb_true_r. now intros H%String.eqb_neq.
Qed.

(** X1: the header rows found in a page are exactly its [tr] elements
    whose [id] holds "header_".  When the parser object of one can be made,
    its detail row is the first [tr] after it among the children of its
    parent; it cannot be made exactly when no [tr] follows it there. *)
Theorem header_rows_and_their_detail (root : element) :
  (forall tr, In tr (xpath (root_node root) TABLE_ROW_XPATH) ->
     doc tr = root
     /\ inside root (elem tr)
     /\ tag (elem tr) = "tr"%string
     /\ contains (default [] (lookup_attr (attrib (elem tr)) "id")) (u "header_") = true
     /\ (forall s, __init__ tr = Return s ->
           header_tr s = tr
           /\ exists parent before between after,
                inside root parent
                /\ children parent
                   = before ++ elem tr :: between ++ elem (detail_tr s) :: after
                /\ Forall (fun e => tag e <> "tr"%string) between
                /\ tag (elem (detail_tr s)) = "tr"%string
                /\ detail_tr s = Node root (elem (detail_tr s)) after)
     /\ (__init__ tr = Raise IndexError <->
         Forall (fun e => tag e <> "tr"%string) (following tr)))
  /\ (forall d, inside root d -> tag d = "tr"%string ->
        contains (default [] (lookup_attr (attrib d) "id")) (u "header_") = true ->
        exists tr, In tr (xpath (root_node root) TABLE_ROW_XPATH) /\ elem tr = d).
Proof.
  split.
  - intros tr Hin. unfold xpath in Hin. cbn [axis_of TABLE_ROW_XPATH doc root_node] in Hin.
    apply filter_In in Hin as [Hin Hsel].
    destruct (descendant_or_self_place root root [] tr Hin) as (Hdoc & Hins & Hplace).
    unfold selects in Hsel. cbn [tag_of where_ TABLE_ROW_XPATH holds] in Hsel.
    apply andb_true_iff in Hsel as [Htag Hid]. apply String.eqb_eq in Htag.
    split; [exact Hdoc|]. split; [exact Hins|]. split; [exact Htag|].
    split; [exact Hid|]. split.
    + intros s Hs. unfold __init__, xpath in Hs. cbn [axis_of] in Hs.
      destruct (List.filter _ _) as [|d rest] eqn:Hf; [discriminate|].
      injection Hs as <-. cbn [header_tr detail_tr]. split; [reflexivity|].
      apply in_place_filter in Hf.
      destruct Hf as (between & after & Hfol & Hd & Hseld & Hall & _).
      destruct Hplace as [-> | (parent & before & Hp & Hch)].
      * cbn [following] in Hfol. now destruct between.
      * rewrite Hdoc in Hd, Hall.
        exists parent, before, between, after. rewrite Hch, Hfol.
        repeat split; try assumption.
        -- eapply Forall_impl; [exact Hall|]. intros e He.
           exact (selects_tag_only _ _ _ _ He).
        -- unfold selects in Hseld. cbn in Hseld. rewrite andb_true_r in Hseld.
           now apply String.eqb_eq.
    + unfold __init__, xpath. cbn [axis_of]. split.
      * destruct (List.filter _ _) as [|d rest] eqn:Hf; [|discriminate]. intros _.
        apply in_place_filter_nil in Hf.
        eapply Forall_impl; [exact Hf|]. intros e He.
        exact (selects_tag_only _ _ _ _ He).
      * intros Hall. destruct (List.filter _ _) as [|d rest] eqn:Hf; [reflexivity|].
        exfalso. apply in_place_filter in Hf.
        destruct Hf as (between & after & Hfol & _ & Hseld & _ & _).
        rewrite Hfol in Hall. apply Forall_app in Hall as [_ Hall].
        apply Forall_cons in Hall as [Hd _]. apply Hd.
        unfold selects in Hseld. cbn in Hseld. rewrite andb_true_r in Hseld.
        now apply String.eqb_eq.
  - intros d Hins Htag Hid.
    destruct (descendant_or_self_complete root root d Hins []) as (n & Hin & Hn).
    exists n. split; [|exact Hn].
    unfold xpath. cbn [axis_of TABLE_ROW_XPATH doc root_node].
    apply filter_In. split; [exact Hin|].
    unfold selects. cbn [tag_of where_ TABLE_ROW_XPATH holds]. rewrite Hn, Hid, Htag.
    reflexivity.
Qed.

Lemma header_rows_and_their_detail_witness :
  tag (elem (detail_tr (Sample.parser_of Sample.page 0))) = "tr"%string
  /\ exists tr, In tr (xpath (root_node Sample.page) TABLE_ROW_XPATH)
       /\ elem tr = nth 2 Sample.lot1 (nth 0 Sample.lot2 Sample.page).
Proof.
  destruct (header_rows_and_their_detail Sample.page) as [Hfound Hall].
  split.
  - destruct (Hfound (Sample.header_of Sample.page 0)) as (_ & _ & _ & _ & Hinit & _).
    { apply nth_In_lt. vm_compute. reflexivity. }
    destruct (Hinit (Sample.parser_of Sample.page 0)) as (_ & p & b & m & a & _ & _ & _ & Ht & _).
    { apply value_of_result. vm_compute. reflexivity. }
    exact Ht.
  - apply Hall.
    + eapply inside_child; [left; reflexivity|].
      eapply inside_child; [left; reflexivity|].
      eapply inside_child; [right; right; left; reflexivity|]. apply inside_here.
    + reflexivity.
    + vm_compute. reflexivity.
Defined.

(** ** Stripped text *)

Lemma lstrip_split (s : list N) :
  exists w, s = w ++ lstrip s /\ forallb is_space w = true.
Proof.
  induction s as [|c s (w & Hs & Hw)]; [now exists []|]. cbn [lstrip].
  destruct (is_space c) eqn:Hc.
  - exists (c :: w). cbn [app forallb]. rewrite Hc, Hw. split; [now rewrite <- Hs | reflexivity].
  - now exists [].
Qed.

(** [strip] takes away white space, and only that, from the two ends. *)
Lemma strip_split (s : list N) :
  exists w1 w2, s = w1 ++ strip s ++ w2
    /\ forallb is_space w1 = true /\ forallb is_space w2 = true.
Proof.
  destruct (lstrip_split s) as (w1 & Hs & H1).
  destruct (lstrip_split (rev (lstrip s))) as (w & Hr & Hw).
  exists w1, (rev w). split; [|split; [exact H1 | now rewrite forallb_rev]].
  unfold strip, rstrip. rewrite <- rev_app_distr, <- Hr, rev_involutive. exact Hs.
Qed.

Lemma strip_first (s y : list N) (c : N) :
  strip s = c :: y -> is_space c = false.
Proof.
  intros H. destruct (lstrip_split (rev (lstrip s))) as (w & Hr & _).
  apply (f_equal (@rev N)) in Hr. rewrite rev_involutive, rev_app_distr in Hr.
  fold (rstrip (lstrip s)) in Hr. fold (strip s) in Hr. rewrite H in Hr.
  exact (lstrip_head _ _ _ Hr).
Qed.

Lemma lstrip_fixed (s : list N) :
  (forall c y, s = c :: y -> is_space c = false) -> lstrip s = s.
Proof.
  destruct s as [|c s]; [reflexivity|]. intros H. cbn [lstrip].
  now rewrite (H c s eq_refl).
Qed.

Lemma strip_fixed (s : list N) :
  (forall c y, s = c :: y -> is_space c = false) ->
  (forall y c, s = y ++ [c] -> is_space c = false) ->
  strip s = s.
Proof.
  intros Hf Hl. unfold strip, rstrip. rewrite (lstrip_fixed s Hf).
  rewrite lstrip_fixed; [apply rev_involutive|].
  intros c y Hr. apply (Hl (rev y) c).
  apply (f_equal (@rev N)) in Hr. now rewrite rev_involutive in Hr.
Qed.

Lemma strip_idempotent (s : list N) : strip (strip s) = strip s.
Proof.
  apply strip_fixed.
  - intros c y H. exact (strip_first _ _ _ H).
  - intros y c H. exact (strip_last _ _ _ H).
Qed.

(** X2: [text] wants one element: a list of none or of several raises
    [AssertionError].  What it returns is the text content of the element
    without the white space at its two ends, and nothing else taken away:
    the result neither begins nor ends with white space. *)
Theorem text_is_stripped_text_content (x : list node + node) :
  (forall l, x = inl l -> List.length l <> 1%nat -> text x = Raise AssertionError)
  /\ (forall t, text x = Return t ->
        exists e w1 w2,
          (x = inr e \/ x = inl [e])
          /\ text_content (elem e) = w1 ++ t ++ w2
          /\ forallb is_space w1 = true /\ forallb is_space w2 = true
          /\ (forall c y, t = c :: y -> is_space c = false)
          /\ (forall y c, t = y ++ [c] -> is_space c = false)
          /\ strip t = t).
Proof.
  split.
  - intros l -> Hlen. unfold text.
    destruct (Nat.eqb_spec (List.length l) 1) as [Heq|_]; [contradiction | reflexivity].
  - intros t Ht.
    assert (He : exists e, (x = inr e \/ x = inl [e])
                           /\ t = strip (text_content (elem e))).
    { unfold text in Ht. destruct x as [l|e].
      - destruct l as [|e [|e' l]]; try discriminate.
        exists e. split; [now right | now injection Ht].
      - exists e. split; [now left | now injection Ht]. }
    destruct He as (e & Hx & ->).
    destruct (strip_split (text_content (elem e))) as (w1 & w2 & Hs & H1 & H2).
    exists e, w1, w2. repeat split; try assumption.
    + intros c y H. exact (strip_first _ _ _ H).
    + intros y c H. exact (strip_last _ _ _ H).
    + apply strip_idempotent.
Qed.

Lemma text_is_stripped_text_content_witness :
  text (inl []) = Raise AssertionError
  /\ strip (u "Sold Prior") = u "Sold Prior".
Proof.
  split.
  - destruct (text_is_stripped_text_content (inl [])) as [H _].
    apply (H []); [reflexivity | discriminate].
  - destruct (text_is_stripped_text_content
                (inr (root_node (Sample.td "  Sold Prior  ")))) as [_ H].
    destruct (H (u "Sold Prior")) as (_ & _ & _ & _ & _ & _ & _ & _ & _ & Hfix);
      [vm_compute; reflexivity | exact Hfix].
Defined.

(** ** The cells of the header row *)

Lemma in_place_elems (root : element) (l : list element) :
  map elem (in_place root l) = l.
Proof. induction l as [|c l IH]; [reflexivity|]. cbn. now rewrite IH. Qed.

Lemma filter_in_place (root : element) (p : path) (l : list element) :
  map elem (List.filter (selects p) (in_place root l))
  = List.filter (fun e => selects p (Node root e [])) l.
Proof.
  induction l as [|c l IH]; [reflexivity|]. cbn [in_place List.filter].
  change (selects p (Node root c l)) with (selects p (Node root c [])).
  destruct (selects p (Node root c [])); cbn [map]; now rewrite IH.
Qed.

Lemma td_children (s : self) :
  map elem (xpath (header_tr s) (Path Child "td" None)) = cells s.
Proof.
  unfold xpath, cells. cbn [axis_of]. rewrite filter_in_place.
  apply List.filter_ext. intros e. unfold selects. cbn. apply andb_true_r.
Qed.

Lemma cell_text (s : self) (i : nat) :
  bind (index (xpath (header_tr s) (Path Child "td" None)) i)
    (fun td => text (inr td))
  = match nth_error (cells s) i with
    | Some e => Return (strip (text_content e))
    | None => Raise IndexError
    end.
Proof.
  rewrite <- td_children, nth_error_map. unfold index.
  destruct (nth_error _ i); reflexivity.
Qed.

(** X3: the four fields of the header row are the stripped text contents
    of its first four [td] children, other children not counting; a field
    whose [td] is missing raises [IndexError], so all four are read exactly
    when the row has four [td] children or more, the fifth and later ones
    being ignored. *)
Theorem header_fields_are_its_first_cells (s : self) :
  lot_number s = match nth_error (cells s) 0 with
                 | Some e => Return (strip (text_content e))
                 | None => Raise IndexError
                 end
  /\ street_address s = match nth_error (cells s) 1 with
                        | Some e => Return (strip (text_content e))
                        | None => Raise IndexError
                        end
  /\ postcode s = match nth_error (cells s) 2 with
                  | Some e => Return (strip (text_content e))
                  | None => Raise IndexError
                  end
  /\ status s = match nth_error (cells s) 3 with
                | Some e => Return (strip (text_content e))
                | None => Raise IndexError
                end
  /\ ((4 <= List.length (cells s))%nat <->
      returns (lot_number s) /\ returns (street_address s)
      /\ returns (postcode s) /\ returns (status s)).
Proof.
  unfold lot_number, street_address, postcode, status. rewrite !cell_text.
  repeat split.
  - destruct (cells s) as [|c0 [|c1 [|c2 [|c3 l]]]]; cbn in H; try lia.
    eexists; reflexivity.
  - destruct (cells s) as [|c0 [|c1 [|c2 [|c3 l]]]]; cbn in H; try lia.
    eexists; reflexivity.
  - destruct (cells s) as [|c0 [|c1 [|c2 [|c3 l]]]]; cbn in H; try lia.
    eexists; reflexivity.
  - destruct (cells s) as [|c0 [|c1 [|c2 [|c3 l]]]]; cbn in H; try lia.
    eexists; reflexivity.
  - intros (_ & _ & _ & [t Ht]).
    destruct (cells s) as [|c0 [|c1 [|c2 [|c3 l]]]]; cbn in *; try discriminate. lia.
Qed.

Lemma Return_inj {A} (a b : A) : Return a = Return b -> a = b.
Proof. now intros [= ->]. Qed.

(** ** What is looked up below the detail row *)

Lemma descendants_eq (n : node) :
  descendants n = below_nodes (doc n) (children (elem n)).
Proof. unfold descendants. now rewrite descendant_or_self_eq. Qed.

Lemma xpath_descendant (n m : node) (t : string) (q : option predicate) :
  In m (xpath n (Path Descendant t q)) ->
  below (elem n) (elem m) /\ selects (Path Descendant t q) m = true.
Proof.
  unfold xpath. cbn [axis_of]. intros H. apply filter_In in H as [Hin Hsel].
  split; [|exact Hsel]. rewrite descendants_eq in Hin.
  apply below_nodes_In in Hin. destruct Hin as (before & c & rest & Hch & Hin).
  exists c. split; [rewrite Hch; apply in_elt|].
  exact (proj1 (proj2 (descendant_or_self_place _ _ _ _ Hin))).
Qed.

Lemma xpath_descendant_complete (n : node) (d : element) (t : string)
    (q : option predicate) :
  below (elem n) d ->
  selects (Path Descendant t q) (Node (doc n) d []) = true ->
  exists m, In m (xpath n (Path Descendant t q)) /\ elem m = d.
Proof.
  intros (c & Hc & Hins) Hsel.
  apply in_split in Hc. destruct Hc as (before & rest & Hch).
  destruct (descendant_or_self_complete (doc n) c d Hins rest) as (m & Hin & Hm).
  exists m. split; [|exact Hm].
  unfold xpath. cbn [axis_of]. apply filter_In. split.
  - rewrite descendants_eq, Hch. clear -Hin.
    induction before as [|b before IHb]; cbn [app below_nodes]; apply in_or_app;
      [now left | now right].
  - rewrite selects_elem, Hm.
    rewrite (proj1 (descendant_or_self_place _ _ _ _ Hin)). exact Hsel.
Qed.

Lemma first_of_xpath (n : node) (p : path) (m : node) (k : node -> result (list N))
    (v : list N) :
  bind (index (xpath n p) 0) k = Return v ->
  exists m, In m (xpath n p) /\ k m = Return v.
Proof.
  destruct (xpath n p) as [|m' l]; [discriminate|]. cbn [index nth_error bind Return]. intros H.
  exists m'. split; [now left | exact H].
Qed.

(** X4: the description and the two URLs are read below the detail row:
    the description is the text content of a [p] there whose class holds
    "descriptionText"; the detail URL is the site's origin followed by the
    [href] of an [a] there whose first text holds "Details"; the photo URL
    is the origin followed by the [src] of an [img] there whose class holds
    "lotImage".  The detail URL raises [IndexError] exactly when there is
    no such [a] below the detail row, and otherwise can only raise
    [KeyError], for an [a] without [href]. *)
Theorem detail_fields_come_from_below_the_detail_row (s : self) :
  (forall d, description s = Return d ->
     exists p, below (elem (detail_tr s)) p
       /\ tag p = "p"%string
       /\ contains (default [] (lookup_attr (attrib p) "class")) (u "descriptionText") = true
       /\ d = text_content p)
  /\ (forall url, detail_url s = Return url ->
        exists a href, below (elem (detail_tr s)) a
          /\ tag a = "a"%string
          /\ contains (first_text a) (u "Details") = true
          /\ lookup_attr (attrib a) "href" = Some href
          /\ url = u "http://www.suttonkersh.co.uk" ++ href)
  /\ (forall url, photo_url s = Return url ->
        exists img src, below (elem (detail_tr s)) img
          /\ tag img = "img"%string
          /\ contains (default [] (lookup_attr (attrib img) "class")) (u "lotImage") = true
          /\ lookup_attr (attrib img) "src" = Some src
          /\ url = u "http://www.suttonkersh.co.uk" ++ src)
  /\ (detail_url s = Raise IndexError <->
      ~ exists a, below (elem (detail_tr s)) a /\ tag a = "a"%string
                  /\ contains (first_text a) (u "Details") = true)
  /\ (forall e, detail_url s = Raise e -> e = IndexError \/ e = KeyError).
Proof.
  split; [|split; [|split; [|split]]].
  - intros d H. unfold description in H.
    apply (first_of_xpath _ _ (detail_tr s)) in H. destruct H as (m & Hin & Hm).
    apply xpath_descendant in Hin as [Hb Hsel].
    unfold selects in Hsel. cbn [tag_of where_ holds elem] in Hsel. apply andb_true_iff in Hsel as [Ht Hc].
    exists (elem m).
    split; [exact Hb|]. split; [now apply String.eqb_eq|]. split; [exact Hc|].
    apply Return_inj in Hm. now rewrite <- Hm.
  - intros url H. unfold detail_url in H.
    apply (first_of_xpath _ _ (detail_tr s)) in H. destruct H as (m & Hin & Hm).
    apply xpath_descendant in Hin as [Hb Hsel].
    unfold selects in Hsel. cbn [tag_of where_ holds elem] in Hsel. apply andb_true_iff in Hsel as [Ht Hc].
    unfold attr in Hm. destruct (lookup_attr (attrib (elem m)) "href") as [href|] eqn:Hh;
      [|discriminate].
    exists (elem m), href.
    split; [exact Hb|]. split; [now apply String.eqb_eq|]. split; [exact Hc|].
    split; [exact Hh|].
    change (Return (_make_absolute_url href) = Return url) in Hm.
    apply Return_inj in Hm. rewrite <- Hm. reflexivity.
  - intros url H. unfold photo_url in H.
    apply (first_of_xpath _ _ (detail_tr s)) in H. destruct H as (m & Hin & Hm).
    apply xpath_descendant in Hin as [Hb Hsel].
    unfold selects in Hsel. cbn [tag_of where_ holds elem] in Hsel. apply andb_true_iff in Hsel as [Ht Hc].
    unfold attr in Hm. destruct (lookup_attr (attrib (elem m)) "src") as [src|] eqn:Hh;
      [|discriminate].
    exists (elem m), src.
    split; [exact Hb|]. split; [now apply String.eqb_eq|]. split; [exact Hc|].
    split; [exact Hh|].
    change (Return (_make_absolute_url src) = Return url) in Hm.
    apply Return_inj in Hm. rewrite <- Hm. reflexivity.
  - unfold detail_url. split.
    + intros H (a & Hb & Ht & Hc).
      destruct (xpath_descendant_complete (detail_tr s) a "a"
                  (Some (ContainsText (u "Details"))) Hb) as (m & Hin & _).
      { unfold selects. cbn [tag_of where_ holds elem]. rewrite Hc. apply andb_true_iff. split; [|reflexivity].
        now apply String.eqb_eq. }
      destruct (xpath _ _) as [|m' l]; [contradiction|]. cbn [index nth_error bind Return] in H.
      unfold attr in H. destruct (lookup_attr _ _); discriminate.
    + intros H. destruct (xpath _ _) as [|m l] eqn:Hx; [reflexivity|]. exfalso. apply H.
      assert (Hin : In m (xpath (detail_tr s)
                            (Path Descendant "a" (Some (ContainsText (u "Details"))))))
        by (rewrite Hx; now left).
      apply xpath_descendant in Hin as [Hb Hsel].
      unfold selects in Hsel. cbn [tag_of where_ holds elem] in Hsel. apply andb_true_iff in Hsel as [Ht Hc].
      exists (elem m). repeat split; [exact Hb | now apply String.eqb_eq | exact Hc].
  - intros e H. unfold detail_url in H.
    destruct (xpath _ _) as [|m l]; cbn [index nth_error bind Return Raise] in H; [left; now injection H|].
    unfold attr in H. destruct (lookup_attr _ _); cbn [bind Return Raise] in H; [discriminate|].
    right. now injection H.
Qed.

Lemma detail_fields_come_from_below_the_detail_row_witness :
  exists a href,
    below (elem (detail_tr (Sample.parser_of Sample.page 0))) a
    /\ lookup_attr (attrib a) "href" = Some href
    /\ u "http://www.suttonkersh.co.uk/lot/1" = u "http://www.suttonkersh.co.uk" ++ href.
Proof.
  destruct (detail_fields_come_from_below_the_detail_row (Sample.parser_of Sample.page 0))
    as (_ & H & _).
  destruct (H (u "http://www.suttonkersh.co.uk/lot/1")) as (a & href & Hb & _ & _ & Hh & Hu).
  { vm_compute. reflexivity. }
  exists a, href. repeat split; assumption.
Defined.

(** ** The sign and the errors of a price *)

Lemma binary_round_aux_nonneg (mx ex : Z) (lx : location) (z : Z) :
  int_of_float (binary_round_aux prec emax false mx ex lx) = Return z -> 0 <= z.
Proof.
  unfold binary_round_aux.
  destruct (shr_fexp prec emax mx ex lx) as [mrs' e'].
  destruct (shr_fexp prec emax _ e' loc_Exact) as [mrs'' e''].
  destruct (shr_m mrs'') as [|m|m]; cbn [int_of_float].
  - now intros [= <-].
  - destruct (e'' <=? emax - prec); cbn [int_of_float cond_Zopp]; [|discriminate].
    intros [= <-]. apply Z.shiftl_nonneg. lia.
  - discriminate.
Qed.

Lemma float_of_decimal_nonneg (m e z : Z) :
  int_of_float (float_of_decimal false m e) = Return z -> 0 <= z.
Proof.
  unfold float_of_decimal. destruct m as [|p|p]; try (now intros [= <-]).
  destruct (0 <=? e) eqn:He.
  - apply Z.leb_le in He. cbn [cond_Zopp].
    assert (Hpos : 0 < Z.pos p * 10 ^ e) by (apply Z.mul_pos_pos; [lia | apply Z.pow_pos_nonneg; lia]).
    destruct (Z.pos p * 10 ^ e) as [|q|q]; try lia.
    unfold binary_normalize, binary_round.
    destruct (shl_align _ _ _) as [mz ez]. apply binary_round_aux_nonneg.
  - unfold float_of_ratio.
    destruct (SFdiv_core_binary _ _ _ _ _ _) as [[q e'] l].
    apply binary_round_aux_nonneg.
Qed.

Lemma read_float_nonneg (s : list N) (f : float) (z : Z) :
  (forall y, s <> 45%N :: y) ->
  read_float s = Some f -> int_of_float f = Return z -> 0 <= z.
Proof.
  intros Hno. unfold read_float.
  assert (Hsign : fst (read_sign s) = false).
  { unfold read_sign. destruct s as [|c s']; [reflexivity|].
    destruct (N.eqb_spec c 45) as [->|_]; [now specialize (Hno s')|].
    now destruct (c =? 43)%N. }
  destruct (read_sign s) as [neg s0]. cbn [fst] in Hsign. subst neg.
  destruct (str_eqb (lower s0) (u "inf") || str_eqb (lower s0) (u "infinity")).
  - intros [= <-]. discriminate.
  - destruct (str_eqb (lower s0) (u "nan")); [intros [= <-]; discriminate|].
    destruct (span is_digit s0) as [ip s1].
    destruct (match s1 with
              | c :: s1' => if (c =? 46)%N then span is_digit s1' else ([], s1)
              | [] => ([], s1)
              end) as [fp s2].
    destruct (ip ++ fp) as [|d ds]; [discriminate|].
    destruct (read_exponent s2) as [ex s3].
    destruct s3; [|discriminate].
    intros [= <-]. apply float_of_decimal_nonneg.
Qed.

Lemma lstrip_ascii_In (s : list N) (c : N) : In c (lstrip_ascii s) -> In c s.
Proof.
  induction s as [|d s IH]; [auto|]. cbn [lstrip_ascii].
  destruct (is_ascii_space d); [intros H; right; exact (IH H) | auto].
Qed.

Lemma strip_ascii_In (s : list N) (c : N) : In c (strip_ascii s) -> In c s.
Proof.
  unfold strip_ascii. intros H. apply in_rev in H.
  apply lstrip_ascii_In in H. apply in_rev in H. exact (lstrip_ascii_In _ _ H).
Qed.

Lemma drop_underscores_In (prev : N) (s t : list N) (c : N) :
  drop_underscores prev s = Some t -> In c t -> In c s.
Proof.
  revert prev t. induction s as [|d s IH]; intros prev t; cbn [drop_underscores].
  - destruct (prev =? 95)%N; [discriminate|]. now intros [= <-].
  - destruct (d =? 95)%N.
    + destruct (is_digit prev); [|discriminate]. intros H Hin. right. exact (IH _ _ H Hin).
    + destruct ((prev =? 95)%N && negb (is_digit d)); [discriminate|].
      destruct (drop_underscores d s) as [t'|] eqn:Ht; [|discriminate].
      cbn [option_map]. intros [= <-] [<-|Hin]; [now left|].
      right. exact (IH _ _ Ht Hin).
Qed.

Lemma to_decimal_digit (c d : N) : to_decimal c = Some d -> (d <= 9)%N.
Proof.
  unfold to_decimal.
  destruct (List.find _ decimal_zeros) as [z|] eqn:Hz; [|discriminate].
  apply List.find_some in Hz. destruct Hz as [_ Hz].
  apply andb_true_iff in Hz as [H1 H2]. apply N.leb_le in H1, H2.
  intros [= <-]. lia.
Qed.

Lemma to_ascii_minus (s : list N) : In 45%N (to_ascii s) -> In 45%N s.
Proof.
  induction s as [|c s IH]; [auto|]. cbn [to_ascii].
  unfold to_ascii_char. destruct (c <? 127)%N.
  - intros [<-|H]; [now left | right; exact (IH H)].
  - destruct (is_space c).
    + intros [H|H]; [discriminate | right; exact (IH H)].
    + destruct (to_decimal c) as [d|] eqn:Hd; cbn [option_map].
      * apply to_decimal_digit in Hd. intros [H|H]; [lia | right; exact (IH H)].
      * intros [H|[]]. discriminate.
Qed.

Lemma strip_In (s : list N) (c : N) : In c (strip s) -> In c s.
Proof.
  intros H. destruct (strip_split s) as (w1 & w2 & Hs & _). rewrite Hs.
  apply in_or_app. right. apply in_or_app. now left.
Qed.

Lemma remove_char_In (d : N) (s : list N) (c : N) : In c (remove_char d s) -> In c s.
Proof. unfold remove_char. intros H. now apply List.filter_In in H. Qed.

(** A text without a minus sign has no negative price. *)
Lemma price_nonneg (s : list N) (z : Z) :
  ~ In 45%N s -> price s = Return z -> 0 <= z.
Proof.
  intros Hno H. unfold price in H. bind_inv H. rename a into f.
  unfold float_of_str in Ha.
  destruct (drop_underscores _ _) as [t|] eqn:Ht; [|discriminate].
  destruct (read_float (strip_ascii t)) as [f'|] eqn:Hf; [|discriminate].
  apply Return_inj in Ha. subst f'.
  apply (read_float_nonneg (strip_ascii t) f z); [|exact Hf | exact H].
  intros y Hy. apply Hno.
  apply (remove_char_In 44), strip_In, to_ascii_minus.
  apply (drop_underscores_In _ _ _ _ Ht), strip_ascii_In. rewrite Hy. now left.
Qed.

Lemma price_raises (s : list N) (e : exn) :
  price s = Raise e -> e = ValueError \/ e = OverflowError.
Proof.
  unfold price, float_of_str.
  destruct (drop_underscores _ _) as [t|]; [|intros [= <-]; now left].
  destruct (read_float _) as [f|]; [|intros [= <-]; now left].
  cbn [bind Return]. destruct f; cbn [int_of_float]; try discriminate.
  - intros [= <-]. now right.
  - intros [= <-]. now left.
Qed.

(** X5: the price parser raises nothing but [ValueError] and
    [OverflowError], and the price of a text without a minus sign is never
    negative. *)
Theorem price_sign_and_errors (s : list N) :
  (forall e, price s = Raise e -> e = ValueError \/ e = OverflowError)
  /\ (~ In 45%N s -> forall z, price s = Return z -> 0 <= z).
Proof.
  split; [apply price_raises|]. intros Hno z. now apply price_nonneg.
Qed.

Lemma price_sign_and_errors_witness :
  (exists z, price (u "15,400.75") = Return z /\ 0 <= z)
  /\ (exists e, price (u "1.2.3") = Raise e /\ (e = ValueError \/ e = OverflowError)).
Proof.
  destruct (price_sign_and_errors (u "15,400.75")) as [_ Hpos].
  destruct (price_sign_and_errors (u "1.2.3")) as [Herr _].
  split.
  - exists 15400. split; [vm_compute; reflexivity|].
    apply Hpos; [vm_compute; intuition discriminate | vm_compute; reflexivity].
  - exists ValueError. split; [vm_compute; reflexivity|].
    apply Herr. vm_compute. reflexivity.
Defined.

(** ** The guide prices and the income of a row *)

Lemma amount_no_minus (a : list N) :
  forallb (atom_ok digit_comma) a = true -> ~ In 45%N a.
Proof.
  intros H Hin. rewrite forallb_forall in H. specialize (H _ Hin). discriminate.
Qed.

Lemma income_text_no_minus (a : list N) :
  forallb (atom_ok digit_comma_dot) a = true -> ~ In 45%N a.
Proof.
  intros H Hin. rewrite forallb_forall in H. specialize (H _ Hin). discriminate.
Qed.

(** What the parse of a status can return. *)
Lemma parse_returns (s : self) (lo hi : option Z) :
  _parse_guide_price_range s = Return (lo, hi) ->
  (lo = None /\ hi = None)
  \/ (exists l h, lo = Some l /\ hi = Some h /\ 0 <= l /\ 0 <= h
        /\ forall st, status s = Return st -> re_match GUIDE_RANGE st = None -> l = h).
Proof.
  intros H. pose proof H as H'. unfold _parse_guide_price_range in H'.
  apply bind_Return in H'. destruct H' as (st & Hst & _).
  rewrite (parse_of_status s st Hst) in H.
  destruct (re_match GUIDE_RANGE st) as [m|] eqn:Hr.
  - pose proof Hr as Hsome. apply guide_range_sound in Hr.
    destruct Hr as (low & mid & high & tail & _ & [_ Alow] & _ & _ & [_ Ahigh] & _ & ->).
    cbn [group String.eqb Ascii.eqb Bool.eqb] in H.
    bind_inv H. bind_inv H. apply Return_inj in H. injection H as <- <-.
    right. exists a, a0. repeat split.
    + exact (price_nonneg low a (amount_no_minus low Alow) Ha).
    + exact (price_nonneg high a0 (amount_no_minus high Ahigh) Ha0).
    + intros st' Hst' Hnone. rewrite Hst in Hst'. apply Return_inj in Hst'. subst st'.
      rewrite Hsome in Hnone. discriminate.
  - destruct (re_match GUIDE_PLUS st) as [m|] eqn:Hp.
    + apply guide_plus_sound in Hp. destruct Hp as (p & tail & _ & [_ Ap] & _ & ->).
      cbn [group String.eqb Ascii.eqb Bool.eqb] in H.
      bind_inv H. apply Return_inj in H. injection H as <- <-.
      right. exists a, a. repeat split; try exact (price_nonneg p a (amount_no_minus p Ap) Ha).
    + apply Return_inj in H. injection H as <- <-. now left.
Qed.

(** X6: the two guide prices go together: one is read exactly when the
    other is, and then both are [None] or both are numbers, neither of them
    negative; they are the same number unless the status matched the range
    pattern. *)
Theorem guide_prices_go_together (s : self) :
  (returns (guide_price_low s) <-> returns (guide_price_high s))
  /\ (forall lo hi,
        guide_price_low s = Return lo -> guide_price_high s = Return hi ->
        (lo = None /\ hi = None)
        \/ (exists l h, lo = Some l /\ hi = Some h /\ 0 <= l /\ 0 <= h
              /\ forall st, status s = Return st ->
                   re_match GUIDE_RANGE st = None -> l = h)).
Proof.
  unfold guide_price_low, guide_price_high. split.
  - split; intros [v Hv]; bind_inv Hv; rewrite Ha; eexists; reflexivity.
  - intros lo hi Hlo Hhi. bind_inv Hlo. rewrite Ha in Hhi.
    apply Return_inj in Hlo. apply Return_inj in Hhi. subst lo hi.
    destruct a as [lo hi]. exact (parse_returns s lo hi Ha).
Qed.

Lemma guide_prices_go_together_witness :
  exists l h, Some 100000 = Some l /\ Some 120000 = Some h /\ 0 <= l /\ 0 <= h.
Proof.
  destruct (guide_prices_go_together (Sample.parser_of Sample.page 0)) as [_ H].
  destruct (H (Some 100000) (Some 120000)) as [[H1 _] | (l & h & Hl & Hh & Hl0 & Hh0 & _)];
    [vm_compute; reflexivity | vm_compute; reflexivity | discriminate |].
  exists l, h. repeat split; assumption.
Defined.

(** X7: an income is reported only for a description that has the flag
    and holds "£{amount} per annum"; it is the price of that amount, and it
    is never negative. *)
Theorem income_comes_from_the_description (s : self) (v : Z) :
  ast_annual_income s = Return (Some v) ->
  has_assured_shorthold_tenancy s = Return true
  /\ 0 <= v
  /\ exists d pre a post,
       description s = Return d
       /\ d = pre ++ [163%N] ++ a ++ u " per annum" ++ post
       /\ income_text a
       /\ price a = Return v.
Proof.
  unfold ast_annual_income. intros H. bind_inv H. rename a into flag.
  destruct flag; cbn [negb] in H; [|discriminate].
  split; [exact Ha|]. bind_inv H. rename a into d.
  destruct (re_search PER_ANNUM d) as [m|] eqn:Hs; [|discriminate].
  apply re_search_some in Hs. destruct Hs as (pre & s' & -> & Hm & _).
  apply per_annum_match in Hm. destruct Hm as (a & post & -> & Hinc & ->).
  cbn [group String.eqb Ascii.eqb Bool.eqb] in H. bind_inv H.
  apply Return_inj in H. injection H as <-.
  split; [exact (price_nonneg a a0 (income_text_no_minus a (proj2 Hinc)) Ha1)|].
  exists (pre ++ [163%N] ++ a ++ u " per annum" ++ post), pre, a, post.
  repeat split; try assumption; apply Hinc.
Qed.

Lemma income_comes_from_the_description_witness :
  has_assured_shorthold_tenancy (Sample.parser_of Sample.page 0) = Return true
  /\ 0 <= 15400.
Proof.
  destruct (income_comes_from_the_description (Sample.parser_of Sample.page 0) 15400)
    as (Hflag & Hpos & _); [vm_compute; reflexivity|].
  split; assumption.
Defined.

(** ** Floats that rounding gives *)

Lemma Zdigits2_nonneg (m : Z) : 0 <= Zdigits2 m.
Proof. destruct m; simpl; lia. Qed.

Lemma Zdigits2_pos (m : Z) : 0 <= m -> (0 < m <-> 0 < Zdigits2 m).
Proof. destruct m; simpl; lia. Qed.

(** One step to the right takes one digit off. *)
Lemma shr_1_digits (mrs : shr_record) :
  0 <= shr_m mrs ->
  0 <= shr_m (shr_1 mrs)
  /\ Zdigits2 (shr_m (shr_1 mrs)) = Z.max 0 (Zdigits2 (shr_m mrs) - 1).
Proof.
  destruct mrs as [m r s]. cbn [shr_m]. intros Hm.
  destruct m as [|[p|p|]|p]; cbn [shr_1 shr_m Zdigits2 digits2_pos]; lia.
Qed.

Lemma iter_shr_1_digits (p : positive) (mrs : shr_record) :
  0 <= shr_m mrs ->
  0 <= shr_m (SpecFloat.iter_pos shr_1 p mrs)
  /\ Zdigits2 (shr_m (SpecFloat.iter_pos shr_1 p mrs)) = Z.max 0 (Zdigits2 (shr_m mrs) - Zpos p).
Proof.
  revert mrs. induction p as [p IH|p IH|]; intros mrs Hm; cbn [SpecFloat.iter_pos].
  - destruct (shr_1_digits mrs Hm) as [H1 D1].
    destruct (IH _ H1) as [H2 D2]. destruct (IH _ H2) as [H3 D3].
    split; [exact H3|]. rewrite D3, D2, D1. lia.
  - destruct (IH _ Hm) as [H2 D2]. destruct (IH _ H2) as [H3 D3].
    split; [exact H3|]. rewrite D3, D2. lia.
  - exact (shr_1_digits mrs Hm).
Qed.

Lemma shr_m_of_loc (m : Z) (l : location) : shr_m (shr_record_of_loc m l) = m.
Proof. destruct l as [|[]]; reflexivity. Qed.

(** Moving a mantissa to its place: what is left has at most 53 digits,
    and at least one when the exponent was not below the least one. *)
Lemma shr_fexp_digits (m e : Z) (l : location) :
  0 <= m ->
  0 <= shr_m (fst (shr_fexp prec emax m e l))
  /\ Zdigits2 (shr_m (fst (shr_fexp prec emax m e l))) <= 53
  /\ e <= snd (shr_fexp prec emax m e l)
  /\ (Zdigits2 m <= 53 -> -1074 <= e -> shr_fexp prec emax m e l = (shr_record_of_loc m l, e))
  /\ (53 < Zdigits2 m -> -1074 <= e ->
        snd (shr_fexp prec emax m e l) = Zdigits2 m + e - 53
        /\ Zdigits2 (shr_m (fst (shr_fexp prec emax m e l))) = 53)
  /\ (0 < m -> -1074 <= e -> 0 < shr_m (fst (shr_fexp prec emax m e l))).
Proof.
  intros Hm. unfold shr_fexp, fexp, emin, prec, emax.
  pose proof (Zdigits2_nonneg m) as Hd.
  pose proof (Zdigits2_pos m Hm) as Hp.
  set (n := Z.max (Zdigits2 m + e - 53) (3 - 1024 - 53) - e).
  assert (Hn : n = Z.max (Zdigits2 m + e - 53) (3 - 1024 - 53) - e) by reflexivity.
  clearbody n. unfold shr.
  destruct n as [|p|p]; cbn [fst snd].
  - rewrite shr_m_of_loc. repeat split; intros; try lia; f_equal; lia.
  - destruct (iter_shr_1_digits p (shr_record_of_loc m l)) as [H1 D1];
      [rewrite shr_m_of_loc; exact Hm|].
    rewrite shr_m_of_loc in D1.
    repeat split; intros; try lia.
    apply Zdigits2_pos; [exact H1|]. lia.
  - rewrite shr_m_of_loc. repeat split; intros; try lia; f_equal; lia.
Qed.

Lemma round_nearest_even_bounds (m : Z) (l : location) :
  m <= round_nearest_even m l <= m + 1.
Proof. destruct l as [|[]]; cbn [round_nearest_even]; try destruct (Z.even m); lia. Qed.

(** Rounding what is above zero, at an exponent that is not below the
    least one, never gives zero. *)
Lemma binary_round_aux_not_zero (sx : bool) (m e : Z) (l : location) :
  0 < m -> -1074 <= e -> is_zero (binary_round_aux prec emax sx m e l) = false.
Proof.
  intros Hm He. unfold binary_round_aux.
  destruct (shr_fexp_digits m e l ltac:(lia)) as (H0 & _ & He1 & _ & _ & Hpos).
  specialize (Hpos Hm He).
  destruct (shr_fexp prec emax m e l) as [mrs' e']. cbn [fst snd] in *.
  pose proof (round_nearest_even_bounds (shr_m mrs') (loc_of_shr_record mrs')) as Hr.
  destruct (shr_fexp_digits (round_nearest_even (shr_m mrs') (loc_of_shr_record mrs')) e' loc_Exact
              ltac:(lia)) as (_ & _ & _ & _ & _ & Hpos2).
  specialize (Hpos2 ltac:(lia) ltac:(lia)).
  destruct (shr_fexp prec emax _ e' loc_Exact) as [mrs'' e'']. cbn [fst] in Hpos2.
  destruct (shr_m mrs'') as [|q|q]; try lia.
  destruct (e'' <=? emax - prec); reflexivity.
Qed.

Lemma shl_align_exponent (p : positive) (e e' : Z) :
  Z.min e e' <= snd (shl_align p e e').
Proof. unfold shl_align. destruct (e' - e) eqn:H; cbn [snd]; lia. Qed.

(** The float of an int other than zero is not zero. *)
Lemma float_of_Z_not_zero (n : Z) : n <> 0 -> is_zero (float_of_Z n) = false.
Proof.
  intros Hn. unfold float_of_Z, binary_normalize.
  destruct n as [|p|p]; [contradiction| |]; unfold binary_round;
    pose proof (shl_align_exponent p 0 (fexp prec emax (Z.pos (digits2_pos p) + 0))) as Hs;
    destruct (shl_align _ _ _) as [mz ez]; cbn [snd] in Hs;
    apply binary_round_aux_not_zero; try lia;
    unfold fexp, emin, prec, emax in Hs; lia.
Qed.

Lemma float_of_int_not_zero (n : Z) (f : float) :
  float_of_int n = Return f -> n <> 0 -> is_zero f = false.
Proof.
  unfold float_of_int. intros H Hn. pose proof (float_of_Z_not_zero n Hn) as Hz.
  destruct (float_of_Z n); try discriminate; apply Return_inj in H; subst f; exact Hz.
Qed.

(** ** What a division raises *)

Lemma int_truediv_raises (a b : Z) (e : exn) :
  int_truediv a b = Raise e ->
  (e = ZeroDivisionError /\ b = 0) \/ e = OverflowError.
Proof.
  unfold int_truediv. destruct b as [|b|b]; [intros [= <-]; now left| |];
    (destruct a as [|a|a]; [discriminate| |]);
    destruct (float_of_ratio _ _ _); try discriminate; intros [= <-]; now right.
Qed.

Lemma float_of_int_raises (n : Z) (e : exn) :
  float_of_int n = Raise e -> e = OverflowError.
Proof.
  unfold float_of_int. destruct (float_of_Z n); try discriminate. now intros [= <-].
Qed.

(** The three errors of a division; by zero only when the divisor is
    false as a truth value. *)
Lemma truediv_raises (x y : value) (e : exn) :
  truediv x y = Raise e ->
  e = TypeError \/ e = OverflowError
  \/ (e = ZeroDivisionError /\ truthy y = false).
Proof.
  assert (Hii : forall a b, truthy y = negb (b =? 0) ->
                  bind (int_truediv a b) (fun f => Return (VFloat f)) = Raise e ->
                  e = TypeError \/ e = OverflowError
                  \/ (e = ZeroDivisionError /\ truthy y = false)).
  { intros a b Hy H. destruct (int_truediv a b) as [e'|f] eqn:Hd; [|discriminate].
    injection H as <-. destruct (int_truediv_raises a b e' Hd) as [[-> ->] | ->]; [|tauto].
    right. right. split; [reflexivity | exact Hy]. }
  assert (Hff : forall (mx my : result float),
             (forall e', mx = Raise e' -> e' = OverflowError) ->
             (forall e', my = Raise e' -> e' = OverflowError) ->
             (forall fy, my = Return fy -> is_zero fy = true -> truthy y = false) ->
             bind mx (fun fx => bind my (fun fy =>
               bind (float_truediv fx fy) (fun f => Return (VFloat f)))) = Raise e ->
             e = TypeError \/ e = OverflowError
             \/ (e = ZeroDivisionError /\ truthy y = false)).
  { intros mx my Hx Hy Hz H.
    destruct mx as [ex|fx]; [injection H as <-; right; left; now apply Hx|].
    destruct my as [ey|fy]; [injection H as <-; right; left; now apply Hy|].
    cbn [bind] in H. unfold float_truediv in H.
    destruct (is_zero fy) eqn:Hfy; [|discriminate]. injection H as <-.
    right. right. split; [reflexivity | exact (Hz fy eq_refl Hfy)]. }
  assert (Hint : forall n fy, float_of_int n = Return fy -> is_zero fy = true -> n = 0).
  { intros n fy Hn Hfy. destruct (Z.eq_dec n 0) as [|Hne]; [assumption|].
    rewrite (float_of_int_not_zero n fy Hn Hne) in Hfy. discriminate. }
  destruct x as [|bx|nx|fx|sx], y as [|by_|ny|fy|sy]; cbn [truediv];
    try (intros [= <-]; tauto).
  - apply Hii. now destruct by_.
  - apply Hii. reflexivity.
  - apply Hff; [apply float_of_int_raises | discriminate |].
    intros fy' [= <-] Hz. cbn [truthy]. now rewrite Hz.
  - apply Hii. now destruct by_.
  - apply Hii. reflexivity.
  - apply Hff; [apply float_of_int_raises | discriminate |].
    intros fy' [= <-] Hz. cbn [truthy]. now rewrite Hz.
  - apply Hff; [discriminate | apply float_of_int_raises |].
    intros fy' Hfy Hz. apply Hint in Hfy; [|exact Hz]. now destruct by_.
  - apply Hff; [discriminate | apply float_of_int_raises |].
    intros fy' Hfy Hz. apply Hint in Hfy; [|exact Hz]. subst ny. reflexivity.
  - apply Hff; [discriminate | discriminate |].
    intros fy' [= <-] Hz. cbn [truthy]. now rewrite Hz.
Qed.

Lemma truediv_float_divisor (x : value) (f : float) (e : exn) :
  is_zero f = false -> truediv x (VFloat f) = Raise e ->
  e = TypeError \/ e = OverflowError.
Proof.
  intros Hf H. destruct (truediv_raises _ _ _ H) as [?|[?|[_ Hz]]]; [tauto | tauto |].
  cbn [truthy] in Hz. rewrite Hf in Hz. discriminate.
Qed.

(** X8: the calculation step raises [KeyError] exactly on a row without
    one of the two fields that it reads; whatever the row holds, it raises
    nothing but [KeyError], [TypeError] and [OverflowError]: no division
    by zero is reached, as each divisor is a rate or was tested to be true. *)
Theorem calculation_errors (r : row) :
  (add_calculations r = Raise KeyError
   <-> r !! "ast_annual_income" = None \/ r !! "guide_price_high" = None)
  /\ (forall e, add_calculations r = Raise e ->
        e = KeyError \/ e = TypeError \/ e = OverflowError).
Proof.
  assert (Hall : forall e, add_calculations r = Raise e ->
             (e = KeyError /\ (r !! "ast_annual_income" = None \/ r !! "guide_price_high" = None))
             \/ e = TypeError \/ e = OverflowError).
  { intros e. unfold add_calculations, getitem.
    destruct (r !! "ast_annual_income") as [iv|]; [|intros [= <-]; tauto].
    destruct (r !! "guide_price_high") as [gv|]; [|intros [= <-]; tauto].
    cbv beta iota delta [bind Return]. destruct (truthy iv) eqn:Hiv; [|discriminate].
    intros H. right.
    destruct (truediv iv (VFloat rate_10)) as [e1|p10] eqn:H1;
      [injection H as <-; exact (truediv_float_divisor _ _ _ rate_10_not_zero H1)|].
    destruct (truediv iv (VFloat rate_12_5)) as [e1|p12] eqn:H2;
      [injection H as <-; exact (truediv_float_divisor _ _ _ rate_12_5_not_zero H2)|].
    destruct (truediv iv (VFloat rate_15)) as [e1|p15] eqn:H3;
      [injection H as <-; exact (truediv_float_divisor _ _ _ rate_15_not_zero H3)|].
    destruct (truediv iv (VFloat rate_20)) as [e1|p20] eqn:H4;
      [injection H as <-; exact (truediv_float_divisor _ _ _ rate_20_not_zero H4)|].
    cbn [bind] in H. destruct (truthy gv); cbn [bind] in H; [|discriminate].
    destruct (truediv gv iv) as [e1|q] eqn:H5.
    - injection H as <-. destruct (truediv_raises _ _ _ H5) as [?|[?|[_ Hz]]]; [tauto | tauto |].
      rewrite Hiv in Hz. discriminate.
    - cbn [bind] in H. destruct (truediv q (VInt 100)) as [e1|y] eqn:H6; [|discriminate].
      injection H as <-. destruct (truediv_raises _ _ _ H6) as [?|[?|[_ Hz]]]; [tauto | tauto |].
      discriminate. }
  split; [split|].
  - intros H. destruct (Hall _ H) as [[_ ?]|[?|?]]; [assumption | discriminate | discriminate].
  - unfold add_calculations, getitem. intros [-> | Hg]; [reflexivity|].
    rewrite Hg. now destruct (r !! "ast_annual_income").
  - intros e H. destruct (Hall e H) as [[? _]|[?|?]]; tauto.
Qed.

(** ** Ints that floats hold *)

Lemma shr_1_exact (x : Z) :
  0 <= x -> shr_1 (Build_shr_record (2 * x) false false) = Build_shr_record x false false.
Proof. destruct x as [|q|q]; [reflexivity | reflexivity | lia]. Qed.

(** Moving right over zeros loses nothing. *)
Lemma iter_shr_1_exact (k : positive) (x : Z) :
  0 <= x ->
  SpecFloat.iter_pos shr_1 k (Build_shr_record (2 ^ Zpos k * x) false false)
  = Build_shr_record x false false.
Proof.
  revert x. induction k as [k IH|k IH|]; intros x Hx; cbn [SpecFloat.iter_pos].
  - assert (H2 : 0 <= 2 ^ Z.pos k * x) by (apply Z.mul_nonneg_nonneg; lia).
    assert (H3 : 0 <= 2 ^ Z.pos k * (2 ^ Z.pos k * x)) by (apply Z.mul_nonneg_nonneg; lia).
    replace (2 ^ Z.pos k~1 * x) with (2 * (2 ^ Z.pos k * (2 ^ Z.pos k * x))).
    + rewrite shr_1_exact by exact H3. rewrite IH by exact H2. apply IH. exact Hx.
    + replace (Z.pos k~1) with (Z.pos k + Z.pos k + 1) by lia.
      rewrite !Z.pow_add_r, Z.pow_1_r by lia. ring.
  - assert (H2 : 0 <= 2 ^ Z.pos k * x) by (apply Z.mul_nonneg_nonneg; lia).
    replace (2 ^ Z.pos k~0 * x) with (2 ^ Z.pos k * (2 ^ Z.pos k * x)).
    + rewrite IH by exact H2. apply IH. exact Hx.
    + replace (Z.pos k~0) with (Z.pos k + Z.pos k) by lia.
      rewrite !Z.pow_add_r by lia. ring.
  - rewrite Z.pow_1_r. apply shr_1_exact. exact Hx.
Qed.

Lemma Zdigits2_bounds (m : Z) :
  0 < m -> 2 ^ (Zdigits2 m - 1) <= m < 2 ^ Zdigits2 m.
Proof. destruct m as [|p|p]; try lia. intros _. exact (digits2_pos_bounds p). Qed.

Lemma Zdigits2_le (m k : Z) : 0 <= m < 2 ^ k -> 0 <= k -> Zdigits2 m <= k.
Proof.
  intros [H0 Hm] Hk. destruct (Z.eq_dec m 0) as [->|Hne]; [exact Hk|].
  destruct (Zdigits2_bounds m ltac:(lia)) as [Hlo _].
  destruct (Z_le_gt_dec (Zdigits2 m) k) as [|Hgt]; [assumption|].
  assert (2 ^ k <= 2 ^ (Zdigits2 m - 1)) by (apply Z.pow_le_mono_r; lia). lia.
Qed.


Lemma binary_round_aux_within (sx : bool) (m e : Z) (l : location) :
  0 <= m -> within (binary_round_aux prec emax sx m e l).
Proof.
  intros Hm. unfold binary_round_aux.
  destruct (shr_fexp_digits m e l Hm) as (H0 & _).
  destruct (shr_fexp prec emax m e l) as [mrs' e']. cbn [fst] in H0.
  pose proof (round_nearest_even_bounds (shr_m mrs') (loc_of_shr_record mrs')) as Hr.
  destruct (shr_fexp_digits (round_nearest_even (shr_m mrs') (loc_of_shr_record mrs')) e' loc_Exact
              ltac:(lia)) as (_ & Hd & _).
  destruct (shr_fexp prec emax _ e' loc_Exact) as [mrs'' e'']. cbn [fst] in Hd.
  destruct (shr_m mrs'') as [|q|q]; cbn [within]; try exact I.
  destruct (e'' <=? emax - prec) eqn:He; cbn [within]; [|exact I].
  apply Z.leb_le in He. unfold emax, prec in He. cbn [Zdigits2] in Hd. lia.
Qed.

Lemma float_of_decimal_within (neg : bool) (m e : Z) : within (float_of_decimal neg m e).
Proof.
  unfold float_of_decimal. destruct m as [|p|p]; try exact I.
  destruct (0 <=? e).
  - unfold binary_normalize. destruct (cond_Zopp neg (Z.pos p * 10 ^ e)); [exact I| |];
      unfold binary_round; destruct (shl_align _ _ _) as [mz ez];
      apply binary_round_aux_within; lia.
  - unfold float_of_ratio. 
    destruct (SFdiv_core_binary _ _ _ _ _ _) as [[q e'] l] eqn:Hd.
    apply binary_round_aux_within.
    unfold SFdiv_core_binary in Hd.
    destruct (Z.div_eucl _ _) as [q' r'] eqn:Hq in Hd. injection Hd as <- _ _.
    match type of Hq with Z.div_eucl ?a ?b = _ =>
      assert (Hqa : q' = a / b) by (unfold Z.div; rewrite Hq; reflexivity);
      assert (Ha : 0 <= a)
    end.
    { destruct (_ - _ - _); try lia. apply Z.shiftl_nonneg. lia. }
    rewrite Hqa. apply Z.div_pos; lia.
Qed.

Lemma read_float_within (s : list N) (f : float) : read_float s = Some f -> within f.
Proof.
  unfold read_float. destruct (read_sign s) as [neg s0].
  destruct (str_eqb (lower s0) (u "inf") || str_eqb (lower s0) (u "infinity")).
  - intros [= <-]. exact I.
  - destruct (str_eqb (lower s0) (u "nan")); [intros [= <-]; exact I|].
    destruct (span is_digit s0) as [ip s1].
    destruct (match s1 with
              | c :: s1' => if (c =? 46)%N then span is_digit s1' else ([], s1)
              | [] => ([], s1)
              end) as [fp s2].
    destruct (ip ++ fp) as [|d ds]; [discriminate|].
    destruct (read_exponent s2) as [ex s3].
    destruct s3; [|discriminate].
    intros [= <-]. apply float_of_decimal_within.
Qed.

Lemma int_of_float_held (f : float) (n : Z) :
  within f -> int_of_float f = Return n -> held n.
Proof.
  destruct f as [s| | |s m e]; cbn [int_of_float within]; try discriminate.
  - intros _ [= <-]. exists 0, 0. cbn. lia.
  - intros [Hd He] [= <-].
    assert (Hm : Zpos m < 2 ^ 53).
    { destruct (digits2_pos_bounds m) as [_ Hhi].
      assert (2 ^ Zpos (digits2_pos m) <= 2 ^ 53) by (apply Z.pow_le_mono_r; lia). lia. }
    assert (Habs : Z.abs (cond_Zopp s (Z.shiftl (Z.pos m) e)) = Z.shiftl (Z.pos m) e).
    { pose proof (Z.shiftl_nonneg (Z.pos m) e). destruct s; cbn [cond_Zopp]; lia. }
    unfold held. rewrite Habs. destruct (Z_le_gt_dec 0 e) as [Hpos|Hneg].
    + exists (Zpos m), e. rewrite Z.shiftl_mul_pow2 by lia. lia.
    + exists (Z.shiftl (Zpos m) e), 0. split; [lia|]. split; [|cbn; lia].
      replace e with (- (- e)) by lia.
      rewrite Z.shiftl_opp_r, Z.shiftr_div_pow2 by lia. split.
      * apply Z.div_pos; [lia | apply Z.pow_pos_nonneg; lia].
      * apply Z.le_lt_trans with (Z.pos m); [|exact Hm].
        apply Z.div_le_upper_bound; [apply Z.pow_pos_nonneg; lia|].
        assert (0 < 2 ^ (- e)) by (apply Z.pow_pos_nonneg; lia). nia.
Qed.

(** Every price is an int that a float holds. *)
Lemma price_held (s : list N) (n : Z) : price s = Return n -> held n.
Proof.
  intros H. unfold price in H. bind_inv H. rename a into f.
  unfold float_of_str in Ha.
  destruct (drop_underscores _ _) as [t|]; [|discriminate].
  destruct (read_float (strip_ascii t)) as [f'|] eqn:Hf; [|discriminate].
  apply Return_inj in Ha. subst f'.
  exact (int_of_float_held f n (read_float_within _ _ Hf) H).
Qed.

(** A mantissa that ends in enough zeros is moved to its place without
    loss. *)
Lemma shr_fexp_exact (M T X e : Z) :
  M = 2 ^ T * X -> 0 <= T -> 0 < X < 2 ^ 53 -> -1074 <= e ->
  exists x, shr_fexp prec emax M e loc_Exact
            = (Build_shr_record x false false, Z.max e (Zdigits2 M + e - 53))
            /\ 0 < x /\ Zdigits2 x <= 53.
Proof.
  intros HM HT HX He.
  assert (HT2 : 0 < 2 ^ T) by (apply Z.pow_pos_nonneg; lia).
  assert (HM0 : 0 < M) by (subst M; apply Z.mul_pos_pos; lia).
  destruct (Zdigits2_bounds M HM0) as [Hlo Hhi].
  pose proof (Zdigits2_nonneg M) as Hd0.
  unfold shr_fexp, fexp, emin, prec, emax. cbn [shr_record_of_loc].
  destruct (Z_le_gt_dec (Zdigits2 M) 53) as [Hd|Hd].
  - exists M. replace (Z.max e (Zdigits2 M + e - 53)) with e by lia.
    split; [|lia].
    destruct (Z.max (Zdigits2 M + e - 53) (3 - 1024 - 53) - e) eqn:Hn; try lia; reflexivity.
  - assert (HdT : Zdigits2 M <= T + 53).
    { apply Zdigits2_le; [|lia]. split; [lia|]. rewrite Z.pow_add_r by lia. subst M. nia. }
    destruct (Z.max (Zdigits2 M + e - 53) (3 - 1024 - 53) - e) as [|k|k] eqn:Hn; try lia.
    assert (Hk : Zpos k = Zdigits2 M - 53) by lia.
    exists (2 ^ (T - Zpos k) * X).
    assert (HTk : 0 < 2 ^ (T - Zpos k)) by (apply Z.pow_pos_nonneg; lia).
    assert (HMk : M = 2 ^ Zpos k * (2 ^ (T - Zpos k) * X)).
    { rewrite Z.mul_assoc, <- Z.pow_add_r by lia. rewrite HM. do 2 f_equal. lia. }
    split; [|split].
    + cbn [shr]. rewrite HMk at 1. rewrite iter_shr_1_exact by nia. f_equal. lia.
    + nia.
    + apply Zdigits2_le; [|lia]. split; [nia|].
      assert (Hp : 2 ^ Zdigits2 M = 2 ^ Zpos k * 2 ^ 53).
      { rewrite <- Z.pow_add_r by lia. f_equal. lia. }
      assert (Hk2 : 0 < 2 ^ Zpos k) by (apply Z.pow_pos_nonneg; lia).
      rewrite Hp, HMk in Hhi. nia.
Qed.

(** Rounding what needs no rounding, within the range: a finite float. *)
Lemma binary_round_aux_finite (sx : bool) (M T X e : Z) :
  M = 2 ^ T * X -> 0 <= T -> 0 < X < 2 ^ 53 -> -1074 <= e <= 971 ->
  Zdigits2 M + e <= 1024 ->
  exists q e', binary_round_aux prec emax sx M e loc_Exact = S754_finite sx q e'.
Proof.
  intros HM HT HX He Hd.
  destruct (shr_fexp_exact M T X e HM HT HX ltac:(lia)) as (x & Hs & Hx & Hdx).
  unfold binary_round_aux. rewrite Hs.
  cbn [shr_m loc_of_shr_record round_nearest_even].
  destruct (shr_fexp_digits x (Z.max e (Zdigits2 M + e - 53)) loc_Exact ltac:(lia))
    as (_ & _ & _ & Hsame & _).
  rewrite (Hsame Hdx ltac:(lia)). cbn [shr_record_of_loc shr_m].
  destruct x as [|q|q]; try lia.
  exists q, (Z.max e (Zdigits2 M + e - 53)).
  replace (Z.max e (Zdigits2 M + e - 53) <=? emax - prec) with true; [reflexivity|].
  symmetry. apply Z.leb_le. unfold emax, prec. lia.
Qed.

(** Rounding what is well below the range: no infinity. *)
Lemma binary_round_aux_no_overflow (sx s' : bool) (q e : Z) (l : location) :
  0 <= q -> -1074 <= e <= 970 -> Zdigits2 q + e <= 1023 ->
  binary_round_aux prec emax sx q e l <> S754_infinity s'.
Proof.
  intros Hq He Hd. unfold binary_round_aux.
  destruct (shr_fexp_digits q e l Hq) as (H0 & Hd1 & He1 & Hsame & Hmove & _).
  destruct (shr_fexp prec emax q e l) as [mrs' e1] eqn:Hs1. cbn [fst snd] in *.
  assert (He1' : e1 <= 970).
  { destruct (Z_le_gt_dec (Zdigits2 q) 53) as [Hle|Hgt].
    - specialize (Hsame Hle ltac:(lia)). injection Hsame as _ <-. lia.
    - destruct (Hmove ltac:(lia) ltac:(lia)) as [-> _]. lia. }
  pose proof (round_nearest_even_bounds (shr_m mrs') (loc_of_shr_record mrs')) as Hr.
  set (m1 := round_nearest_even (shr_m mrs') (loc_of_shr_record mrs')) in *.
  assert (Hm1 : Zdigits2 m1 <= 54).
  { apply Zdigits2_le; [|lia]. split; [lia|].
    assert (shr_m mrs' < 2 ^ 53).
    { destruct (Z.eq_dec (shr_m mrs') 0) as [->|Hne]; [reflexivity|].
      destruct (Zdigits2_bounds (shr_m mrs') ltac:(lia)) as [_ Hhi].
      assert (2 ^ Zdigits2 (shr_m mrs') <= 2 ^ 53) by (apply Z.pow_le_mono_r; lia). lia. }
    change (2 ^ 54) with (2 * 2 ^ 53). lia. }
  destruct (shr_fexp_digits m1 e1 loc_Exact ltac:(lia)) as (_ & _ & _ & Hsame2 & Hmove2 & _).
  destruct (shr_fexp prec emax m1 e1 loc_Exact) as [mrs'' e2] eqn:Hs2. cbn [fst snd] in *.
  assert (He2 : e2 <= 971).
  { destruct (Z_le_gt_dec (Zdigits2 m1) 53) as [Hle|Hgt].
    - specialize (Hsame2 Hle ltac:(lia)). injection Hsame2 as _ <-. lia.
    - destruct (Hmove2 ltac:(lia) ltac:(lia)) as [-> _]. lia. }
  destruct (shr_m mrs''); try discriminate.
  replace (e2 <=? emax - prec) with true; [discriminate|].
  symmetry. apply Z.leb_le. unfold emax, prec. lia.
Qed.

Lemma held_pos (n : Z) :
  held n -> n <> 0 ->
  exists T X, Z.abs n = 2 ^ T * X /\ 0 <= T <= 971 /\ 0 < X < 2 ^ 53
              /\ Z.abs n < 2 ^ 1024.
Proof.
  intros (m & t & Ht & Hm & Hn) Hne. exists t, m.
  assert (0 < 2 ^ t) by (apply Z.pow_pos_nonneg; lia).
  assert (Hm0 : 0 < m) by nia.
  repeat split; try lia.
  assert (2 ^ t <= 2 ^ 971) by (apply Z.pow_le_mono_r; lia).
  change (2 ^ 1024) with (2 ^ 971 * 2 ^ 53). nia.
Qed.

Lemma binary_round_finite (sx : bool) (p : positive) :
  held (Zpos p) -> exists q e, binary_round prec emax sx p 0 = S754_finite sx q e.
Proof.
  intros Hh. destruct (held_pos _ Hh ltac:(lia)) as (T & X & HTX & HT & HX & Hlt).
  change (Z.abs (Z.pos p)) with (Z.pos p) in HTX, Hlt.
  assert (Hd : Zpos (digits2_pos p) <= 1024)
    by (apply (Zdigits2_le (Zpos p)); lia).
  unfold binary_round, shl_align, fexp, emin, prec, emax.
  destruct (Z.max (Z.pos (digits2_pos p) + 0 - 53) (3 - 1024 - 53) - 0) as [|k|k] eqn:Hk.
  - apply (binary_round_aux_finite sx (Zpos p) T X 0); try lia. cbn [Zdigits2]. lia.
  - apply (binary_round_aux_finite sx (Zpos p) T X 0); try lia. cbn [Zdigits2]. lia.
  - rewrite Z.add_0_r.
    apply (binary_round_aux_finite sx _ (T + Zpos k) X); try lia.
    + rewrite iter_xO_pow2, HTX, Z.pow_add_r by lia. ring.
    + cbn [Zdigits2]. rewrite digits2_pos_iter_xO. lia.
Qed.

(** An int that a float holds has a float. *)
Lemma float_of_int_held (n : Z) : held n -> exists f, float_of_int n = Return f.
Proof.
  intros Hh. unfold float_of_int, float_of_Z, binary_normalize.
  destruct n as [|p|p].
  - eexists. reflexivity.
  - destruct (binary_round_finite false p Hh) as (q & e & ->). eexists. reflexivity.
  - assert (Hp : held (Zpos p)) by exact Hh.
    destruct (binary_round_finite true p Hp) as (q & e & ->). eexists. reflexivity.
Qed.

Lemma div_eucl_div (a b q r : Z) : Z.div_eucl a b = (q, r) -> q = a / b /\ r = a mod b.
Proof. intros H. unfold Z.div, Z.modulo. rewrite H. split; reflexivity. Qed.

(** The quotient of two such ints, the divisor not zero, has a float. *)
Lemma float_of_ratio_finite (sx s' : bool) (pa pb : positive) :
  held (Zpos pa) -> Zpos pb < 2 ^ 1024 ->
  float_of_ratio sx pa pb <> S754_infinity s'.
Proof.
  intros Ha Hb. destruct (held_pos _ Ha ltac:(lia)) as (T & X & HTX & HT & HX & Hlt).
  change (Z.abs (Z.pos pa)) with (Z.pos pa) in HTX, Hlt.
  assert (Hd1 : Zpos (digits2_pos pa) <= 1024) by (apply (Zdigits2_le (Zpos pa)); lia).
  assert (Hd2 : Zpos (digits2_pos pb) <= 1024) by (apply (Zdigits2_le (Zpos pb)); lia).
  destruct (digits2_pos_bounds pa) as [Halo Hahi].
  destruct (digits2_pos_bounds pb) as [Hblo Hbhi].
  unfold float_of_ratio, SFdiv_core_binary, fexp, emin, prec, emax. cbn [Zdigits2].
  set (e' := Z.min (Z.max (Z.pos (digits2_pos pa) + 0 - (Z.pos (digits2_pos pb) + 0) - 53)
                          (3 - 1024 - 53)) (0 - 0)).
  assert (He' : e' = Z.min (Z.max (Z.pos (digits2_pos pa) - Z.pos (digits2_pos pb) - 53) (-1074)) 0)
    by (unfold e'; f_equal; f_equal; lia).
  clearbody e'.
  set (m' := match 0 - 0 - e' with
             | 0 => Z.pos pa
             | Z.pos _ => Z.shiftl (Z.pos pa) (0 - 0 - e')
             | Z.neg _ => 0
             end).
  assert (Hm' : m' = Zpos pa * 2 ^ (- e')).
  { unfold m'. replace (0 - 0 - e') with (- e') by lia.
    destruct (- e') as [|k|k] eqn:Hk; try lia.
    rewrite Z.shiftl_mul_pow2 by lia. reflexivity. }
  clearbody m'.
  assert (Hs : 0 < 2 ^ (- e')) by (apply Z.pow_pos_nonneg; lia).
  destruct (Z.div_eucl m' (Z.pos pb)) as [q r] eqn:Hq.
  apply div_eucl_div in Hq. destruct Hq as [Hq Hr].
  destruct (Pos.eq_dec pb 1%positive) as [->|Hne].
  - rewrite Z.div_1_r in Hq. rewrite Z.mod_1_r in Hr. subst q r.
    change (new_location 1 0) with loc_Exact.
    change (binary_round_aux prec emax sx m' e' loc_Exact <> S754_infinity s').
    destruct (binary_round_aux_finite sx m' (T + - e') X e') as (q & e2 & ->);
      try lia; try discriminate.
    + rewrite Hm', HTX, Z.pow_add_r by lia. ring.
    + assert (Zdigits2 m' <= Zpos (digits2_pos pa) + - e'); [|lia].
      apply Zdigits2_le; [|lia]. rewrite Z.pow_add_r by lia. nia.
  - apply (binary_round_aux_no_overflow sx s' q e').
    + rewrite Hq. apply Z.div_pos; nia.
    + lia.
    + assert (Hpb : 2 <= Z.pos (digits2_pos pb)).
      { destruct pb; cbn [digits2_pos]; lia. }
      assert (Zdigits2 q <= Zpos (digits2_pos pa) + - e' - Zpos (digits2_pos pb) + 1); [|lia].
      apply Zdigits2_le; [|lia]. split; [rewrite Hq; apply Z.div_pos; nia|].
      rewrite Hq. apply Z.div_lt_upper_bound; [lia|].
      assert (Hpow : 2 ^ (Z.pos (digits2_pos pb) - 1)
                     * 2 ^ (Z.pos (digits2_pos pa) + - e' - Z.pos (digits2_pos pb) + 1)
                     = 2 ^ Z.pos (digits2_pos pa) * 2 ^ (- e')).
      { rewrite <- !Z.pow_add_r by lia. f_equal. lia. }
      apply Z.lt_le_trans with (2 ^ Z.pos (digits2_pos pa) * 2 ^ (- e')).
      * rewrite Hm'. apply Z.mul_lt_mono_pos_r; assumption.
      * rewrite <- Hpow. apply Z.mul_le_mono_nonneg_r; [|exact Hblo].
        apply Z.pow_nonneg. lia.
Qed.

Lemma int_truediv_held (a b : Z) :
  held a -> held b -> b <> 0 -> exists f, int_truediv a b = Return f.
Proof.
  intros Ha Hb Hne.
  destruct (held_pos b Hb Hne) as (_ & _ & _ & _ & _ & Hblt).
  unfold int_truediv.
  assert (Hgen : forall sx, a <> 0 ->
            exists f, match float_of_ratio sx (Z.to_pos (Z.abs a)) (Z.to_pos (Z.abs b)) with
                      | S754_infinity _ => Raise OverflowError
                      | f => Return f
                      end = Return f).
  { intros sx Ha0.
    pose proof (float_of_ratio_finite sx) as Hfin.
    assert (Hpa : held (Zpos (Z.to_pos (Z.abs a)))).
    { rewrite Z2Pos.id by lia. destruct Ha as (m & t & H1 & H2 & H3).
      exists m, t. replace (Z.abs (Z.abs a)) with (Z.abs a) by lia. auto. }
    assert (Hpb : Zpos (Z.to_pos (Z.abs b)) < 2 ^ 1024) by (rewrite Z2Pos.id by lia; exact Hblt).
    destruct (float_of_ratio sx _ _) as [s0|s0| |s0 m0 e0] eqn:Hf; try (eexists; reflexivity).
    exfalso. exact (Hfin s0 _ _ Hpa Hpb Hf). }
  destruct b as [|pb|pb]; [contradiction| |];
    (destruct a as [|pa|pa]; [eexists; reflexivity | apply Hgen; lia | apply Hgen; lia]).
Qed.

(** ** The calculations on a parsed row *)

Lemma guide_price_high_held (s : self) (h : Z) :
  guide_price_high s = Return (Some h) -> held h.
Proof.
  unfold guide_price_high. intros H. bind_inv H. destruct a as [lo hi].
  apply Return_inj in H. cbn [snd] in H. subst hi.
  pose proof Ha as H'. unfold _parse_guide_price_range in H'.
  apply bind_Return in H'. destruct H' as (st & Hst & _).
  rewrite (parse_of_status s st Hst) in Ha.
  destruct (re_match GUIDE_RANGE st) as [m|].
  - bind_inv Ha. bind_inv Ha. apply Return_inj in Ha. injection Ha as _ <-.
    exact (price_held _ _ Ha1).
  - destruct (re_match GUIDE_PLUS st) as [m|].
    + bind_inv Ha. apply Return_inj in Ha. injection Ha as _ <-.
      exact (price_held _ _ Ha0).
    + apply Return_inj in Ha. discriminate.
Qed.

Lemma ast_annual_income_held (s : self) (n : Z) :
  ast_annual_income s = Return (Some n) -> held n.
Proof.
  unfold ast_annual_income. intros H. bind_inv H.
  destruct (negb a); [apply Return_inj in H; discriminate|].
  bind_inv H. destruct (re_search PER_ANNUM a0) as [m|].
  - bind_inv H. apply Return_inj in H. injection H as <-. exact (price_held _ _ Ha1).
  - apply Return_inj in H. discriminate.
Qed.

(** The step returns on every row that the parser built. *)
Lemma parsed_row_calculations (s : self) (r : row) :
  as_dict s = Return r -> exists r', add_calculations r = Return r'.
Proof.
  intros H. destruct (as_dict_lookup s r H) as (flag & income & high & _ & Hinc & Hhigh & _ & Hi & Hg & _).
  destruct income as [n|]; cbn [int_or_none] in Hi.
  - destruct (Z.eq_dec n 0) as [->|Hn].
    + exists r. exact (add_calculations_falsy r _ _ Hi eq_refl Hg).
    + destruct (float_of_int_held n (ast_annual_income_held s n Hinc)) as (fn & Hfn).
      rewrite (add_calculations_income r n fn _ Hi Hn Hfn Hg).
      destruct high as [g|]; cbn [int_or_none truthy].
      * destruct (Z.eq_dec g 0) as [->|Hg0]; [eexists; reflexivity|].
        replace (negb (g =? 0)) with true
          by (symmetry; apply negb_true_iff, Z.eqb_neq; exact Hg0).
        destruct (int_truediv_held g n (guide_price_high_held s g Hhigh)
                    (ast_annual_income_held s n Hinc) Hn) as (q & Hq).
        rewrite truediv_int_int, Hq. cbv beta iota delta [bind Return].
        rewrite truediv_float_100. eexists. reflexivity.
      * eexists. reflexivity.
  - exists r. exact (add_calculations_falsy r _ _ Hi eq_refl Hg).
Qed.

(** X9: the calculation step never fails on a row that the parser built.
    The numbers that the parser reads are ints that a float holds, so that
    the income has a float, and the quotient of the guide price by the
    income is within the range of a float. *)
Theorem calculations_never_fail (s : self) (r : row) :
  as_dict s = Return r -> exists r', add_calculations r = Return r'.
Proof. exact (parsed_row_calculations s r). Qed.

Lemma calculations_never_fail_witness :
  exists r', add_calculations (Sample.dict_of Sample.page 0) = Return r'.
Proof.
  apply (calculations_never_fail (Sample.parser_of Sample.page 0)).
  apply (value_of_result _ ∅). vm_compute. reflexivity.
Defined.

(** ** The rows that a page yields *)

Lemma yielded_row_inv (root : element) (r : row) :
  In r (fst (rows_of_tree root)) ->
  exists tr s r0, In tr (xpath (root_node root) TABLE_ROW_XPATH)
    /\ __init__ tr = Return s /\ as_dict s = Return r0
    /\ add_calculations r0 = Return r.
Proof.
  intros Hin. unfold rows_of_tree in Hin.
  apply yield_each_In in Hin. destruct Hin as (tr & Htr & Hrow).
  unfold row_of_header in Hrow. bind_inv Hrow. bind_inv Hrow.
  exists tr, a, a0. auto.
Qed.

Lemma ast_annual_income_nonneg (s : self) (n : Z) :
  ast_annual_income s = Return (Some n) -> 0 <= n.
Proof.
  unfold ast_annual_income. intros H. bind_inv H.
  destruct (negb a); [apply Return_inj in H; discriminate|].
  bind_inv H. destruct (re_search PER_ANNUM a0) as [m|] eqn:Hs.
  - apply re_search_some in Hs. destruct Hs as (pre & s' & _ & Hm & _).
    apply per_annum_match in Hm. destruct Hm as (amt & post & _ & Hinc & ->).
    cbn [group String.eqb Ascii.eqb Bool.eqb] in H. bind_inv H.
    apply Return_inj in H. injection H as <-.
    exact (price_nonneg amt a1 (income_text_no_minus amt (proj2 Hinc)) Ha1).
  - apply Return_inj in H. discriminate.
Qed.

Lemma int_or_none_shape (o : option Z) :
  (forall n, o = Some n -> 0 <= n) ->
  int_or_none o = VNone \/ exists n, 0 <= n /\ int_or_none o = VInt n.
Proof.
  destruct o as [n|]; cbn [int_or_none]; [|now left].
  intros H. right. exists n. split; [apply H|]; reflexivity.
Qed.

Lemma truediv_returns_float (x y v : value) :
  truediv x y = Return v -> exists f, v = VFloat f.
Proof.
  assert (Hb : forall (m : result float),
            bind m (fun f => Return (VFloat f)) = Return v -> exists f, v = VFloat f).
  { intros m H. bind_inv H. apply Return_inj in H. eauto. }
  assert (Hf : forall (mx my : result float),
            bind mx (fun fx => bind my (fun fy =>
              bind (float_truediv fx fy) (fun f => Return (VFloat f)))) = Return v ->
            exists f, v = VFloat f).
  { intros mx my H. bind_inv H. bind_inv H. exact (Hb _ H). }
  destruct x as [|bx|nx|fx|sx], y as [|by_|ny|fy|sy]; cbn [truediv];
    try discriminate; try apply Hb; try apply Hf.
Qed.

(** What the step leaves in a derived field: nothing, or a float. *)
Lemma add_calculations_derived (r r' : row) (k : string) :
  add_calculations r = Return r' ->
  r !! k = None ->
  r' !! k = None \/ exists f, r' !! k = Some (VFloat f).
Proof.
  unfold add_calculations. intros H Hk.
  bind_inv H. bind_inv H.
  destruct (truthy a); [|apply Return_inj in H; subst r'; now left].
  do 4 bind_inv H.
  apply truediv_returns_float in Ha1, Ha2, Ha3, Ha4.
  destruct Ha1 as (f1 & ->), Ha2 as (f2 & ->), Ha3 as (f3 & ->), Ha4 as (f4 & ->).
  assert (Hfour : forall r4 : row,
            r4 = <["_price_20pct_yield" := VFloat f4]>
                 (<["_price_15pct_yield" := VFloat f3]>
                 (<["_price_12.5pct_yield" := VFloat f2]>
                 (<["_price_10pct_yield" := VFloat f1]> r))) ->
            r4 !! k = None \/ exists f, r4 !! k = Some (VFloat f)).
  { intros r4 ->.
    destruct (decide (k = "_price_20pct_yield"%string)) as [->|N4];
      [right; eexists; apply lookup_insert_eq|rewrite lookup_insert_ne by congruence].
    destruct (decide (k = "_price_15pct_yield"%string)) as [->|N3];
      [right; eexists; apply lookup_insert_eq|rewrite lookup_insert_ne by congruence].
    destruct (decide (k = "_price_12.5pct_yield"%string)) as [->|N2];
      [right; eexists; apply lookup_insert_eq|rewrite lookup_insert_ne by congruence].
    destruct (decide (k = "_price_10pct_yield"%string)) as [->|N1];
      [right; eexists; apply lookup_insert_eq|rewrite lookup_insert_ne by congruence].
    left. exact Hk. }
  destruct (truthy a0).
  - do 2 bind_inv H. apply Return_inj in H. subst r'.
    apply truediv_returns_float in Ha2. destruct Ha2 as (fy & ->).
    destruct (decide (k = "_yield_guide_price_high"%string)) as [->|N5];
      [right; eexists; apply lookup_insert_eq|rewrite lookup_insert_ne by congruence].
    apply Hfour. reflexivity.
  - apply Return_inj in H. subst r'. apply Hfour. reflexivity.
Qed.

Lemma rows_schema (root : element) (r : row) :
  In r (fst (rows_of_tree root)) ->
  (forall k, In k ["lot_number"; "street_address"; "postcode"; "status";
                   "description"; "detail_url"; "photo_url"]%string ->
     exists t, r !! k = Some (VStr t))
  /\ (exists b, r !! "has_assured_shorthold_tenancy" = Some (VBool b))
  /\ (forall k, In k ["guide_price_low"; "guide_price_high"; "ast_annual_income"]%string ->
        r !! k = Some VNone \/ exists n, 0 <= n /\ r !! k = Some (VInt n))
  /\ (forall k, In k ["_yield_guide_price_high"; "_price_10pct_yield";
                      "_price_12.5pct_yield"; "_price_15pct_yield";
                      "_price_20pct_yield"]%string ->
        r !! k = None \/ exists f, r !! k = Some (VFloat f))
  /\ (forall k, is_Some (r !! k) -> In k FIELDS).
Proof.
  intros Hin. pose proof (rows_keys root r Hin) as Hkeys.
  apply yielded_row_inv in Hin. destruct Hin as (tr & s & r0 & _ & _ & Hd & Hc).
  pose proof (as_dict_lookup s r0 Hd) as
    (_ & _ & _ & _ & _ & _ & _ & _ & _ & D1 & D2 & D3 & D4 & D5).
  apply as_dict_inv in Hd.
  destruct Hd as (lot & street & post & st & desc & durl & purl & low & high
                  & flag & income & _ & _ & _ & _ & _ & _ & _ & Hlow & Hhigh & _ & Hinc & Hr0).
  assert (Hframe : forall k v, r0 !! k = Some v -> r !! k = Some v).
  { intros k v Hv. rewrite <- Hv. apply (add_calculations_frame r0 r k Hc);
      intros ->; congruence. }
  assert (Hguide : (forall n, low = Some n -> 0 <= n) /\ (forall n, high = Some n -> 0 <= n)).
  { unfold guide_price_low in Hlow. unfold guide_price_high in Hhigh.
    bind_inv Hlow. rewrite Ha in Hhigh. destruct a as [lo hi].
    apply Return_inj in Hlow. apply Return_inj in Hhigh. cbn [fst snd] in *. subst lo hi.
    destruct (parse_returns s low high Ha) as [[-> ->] | (l & h & -> & -> & Hl & Hh & _)].
    - split; discriminate.
    - split; intros n [= <-]; assumption. }
  assert (Hincome : forall n, income = Some n -> 0 <= n).
  { intros n ->. exact (ast_annual_income_nonneg s n Hinc). }
  split; [|split; [|split; [|split]]].
  - intros k Hk. cbn [In] in Hk.
    repeat (destruct Hk as [<- | Hk];
            [eexists; apply Hframe; rewrite Hr0; reflexivity|]).
    contradiction.
  - exists flag. apply Hframe. rewrite Hr0. reflexivity.
  - intros k Hk. cbn [In] in Hk.
    destruct Hk as [<- | [<- | [<- | []]]].
    + destruct (int_or_none_shape low (proj1 Hguide)) as [Hv | (n & Hn & Hv)];
        [left | right; exists n; split; [exact Hn|]];
        apply Hframe; rewrite Hr0, <- Hv; reflexivity.
    + destruct (int_or_none_shape high (proj2 Hguide)) as [Hv | (n & Hn & Hv)];
        [left | right; exists n; split; [exact Hn|]];
        apply Hframe; rewrite Hr0, <- Hv; reflexivity.
    + destruct (int_or_none_shape income Hincome) as [Hv | (n & Hn & Hv)];
        [left | right; exists n; split; [exact Hn|]];
        apply Hframe; rewrite Hr0, <- Hv; reflexivity.
  - intros k Hk. cbn [In] in Hk.
    destruct Hk as [<- | [<- | [<- | [<- | [<- | []]]]]];
      apply (add_calculations_derived r0 r _ Hc); assumption.
  - intros k Hk. apply list_elem_of_In.
    apply (proj1 (elem_of_list_to_set (C:=gset string) k FIELDS)).
    apply Hkeys. apply elem_of_dom. exact Hk.
Qed.

(** X10: every row that a page yields has the seven texts as strings, the
    flag as a bool, each of the three numbers as [None] or an int that is
    not negative, each of the five derived fields missing or a float, and
    no key outside the sixteen field names. *)
Theorem yielded_row_schema (root : element) (r : row) :
  In r (fst (rows_of_tree root)) ->
  (forall k, In k ["lot_number"; "street_address"; "postcode"; "status";
                   "description"; "detail_url"; "photo_url"]%string ->
     exists t, r !! k = Some (VStr t))
  /\ (exists b, r !! "has_assured_shorthold_tenancy" = Some (VBool b))
  /\ (forall k, In k ["guide_price_low"; "guide_price_high"; "ast_annual_income"]%string ->
        r !! k = Some VNone \/ exists n, 0 <= n /\ r !! k = Some (VInt n))
  /\ (forall k, In k ["_yield_guide_price_high"; "_price_10pct_yield";
                      "_price_12.5pct_yield"; "_price_15pct_yield";
                      "_price_20pct_yield"]%string ->
        r !! k = None \/ exists f, r !! k = Some (VFloat f))
  /\ (forall k, is_Some (r !! k) -> In k FIELDS).
Proof. exact (rows_schema root r). Qed.

Lemma yielded_row_schema_witness :
  exists b, Sample.row_of Sample.page 0 !! "has_assured_shorthold_tenancy" = Some (VBool b).
Proof.
  destruct (yielded_row_schema Sample.page (Sample.row_of Sample.page 0)) as (_ & H & _).
  - apply nth_In_lt. vm_compute. reflexivity.
  - exact H.
Defined.

(** ** The order of the rows *)

Lemma yield_each_run {A B} (f : A -> result B) (xs : list A) :
  match snd (yield_each f xs) with
  | None => Forall2 (fun a b => f a = Return b) xs (fst (yield_each f xs))
  | Some e =>
      exists pre x post, xs = pre ++ x :: post
        /\ Forall2 (fun a b => f a = Return b) pre (fst (yield_each f xs))
        /\ f x = Raise e
  end.
Proof.
  induction xs as [|x xs IH]; cbn [yield_each fst snd]; [constructor|].
  destruct (f x) as [e|b] eqn:Hx; cbn [fst snd].
  - exists [], x, xs. repeat split; [constructor | exact Hx].
  - destruct (yield_each f xs) as [bs [e|]]; cbn [fst snd] in *.
    + destruct IH as (pre & y & post & -> & HF & Hy).
      exists (x :: pre), y, post. repeat split; [constructor; assumption | exact Hy].
    + constructor; assumption.
Qed.

Lemma yield_each_rest {A B} (f : A -> result B) (pre post post' : list A) (x : A) (e : exn) :
  f x = Raise e ->
  yield_each f (pre ++ x :: post) = yield_each f (pre ++ x :: post').
Proof.
  intros Hx. induction pre as [|a pre IH]; cbn [app yield_each].
  - rewrite Hx. reflexivity.
  - destruct (f a); [reflexivity|]. rewrite IH. reflexivity.
Qed.

(** X11: the rows of a page come in the order of its header rows, one for
    each, up to the first header row whose row cannot be made; the error of
    that one ends the sequence, and what follows that header row is not
    looked at. *)
Theorem rows_until_first_failure (root : element) :
  match snd (rows_of_tree root) with
  | None =>
      Forall2 (fun tr r => row_of_header tr = Return r)
        (xpath (root_node root) TABLE_ROW_XPATH) (fst (rows_of_tree root))
  | Some e =>
      exists pre tr post,
        xpath (root_node root) TABLE_ROW_XPATH = pre ++ tr :: post
        /\ Forall2 (fun tr r => row_of_header tr = Return r) pre (fst (rows_of_tree root))
        /\ row_of_header tr = Raise e
        /\ forall post', rows_of_tree root
                         = yield_each row_of_header (pre ++ tr :: post')
  end.
Proof.
  unfold rows_of_tree.
  pose proof (yield_each_run row_of_header (xpath (root_node root) TABLE_ROW_XPATH)) as H.
  destruct (snd (yield_each row_of_header _)) as [e|] eqn:He; [|exact H].
  destruct H as (pre & tr & post & Hxs & HF & Htr).
  exists pre, tr, post. repeat split; try assumption.
  intros post'. rewrite Hxs. exact (yield_each_rest row_of_header pre post post' tr e Htr).
Qed.

(** ** The run *)

(** The writer refuses no row of a page: what is written for a tree is the
    header line and the lines of its rows, and what ends the writing is
    what ended the rows. *)
Lemma output_of_tree (float_repr : float -> list N) (root : element) :
  output_csv float_repr (rows_of_tree root)
  = (Csv.writeheader FIELDS
       ++ concat (map (line_of float_repr) (fst (rows_of_tree root))),
     snd (rows_of_tree root)).
Proof.
  unfold output_csv. rewrite write_rows_lines; [reflexivity|].
  apply List.Forall_forall. intros r Hr. exact (rows_keys root r Hr).
Qed.

Lemma output_of_page (fromstring : list N -> result element)
    (float_repr : float -> list N) (html : list N) :
  output_csv float_repr (get_rows_from_page fromstring html)
  = match fromstring html with
    | inl e => (Csv.writeheader FIELDS, Some e)
    | inr root =>
        (Csv.writeheader FIELDS
           ++ concat (map (line_of float_repr) (fst (rows_of_tree root))),
         snd (rows_of_tree root))
    end.
Proof.
  unfold get_rows_from_page. destruct (fromstring html) as [e|root].
  - unfold output_csv. cbn [fst snd write_rows]. rewrite app_nil_r. reflexivity.
  - apply output_of_tree.
Qed.

(** X12: a run on a named file changes no file and asks nothing of the
    network.  A missing file, or bytes that cannot be decoded, end it with
    nothing written; a page that cannot be read as a tree ends it after the
    header line, which is written before the page is read; otherwise the
    header line and the lines of the rows of the page are written, and the
    run ends as the rows do. *)
Theorem run_on_a_file
    (requests_get : list N -> result response)
    (fromstring : list N -> result element)
    (decode : list byte -> list N -> result (list N))
    (float_repr : float -> list N)
    (name : string) (fs : files) :
  name <> ""%string ->
  snd (main requests_get fromstring decode float_repr (Some name) fs) = fs
  /\ (forall other_get,
        main other_get fromstring decode float_repr (Some name) fs
        = main requests_get fromstring decode float_repr (Some name) fs)
  /\ (fs !! name = None ->
        main requests_get fromstring decode float_repr (Some name) fs
        = ([], Some OSError, fs))
  /\ (forall bytes e,
        fs !! name = Some bytes -> decode bytes PAGE_ENCODING = Raise e ->
        main requests_get fromstring decode float_repr (Some name) fs
        = ([], Some e, fs))
  /\ (forall bytes html e,
        fs !! name = Some bytes -> decode bytes PAGE_ENCODING = Return html ->
        fromstring html = Raise e ->
        main requests_get fromstring decode float_repr (Some name) fs
        = (Csv.writeheader FIELDS, Some e, fs))
  /\ (forall bytes html root,
        fs !! name = Some bytes -> decode bytes PAGE_ENCODING = Return html ->
        fromstring html = Return root ->
        main requests_get fromstring decode float_repr (Some name) fs
        = (Csv.writeheader FIELDS
             ++ concat (map (line_of float_repr) (fst (rows_of_tree root))),
           snd (rows_of_tree root), fs)).
Proof.
  intros Hname. destruct name as [|c name]; [contradiction|]. clear Hname.
  assert (Hmain : forall get,
            main get fromstring decode float_repr (Some (String c name)) fs
            = match html_from_file decode (String c name) fs with
              | inl e => ([], Some e, fs)
              | inr html => (output_csv float_repr (get_rows_from_page fromstring html), fs)
              end) by reflexivity.
  split; [|split; [|split; [|split; [|split]]]].
  - rewrite Hmain. destruct (html_from_file _ _ _); reflexivity.
  - intros other_get. rewrite !Hmain. reflexivity.
  - intros Hnone. rewrite Hmain. unfold html_from_file. rewrite Hnone. reflexivity.
  - intros bytes e Hsome Hdec. rewrite Hmain. unfold html_from_file.
    rewrite Hsome, Hdec. reflexivity.
  - intros bytes html e Hsome Hdec Htree. rewrite Hmain. unfold html_from_file.
    rewrite Hsome, Hdec. cbv beta iota delta [Return].
    rewrite output_of_page, Htree. reflexivity.
  - intros bytes html root Hsome Hdec Htree. rewrite Hmain. unfold html_from_file.
    rewrite Hsome, Hdec. cbv beta iota delta [Return].
    rewrite output_of_page, Htree. reflexivity.
Qed.

Lemma run_on_a_file_witness :
  main (fun _ => Raise OSError) (fun _ => Return Sample.page)
       (fun _ _ => Return []) (fun _ => [])
       (Some "sample_page.html"%string) ∅
  = ([], Some OSError, ∅).
Proof.
  apply (run_on_a_file (fun _ => Raise OSError) (fun _ => Return Sample.page)
           (fun _ _ => Return []) (fun _ => []) "sample_page.html" ∅).
  - discriminate.
  - reflexivity.
Defined.

(** X13: a run without a file name, or with the empty name, asks the
    network.  An error of the request ends it with nothing written and no
    file changed.  After an answer that passes the two checks the snapshot
    is written first; then the header line is written, and then the page,
    the text of the answer, is read: a page that cannot be read as a tree
    ends the run there, otherwise the lines of its rows follow. *)
Theorem run_on_the_network
    (requests_get : list N -> result response)
    (fromstring : list N -> result element)
    (decode : list byte -> list N -> result (list N))
    (float_repr : float -> list N)
    (fs : files) :
  main requests_get fromstring decode float_repr (Some ""%string) fs
  = main requests_get fromstring decode float_repr None fs
  /\ (forall other_decode,
        main requests_get fromstring other_decode float_repr None fs
        = main requests_get fromstring decode float_repr None fs)
  /\ (forall e, requests_get CURRENT_URL = Raise e ->
        main requests_get fromstring decode float_repr None fs = ([], Some e, fs))
  /\ (forall r, requests_get CURRENT_URL = Return r ->
        ~ (400 <= status_code r < 600) -> encoding r = Some PAGE_ENCODING ->
        main requests_get fromstring decode float_repr None fs
        = match fromstring (Requests.text r) with
          | inl e => (Csv.writeheader FIELDS, Some e, <[SNAPSHOT := content r]> fs)
          | inr root =>
              (Csv.writeheader FIELDS
                 ++ concat (map (line_of float_repr) (fst (rows_of_tree root))),
               snd (rows_of_tree root), <[SNAPSHOT := content r]> fs)
          end).
Proof.
  split; [reflexivity|]. split; [reflexivity|]. split.
  - intros e He. unfold main, html_from_url. rewrite He. reflexivity.
  - intros r Hr Hs He. unfold main, html_from_url. rewrite Hr.
    cbv beta iota delta [Return].
    rewrite (raise_for_status_pass r Hs). unfold write_back_page_to_file.
    rewrite bool_decide_eq_true_2 by assumption. cbv beta iota delta [Return].
    rewrite output_of_page. destruct (fromstring (Requests.text r)); reflexivity.
Qed.

(** X14: a run on the snapshot replays the run that wrote it.  When the
    text of the answer is what its content decodes to, a run on the
    snapshot file, in the files that the run on the network left, writes
    the same output and ends the same way, and leaves those files as they
    are. *)
Theorem snapshot_replays_the_run
    (requests_get : list N -> result response)
    (fromstring : list N -> result element)
    (decode : list byte -> list N -> result (list N))
    (float_repr : float -> list N)
    (fs : files) (r : response) :
  requests_get CURRENT_URL = Return r ->
  ~ (400 <= status_code r < 600) -> encoding r = Some PAGE_ENCODING ->
  decode (content r) PAGE_ENCODING = Return (Requests.text r) ->
  let first := main requests_get fromstring decode float_repr None fs in
  html_from_file decode SNAPSHOT (snd first) = Return (Requests.text r)
  /\ main requests_get fromstring decode float_repr (Some SNAPSHOT) (snd first)
     = first
  /\ forall name, name <> SNAPSHOT -> snd first !! name = fs !! name.
Proof.
  intros Hr Hs He Hdec first.
  assert (Hfirst : first = (output_csv float_repr (get_rows_from_page fromstring (Requests.text r)),
                            <[SNAPSHOT := content r]> fs)).
  { unfold first, main, html_from_url. rewrite Hr. cbv beta iota delta [Return].
    rewrite (raise_for_status_pass r Hs). unfold write_back_page_to_file.
    rewrite bool_decide_eq_true_2 by assumption. reflexivity. }
  assert (Hfile : html_from_file decode SNAPSHOT (<[SNAPSHOT := content r]> fs)
                  = Return (Requests.text r)).
  { unfold html_from_file. rewrite lookup_insert_eq. exact Hdec. }
  rewrite Hfirst. cbn [snd]. split; [exact Hfile|]. split.
  - change (main requests_get fromstring decode float_repr (Some SNAPSHOT)
              (<[SNAPSHOT := content r]> fs))
      with (match html_from_file decode SNAPSHOT (<[SNAPSHOT := content r]> fs) with
            | inl e => ([], Some e, <[SNAPSHOT := content r]> fs)
            | inr html => (output_csv float_repr (get_rows_from_page fromstring html),
                           <[SNAPSHOT := content r]> fs)
            end).
    rewrite Hfile. reflexivity.
  - intros name Hname. apply lookup_insert_ne. congruence.
Qed.

Lemma snapshot_replays_the_run_witness :
  html_from_file (fun b _ => Return (map (fun c => N_of_ascii (ascii_of_byte c)) b))
    SNAPSHOT
    (snd (main (fun _ => Return (Response 200 (Some PAGE_ENCODING) ["h"%byte; "i"%byte]
                                   [104; 105]%N))
               (fun _ => Return Sample.page)
               (fun b _ => Return (map (fun c => N_of_ascii (ascii_of_byte c)) b))
               (fun _ => []) None ∅))
  = Return [104; 105]%N.
Proof.
  apply (snapshot_replays_the_run
           (fun _ => Return (Response 200 (Some PAGE_ENCODING) ["h"%byte; "i"%byte]
                               [104; 105]%N))
           (fun _ => Return Sample.page)
           (fun b _ => Return (map (fun c => N_of_ascii (ascii_of_byte c)) b))
           (fun _ => []) ∅
           (Response 200 (Some PAGE_ENCODING) ["h"%byte; "i"%byte] [104; 105]%N)).
  - reflexivity.
  - cbn. lia.
  - reflexivity.
  - reflexivity.
Defined.

(** ** Line breaks in the output *)

Lemma utf8_plain (l : list ascii) (fuel : nat) :
  (List.length l <= fuel)%nat ->
  List.Forall (fun a => (N_of_ascii a < 128)%N) l ->
  utf8 fuel l = map N_of_ascii l.
Proof.
  revert fuel. induction l as [|a l IH]; intros fuel Hlen Hall.
  - destruct fuel; reflexivity.
  - destruct fuel as [|fuel]; [cbn in Hlen; lia|].
    inversion Hall as [|? ? Ha Hl]; subst.
    cbn [utf8 map]. apply N.ltb_lt in Ha. rewrite Ha.
    f_equal. apply IH; [cbn in Hlen; lia | exact Hl].
Qed.

Lemma uint_digits (d : Decimal.uint) :
  List.Forall (fun a => (48 <= N_of_ascii a <= 57)%N)
    (list_ascii_of_string (NilEmpty.string_of_uint d)).
Proof.
  induction d; cbn [NilEmpty.string_of_uint list_ascii_of_string];
    constructor; try assumption; cbn; lia.
Qed.

Lemma str_of_int_chars (n : Z) (c : N) :
  In c (Csv.str_of_int n) -> (c = 45 \/ 48 <= c <= 57)%N.
Proof.
  unfold Csv.str_of_int, u.
  assert (Hall : List.Forall (fun a => (N_of_ascii a = 45 \/ 48 <= N_of_ascii a <= 57)%N)
                   (list_ascii_of_string (NilZero.string_of_int (Z.to_int n)))).
  { assert (Hu : forall d, List.Forall (fun a => (N_of_ascii a = 45 \/ 48 <= N_of_ascii a <= 57)%N)
                     (list_ascii_of_string (NilZero.string_of_uint d))).
    { intros d. unfold NilZero.string_of_uint.
      assert (Hd := uint_digits d).
      destruct d; try (eapply List.Forall_impl; [|exact Hd]; cbv beta; intros; now right).
      constructor; [right; cbn; lia | constructor]. }
    destruct (Z.to_int n) as [d|d]; cbn [NilZero.string_of_int list_ascii_of_string].
    - apply Hu.
    - constructor; [left; reflexivity | apply Hu]. }
  rewrite utf8_plain; [|lia|].
  - intros Hin. apply in_map_iff in Hin. destruct Hin as (a & <- & Ha).
    rewrite List.Forall_forall in Hall. exact (Hall a Ha).
  - eapply List.Forall_impl; [|exact Hall]. cbv beta. intros a Ha. lia.
Qed.

Lemma no_line_break_In (s : list N) :
  no_line_break s <-> ~ In 13%N s /\ ~ In 10%N s.
Proof.
  unfold no_line_break. rewrite forallb_forall. split.
  - intros H. split; intros Hin; specialize (H _ Hin); discriminate.
  - intros [H13 H10] c Hc. apply negb_true_iff, orb_false_iff.
    split; apply N.eqb_neq; intros ->; tauto.
Qed.

Lemma no_line_break_app (a b : list N) :
  no_line_break (a ++ b) <-> no_line_break a /\ no_line_break b.
Proof.
  unfold no_line_break. rewrite forallb_app. apply andb_true_iff.
Qed.

(** Quoting keeps the line breaks of a cell, and adds none. *)
Lemma field_line_breaks (s : list N) : no_line_break (Csv.field s) <-> no_line_break s.
Proof.
  unfold Csv.field. destruct (existsb Csv.special s); [|reflexivity].
  unfold Csv.quoted.
  change (34%N :: flat_map (fun c => if (c =? 34)%N then [34; 34]%N else [c]) s ++ [34%N])
    with ([34%N] ++ flat_map (fun c => if (c =? 34)%N then [34; 34]%N else [c]) s ++ [34%N]).
  rewrite !no_line_break_app.
  assert (Hq : no_line_break [34%N]) by reflexivity.
  assert (Hf : no_line_break (flat_map (fun c => if (c =? 34)%N then [34; 34]%N else [c]) s)
               <-> no_line_break s).
  { induction s as [|c s IH]; [reflexivity|].
    cbn [flat_map]. rewrite no_line_break_app, IH.
    change (c :: s) with ([c] ++ s). rewrite no_line_break_app.
    destruct (N.eqb_spec c 34) as [->|_]; [|reflexivity].
    split; intros [_ H]; (split; [reflexivity | exact H]). }
  tauto.
Qed.

Lemma join_line_breaks (l : list (list N)) :
  no_line_break (Csv.join [44%N] l) <-> List.Forall no_line_break l.
Proof.
  induction l as [|a l IH]; [split; [constructor | reflexivity]|].
  destruct l as [|b l].
  - cbn [Csv.join]. split; [intros H; constructor; [exact H | constructor]|].
    intros H. inversion H; assumption.
  - change (Csv.join [44%N] (a :: b :: l)) with (a ++ [44%N] ++ Csv.join [44%N] (b :: l)).
    rewrite !no_line_break_app, IH. split.
    + intros (Ha & _ & Hl). constructor; assumption.
    + intros H. inversion H; subst. repeat split; assumption.
Qed.

(** X15: the line of a row of a page is one line of text exactly when none
    of its seven texts holds a carriage return or a line feed: given that
    the printing of floats gives none, what comes before the final CR LF
    of the row's record holds a line break if and only if one of the texts
    does. *)
Theorem row_is_one_line (float_repr : float -> list N) (root : element) (r : row) :
  In r (fst (rows_of_tree root)) ->
  (forall f, no_line_break (float_repr f)) ->
  exists body,
    line_of float_repr r = body ++ [13; 10]%N
    /\ (no_line_break body <->
        forall k t, In k ["lot_number"; "street_address"; "postcode"; "status";
                          "description"; "detail_url"; "photo_url"]%string ->
                    r !! k = Some (VStr t) -> no_line_break t).
Proof.
  intros Hin Hfloat.
  destruct (rows_schema root r Hin) as (Hstr & [b Hb] & Hint & Hder & _).
  eexists. split; [reflexivity|].
  rewrite join_line_breaks, List.Forall_map.
  assert (Hcell : forall v, (forall t, v = VStr t -> no_line_break t) ->
                    no_line_break (Csv.field (Csv.cell float_repr v))).
  { intros v Hv. apply field_line_breaks. destruct v as [|[|]|n|f|t]; cbn [Csv.cell].
    - reflexivity.
    - reflexivity.
    - reflexivity.
    - apply no_line_break_In. split; intros Hc; apply str_of_int_chars in Hc; lia.
    - apply Hfloat.
    - apply Hv. reflexivity. }
  split.
  - intros Hall k t Hk Hkt. rewrite List.Forall_forall in Hall.
    assert (Hf : In k FIELDS).
    { cbn [In] in Hk. cbn [FIELDS In].
      repeat (destruct Hk as [<- | Hk]; [tauto|]). contradiction. }
    specialize (Hall k Hf). cbv beta in Hall. rewrite Hkt in Hall.
    exact (proj1 (field_line_breaks _) Hall).
  - intros Htexts. apply List.Forall_forall. intros k Hk. cbv beta.
    apply Hcell. intros t Ht.
    destruct (r !! k) as [v|] eqn:Hv.
    + change (v = VStr t) in Ht. subst v.
      assert (Hseven : In k ["lot_number"; "street_address"; "postcode"; "status";
                             "description"; "detail_url"; "photo_url"]%string).
      { cbn [FIELDS In] in Hk. cbn [In].
        repeat (destruct Hk as [<- | Hk];
                [first [ tauto
                       | exfalso; rewrite Hb in Hv; discriminate
                       | exfalso;
                         match type of Hv with
                         | r !! ?key = _ =>
                             destruct (Hint key ltac:(cbn [In]; tauto)) as [H1 | (n & _ & H1)];
                             rewrite H1 in Hv; discriminate
                         end
                       | exfalso;
                         match type of Hv with
                         | r !! ?key = _ =>
                             destruct (Hder key ltac:(cbn [In]; tauto)) as [H1 | (f & H1)];
                             rewrite H1 in Hv; discriminate
                         end ]|]).
        contradiction. }
      exact (Htexts k t Hseven Hv).
    + change (VStr [] = VStr t) in Ht. injection Ht as <-. reflexivity.
Qed.

Lemma row_is_one_line_witness :
  exists body, line_of (fun _ => u "0.0") (Sample.row_of Sample.page 0) = body ++ [13; 10]%N.
Proof.
  destruct (row_is_one_line (fun _ => u "0.0") Sample.page (Sample.row_of Sample.page 0))
    as (body & Hbody & _).
  - apply nth_In_lt. vm_compute. reflexivity.
  - intros f. reflexivity.
  - exists body. exact Hbody.
Defined.

(** ** The errors of a row *)

Lemma bind_Raise_inv {A B} (m : result A) (k : A -> result B) (e : exn) :
  bind m k = Raise e -> m = Raise e \/ exists a, m = Return a /\ k a = Raise e.
Proof. destruct m as [e'|a]; cbn [bind]; [intros [= <-]; now left | eauto]. Qed.

Lemma index_raises {A} (l : list A) (i : nat) (e : exn) :
  index l i = Raise e -> e = IndexError.
Proof. unfold index. destruct (nth_error l i); [discriminate | now intros [= <-]]. Qed.

Lemma attr_raises (el : element) (name : string) (e : exn) :
  attr el name = Raise e -> e = KeyError.
Proof. unfold attr. destruct (lookup_attr _ _); [discriminate | now intros [= <-]]. Qed.

Lemma cell_raises (s : self) (i : nat) (e : exn) :
  bind (index (xpath (header_tr s) (Path Child "td" None)) i) (fun td => text (inr td))
  = Raise e -> e = IndexError.
Proof.
  intros H. apply bind_Raise_inv in H. destruct H as [H | (td & _ & H)].
  - exact (index_raises _ _ _ H).
  - discriminate.
Qed.

Lemma description_raises (s : self) (e : exn) :
  description s = Raise e -> e = IndexError.
Proof.
  unfold description. intros H. apply bind_Raise_inv in H.
  destruct H as [H | (p & _ & H)]; [exact (index_raises _ _ _ H) | discriminate].
Qed.

Lemma parse_raises (s : self) (e : exn) :
  _parse_guide_price_range s = Raise e -> row_error e.
Proof.
  unfold _parse_guide_price_range, row_error. intros H. apply bind_Raise_inv in H.
  destruct H as [H | (st & _ & H)]; [left; exact (cell_raises s 3 e H)|].
  destruct (re_match GUIDE_RANGE st) as [m|].
  - apply bind_Raise_inv in H. destruct H as [H | (lo & _ & H)];
      [destruct (price_raises _ _ H); tauto|].
    apply bind_Raise_inv in H. destruct H as [H | (hi & _ & H)];
      [destruct (price_raises _ _ H); tauto | discriminate].
  - destruct (re_match GUIDE_PLUS st) as [m|]; [|discriminate].
    apply bind_Raise_inv in H. destruct H as [H | (p & _ & H)];
      [destruct (price_raises _ _ H); tauto | discriminate].
Qed.

Lemma flag_raises (s : self) (e : exn) :
  has_assured_shorthold_tenancy s = Raise e -> e = IndexError.
Proof.
  unfold has_assured_shorthold_tenancy. intros H. apply bind_Raise_inv in H.
  destruct H as [H | (d & _ & H)]; [exact (description_raises s e H) | discriminate].
Qed.

Lemma income_raises (s : self) (e : exn) :
  ast_annual_income s = Raise e -> row_error e.
Proof.
  unfold ast_annual_income, row_error. intros H. apply bind_Raise_inv in H.
  destruct H as [H | (flag & _ & H)]; [left; exact (flag_raises s e H)|].
  destruct (negb flag); [discriminate|].
  apply bind_Raise_inv in H.
  destruct H as [H | (d & _ & H)]; [left; exact (description_raises s e H)|].
  destruct (re_search PER_ANNUM d) as [m|]; [|discriminate].
  apply bind_Raise_inv in H. destruct H as [H | (v & _ & H)];
    [destruct (price_raises _ _ H); tauto | discriminate].
Qed.

Lemma url_raises (n : node) (p : path) (name : string) (e : exn) :
  bind (index (xpath n p) 0) (fun a => bind (attr (elem a) name) (fun href =>
    Return (_make_absolute_url href))) = Raise e ->
  e = IndexError \/ e = KeyError.
Proof.
  intros H. apply bind_Raise_inv in H.
  destruct H as [H | (a & _ & H)]; [left; exact (index_raises _ _ _ H)|].
  destruct (attr (elem a) name) as [e'|href] eqn:Ha; [|discriminate].
  injection H as <-. right. exact (attr_raises _ _ _ Ha).
Qed.

Lemma as_dict_raises (s : self) (e : exn) : as_dict s = Raise e -> row_error e.
Proof.
  unfold as_dict. intros H.
  apply bind_Raise_inv in H. destruct H as [H | (? & _ & H)];
    [left; exact (cell_raises s 0 e H)|].
  apply bind_Raise_inv in H. destruct H as [H | (? & _ & H)];
    [left; exact (cell_raises s 1 e H)|].
  apply bind_Raise_inv in H. destruct H as [H | (? & _ & H)];
    [left; exact (cell_raises s 2 e H)|].
  apply bind_Raise_inv in H. destruct H as [H | (? & _ & H)];
    [left; exact (cell_raises s 3 e H)|].
  apply bind_Raise_inv in H. destruct H as [H | (? & _ & H)];
    [left; exact (description_raises s e H)|].
  apply bind_Raise_inv in H. destruct H as [H | (? & _ & H)];
    [destruct (url_raises _ _ _ _ H); unfold row_error; tauto|].
  apply bind_Raise_inv in H. destruct H as [H | (? & _ & H)];
    [destruct (url_raises _ _ _ _ H); unfold row_error; tauto|].
  apply bind_Raise_inv in H. destruct H as [H | (? & _ & H)].
  { unfold guide_price_low in H. apply bind_Raise_inv in H.
    destruct H as [H | (? & _ & H)]; [exact (parse_raises s e H) | discriminate]. }
  apply bind_Raise_inv in H. destruct H as [H | (? & _ & H)].
  { unfold guide_price_high in H. apply bind_Raise_inv in H.
    destruct H as [H | (? & _ & H)]; [exact (parse_raises s e H) | discriminate]. }
  apply bind_Raise_inv in H. destruct H as [H | (? & _ & H)];
    [left; exact (flag_raises s e H)|].
  apply bind_Raise_inv in H. destruct H as [H | (? & _ & H)];
    [exact (income_raises s e H) | discriminate].
Qed.

(** X16: the row of a header row fails in four ways only: [IndexError]
    for a part that is not on the page, [KeyError] for a link without
    [href] or an image without [src], [ValueError] and [OverflowError]
    for an amount that is no number or too large a one.  The assertion of
    [text] and the calculations are never what fails. *)
Theorem row_errors (tr : node) (e : exn) :
  row_of_header tr = Raise e ->
  (e = IndexError \/ e = KeyError \/ e = ValueError \/ e = OverflowError)
  /\ (__init__ tr = Raise e
      \/ exists s, __init__ tr = Return s /\ as_dict s = Raise e).
Proof.
  unfold row_of_header. intros H. apply bind_Raise_inv in H.
  destruct H as [H | (s & Hs & H)].
  - split; [|now left]. left. unfold __init__ in H. apply bind_Raise_inv in H.
    destruct H as [H | (? & _ & H)]; [exact (index_raises _ _ _ H) | discriminate].
  - apply bind_Raise_inv in H. destruct H as [H | (r & Hr & H)].
    + split; [exact (as_dict_raises s e H)|]. right. exists s. split; assumption.
    + exfalso.
      destruct (parsed_row_calculations s r Hr) as (r' & Hr'). rewrite Hr' in H. discriminate.
Qed.

Lemma row_errors_witness :
  IndexError = IndexError \/ IndexError = KeyError \/ IndexError = ValueError
  \/ IndexError = OverflowError.
Proof.
  apply (row_errors (Sample.header_of Sample.page_without_detail 0) IndexError).
  vm_compute. reflexivity.
Defined.

(** X17: a price is an int that a float holds: it has at most 53
    significant bits and is below 2^1024 in size.  Digits beyond those are
    lost: the price of "9007199254740993" is 9007199254740992. *)
Theorem price_is_a_float_int (s : list N) (n : Z) :
  price s = Return n ->
  (exists m t, 0 <= t <= 971 /\ 0 <= m < 2 ^ 53 /\ Z.abs n = 2 ^ t * m)
  /\ Z.abs n < 2 ^ 1024.
Proof.
  intros H. pose proof (price_held s n H) as Hh. split; [exact Hh|].
  destruct (Z.eq_dec n 0) as [->|Hn]; [reflexivity|].
  destruct (held_pos n Hh Hn) as (_ & _ & _ & _ & _ & Hlt). exact Hlt.
Qed.

Lemma price_is_a_float_int_witness :
  price (u "9007199254740993") = Return 9007199254740992
  /\ Z.abs 9007199254740992 < 2 ^ 1024.
Proof.
  assert (H : price (u "9007199254740993") = Return 9007199254740992)
    by (vm_compute; reflexivity).
  split; [exact H|].
  exact (proj2 (price_is_a_float_int (u "9007199254740993") 9007199254740992 H)).
Defined.

(** ** The grammar of numerals *)

Lemma str_eqb_eq (a b : list N) : str_eqb a b = true <-> a = b.
Proof.
  revert b. induction a as [|x a IH]; intros [|y b]; cbn [str_eqb];
    try (split; [discriminate | discriminate]); [tauto|].
  rewrite andb_true_iff, N.eqb_eq, IH. split.
  - intros [-> ->]. reflexivity.
  - intros [= -> ->]. tauto.
Qed.

Lemma str_eqb_head (x y : N) (a b : list N) :
  x <> y -> str_eqb (x :: a) (y :: b) = false.
Proof. intros H. cbn [str_eqb]. now rewrite (proj2 (N.eqb_neq x y) H). Qed.

Lemma span_spec (p : N -> bool) (s a b : list N) :
  span p s = (a, b) ->
  s = a ++ b /\ forallb p a = true
  /\ match b with c :: _ => p c = false | [] => True end.
Proof.
  revert a b. induction s as [|c s IH]; intros a b; cbn [span].
  - intros [= <- <-]. repeat split.
  - destruct (p c) eqn:Hc.
    + destruct (span p s) as [a' b'] eqn:Hs. intros [= <- <-].
      destruct (IH a' b' eq_refl) as (-> & Ha & Hb).
      repeat split; [cbn [forallb]; now rewrite Hc, Ha | exact Hb].
    + intros [= <- <-]. repeat split. exact Hc.
Qed.

Lemma span_app (p : N -> bool) (a b : list N) :
  forallb p a = true ->
  match b with c :: _ => p c = false | [] => True end ->
  span p (a ++ b) = (a, b).
Proof.
  intros Ha Hb. induction a as [|c a IH]; cbn [app span].
  - destruct b as [|c b]; [reflexivity|]. cbn [span]. now rewrite Hb.
  - cbn [forallb] in Ha. apply andb_true_iff in Ha as [Hc Ha].
    now rewrite Hc, (IH Ha).
Qed.

Lemma read_sign_spec (s s0 : list N) (neg : bool) :
  read_sign s = (neg, s0) ->
  exists st, sign_text st neg /\ s = st ++ s0
    /\ (st = [] -> match s0 with c :: _ => c <> 45%N /\ c <> 43%N | [] => True end).
Proof.
  unfold read_sign. destruct s as [|c s'].
  - intros [= <- <-]. exists []. repeat split. constructor.
  - destruct (N.eqb_spec c 45) as [->|H45].
    + intros [= <- <-]. exists [45%N]. repeat split; [constructor | discriminate].
    + destruct (N.eqb_spec c 43) as [->|H43].
      * intros [= <- <-]. exists [43%N]. repeat split; [constructor | discriminate].
      * intros [= <- <-]. exists []. repeat split; [constructor | assumption..].
Qed.

Lemma read_sign_app (st s0 : list N) (neg : bool) :
  sign_text st neg ->
  match s0 with c :: _ => c <> 45%N /\ c <> 43%N | [] => True end ->
  read_sign (st ++ s0) = (neg, s0).
Proof.
  intros [| |] H; cbn [app read_sign]; try reflexivity.
  destruct s0 as [|c s0]; [reflexivity|]. destruct H as [H45 H43].
  unfold read_sign.
  now rewrite (proj2 (N.eqb_neq c 45) H45), (proj2 (N.eqb_neq c 43) H43).
Qed.

Lemma digit_head (ds : list N) :
  digit_text ds -> match ds with c :: _ => (48 <= c <= 57)%N | [] => True end.
Proof.
  destruct ds as [|c ds]; [trivial|]. unfold digit_text. cbn [forallb].
  intros H. apply andb_true_iff in H as [H _]. now apply is_digit_range.
Qed.

Lemma read_exponent_spec (s s3 : list N) (ex : Z) :
  read_exponent s = (ex, s3) -> s3 = [] -> exponent_text s ex.
Proof.
  unfold read_exponent. destruct s as [|c s'].
  - intros [= <- <-] _. constructor.
  - destruct ((c =? 101) || (c =? 69))%N eqn:Hc; [|intros [= <- <-]; discriminate].
    destruct (read_sign s') as [neg s1] eqn:Hs.
    destruct (span is_digit s1) as [ds s2] eqn:Hd.
    destruct ds as [|d ds]; [intros [= <- <-]; discriminate|].
    intros [= <- <-] ->.
    apply read_sign_spec in Hs. destruct Hs as (st & Hst & -> & _).
    apply span_spec in Hd. destruct Hd as (-> & Hds & _).
    rewrite app_nil_r. constructor; try assumption; [|discriminate].
    apply orb_true_iff in Hc. destruct Hc as [Hc|Hc]; apply N.eqb_eq in Hc; tauto.
Qed.

Lemma read_exponent_app (et : list N) (ex : Z) :
  exponent_text et ex -> read_exponent et = (ex, []).
Proof.
  intros [|c st neg ds Hc Hst Hds Hne]; [reflexivity|].
  cbn [read_exponent].
  replace ((c =? 101) || (c =? 69))%N with true
    by (destruct Hc as [-> | ->]; reflexivity).
  pose proof (digit_head ds Hds) as Hh.
  rewrite (read_sign_app st ds neg Hst)
    by (destruct ds as [|d ds']; [trivial | lia]).
  replace ds with (ds ++ []) at 1 by apply app_nil_r.
  rewrite (span_app is_digit ds [] Hds I).
  destruct ds; [contradiction | reflexivity].
Qed.

Lemma exponent_head (et : list N) (ex : Z) :
  exponent_text et ex ->
  match et with c :: _ => c = 101%N \/ c = 69%N | [] => True end.
Proof. intros [|c st neg ds Hc _ _ _]; [trivial | exact Hc]. Qed.

Lemma lower_head (c : N) (s : list N) :
  ((48 <= c <= 57) \/ c = 46)%N -> lower (c :: s) = c :: lower s.
Proof.
  intros Hc. unfold lower. cbn [map]. f_equal. unfold lower_char.
  destruct ((65 <=? c) && (c <=? 90))%N eqn:H; [|reflexivity].
  apply andb_true_iff in H as [H1 H2]. apply N.leb_le in H1, H2. lia.
Qed.

(** The reader accepts exactly the numerals, and gives the float of each. *)
Lemma read_float_numeral (s : list N) (f : float) :
  read_float s = Some f <-> numeral s f.
Proof.
  split.
  - unfold read_float. destruct (read_sign s) as [neg s0] eqn:Hs.
    apply read_sign_spec in Hs. destruct Hs as (st & Hst & -> & _).
    destruct (str_eqb (lower s0) (u "inf") || str_eqb (lower s0) (u "infinity")) eqn:Hinf.
    { intros [= <-]. apply (numeral_infinity st neg s0 Hst).
      apply orb_true_iff in Hinf. destruct Hinf as [H|H]; apply str_eqb_eq in H; tauto. }
    destruct (str_eqb (lower s0) (u "nan")) eqn:Hnan.
    { intros [= <-]. apply (numeral_nan st neg s0 Hst). now apply str_eqb_eq. }
    destruct (span is_digit s0) as [ip s1] eqn:Hip.
    apply span_spec in Hip. destruct Hip as (-> & Hipd & Hs1).
    destruct (match s1 with
              | c :: s1' => if (c =? 46)%N then span is_digit s1' else ([], s1)
              | [] => ([], s1)
              end) as [fp s2] eqn:Hfp.
    destruct (ip ++ fp) as [|d ds] eqn:Hds; [discriminate|].
    destruct (read_exponent s2) as [ex s3] eqn:Hex.
    destruct s3; [|discriminate]. intros [= <-].
    apply read_exponent_spec in Hex; [|reflexivity].
    rewrite <- Hds.
    destruct s1 as [|c s1'].
    + injection Hfp as <- <-. rewrite app_nil_r in *.
      replace (ex - Z.of_nat (List.length (@nil N))) with (ex - Z.of_nat 0) by reflexivity.
      replace ip with (ip ++ []) at 1 by apply app_nil_r.
      apply (numeral_number st neg ip ip 0 [] ex Hst); [|exact Hex].
      constructor; [exact Hipd | rewrite Hds; discriminate].
    + destruct (N.eqb_spec c 46) as [->|Hc].
      * apply span_spec in Hfp. destruct Hfp as (-> & Hfpd & _).
        replace (ip ++ 46%N :: fp ++ s2) with ((ip ++ 46%N :: fp) ++ s2)
          by (rewrite <- app_assoc; reflexivity).
        apply (numeral_number st neg _ (ip ++ fp) (List.length fp) s2 ex Hst); [|exact Hex].
        constructor; [exact Hipd | exact Hfpd | rewrite Hds; discriminate].
      * injection Hfp as <- <-. rewrite app_nil_r in *.
        replace (ex - Z.of_nat (List.length (@nil N))) with (ex - Z.of_nat 0) by reflexivity.
        apply (numeral_number st neg ip ip 0 (c :: s1') ex Hst); [|exact Hex].
        constructor; [exact Hipd | rewrite Hds; discriminate].
  - intros [st neg w Hst Hw | st neg w Hst Hw | st neg nt ds k et ex Hst Hnt Het].
    + assert (Hhead : match w with c :: _ => c <> 45%N /\ c <> 43%N | [] => True end).
      { destruct w as [|c w]; [trivial|]. unfold lower in Hw. cbn [map] in Hw.
        assert (Hc : lower_char c = 105%N)
          by (destruct Hw as [Hw|Hw]; vm_compute in Hw |- *; now injection Hw).
        split; intros ->; vm_compute in Hc; discriminate. }
      unfold read_float. rewrite (read_sign_app st w neg Hst Hhead).
      replace (str_eqb (lower w) (u "inf") || str_eqb (lower w) (u "infinity")) with true;
        [reflexivity|].
      symmetry. apply orb_true_iff.
      destruct Hw as [Hw|Hw]; [left | right]; now apply str_eqb_eq.
    + assert (Hhead : match w with c :: _ => c <> 45%N /\ c <> 43%N | [] => True end).
      { destruct w as [|c w]; [trivial|]. unfold lower in Hw. cbn [map] in Hw.
        assert (Hc : lower_char c = 110%N) by (vm_compute in Hw |- *; now injection Hw).
        split; intros ->; vm_compute in Hc; discriminate. }
      unfold read_float. rewrite (read_sign_app st w neg Hst Hhead).
      rewrite Hw. reflexivity.
    + assert (Hnum : exists c rest, nt ++ et = c :: rest /\ ((48 <= c <= 57) \/ c = 46)%N).
      { destruct Hnt as [ip Hip Hne | ip fp Hip Hfp Hne].
        - destruct ip as [|c ip]; [contradiction|]. exists c, (ip ++ et).
          split; [reflexivity|]. left. exact (digit_head _ Hip).
        - destruct ip as [|c ip].
          + exists 46%N, (fp ++ et). split; [reflexivity | now right].
          + exists c, ((ip ++ 46%N :: fp) ++ et). split; [reflexivity|].
            left. exact (digit_head _ Hip). }
      destruct Hnum as (c & rest & Hcr & Hc).
      unfold read_float. rewrite (read_sign_app st (nt ++ et) neg Hst)
        by (rewrite Hcr; lia).
      rewrite Hcr, (lower_head c rest Hc), <- Hcr.
      rewrite u_inf, u_infinity, u_nan.
      rewrite !str_eqb_head by lia. cbn [orb].
      pose proof (exponent_head et ex Het) as Heh.
      destruct Hnt as [ip Hip Hne | ip fp Hip Hfp Hne].
      * rewrite (span_app is_digit ip et Hip)
          by (destruct et as [|e0 et']; [trivial | destruct Heh as [-> | ->]; reflexivity]).
        replace (match et with
                 | c0 :: s1' => if (c0 =? 46)%N then span is_digit s1' else ([], et)
                 | [] => ([], et)
                 end) with (@nil N, et)
          by (destruct et as [|e0 et']; [reflexivity | destruct Heh as [-> | ->]; reflexivity]).
        rewrite app_nil_r. destruct ip as [|d ip']; [contradiction|].
        rewrite (read_exponent_app et ex Het). reflexivity.
      * rewrite <- app_assoc. cbn [app].
        rewrite (span_app is_digit ip (46%N :: fp ++ et) Hip eq_refl).
        cbn [N.eqb Pos.eqb].
        rewrite (span_app is_digit fp et Hfp)
          by (destruct et as [|e0 et']; [trivial | destruct Heh as [-> | ->]; reflexivity]).
        destruct (ip ++ fp) as [|d ds'] eqn:Hds; [contradiction|].
        rewrite (read_exponent_app et ex Het). reflexivity.
Qed.

(** ** What [float] makes of a string *)

Lemma float_of_str_numeral (s : list N) (f : float) :
  float_of_str s = Return f <->
  exists t, drop_underscores 0%N (to_ascii s) = Some t /\ numeral (strip_ascii t) f.
Proof.
  unfold float_of_str. split.
  - destruct (drop_underscores 0%N (to_ascii s)) as [t|]; [|discriminate].
    destruct (read_float (strip_ascii t)) as [f'|] eqn:Hf; [|discriminate].
    intros H. apply Return_inj in H. subst f'. exists t. split; [reflexivity|].
    now apply read_float_numeral.
  - intros (t & -> & Hn). apply read_float_numeral in Hn. now rewrite Hn.
Qed.






(** ** The float of a number *)




(** ** The float of a quotient *)






(** ** Decimal texts *)









(** ** Digits of all scripts, characters without an image, underscores *)













(** * The price of a text *)



